(** * A shallow embedding of the trading bot core

    Source: [attached_assets/trading_bot_1762899519930.py], class
    [AdvancedTradingBot].

    Numbers.  The bot computes with Python floats.  They are embedded as exact
    rationals [Q]: every arithmetic operation is the mathematical one, with no
    rounding.  Where the program tests for a missing value ([pd.isna],
    [fillna], [value is None]) the value has type [float := option Q] and
    [None] plays the part of NaN: arithmetic propagates it and every comparison
    with it is false, as in IEEE arithmetic.  pandas yields inf or NaN for a
    quotient whose divisor is zero; the embedding has no infinities and such a
    quotient is [None].  Plain Python division by zero raises
    [ZeroDivisionError]; the handler that catches it is written out at each
    place.

    Rounding.  A statement over [Q] that holds by cancelling one operation
    against another ([b - x + x = b], [c / p * p = c]) need not hold of the
    doubles the program computes with.  The module [Binary64] embeds the
    arithmetic of the balance once more over IEEE 754 binary64 numbers, and
    the places where the two differ are shown there on concrete inputs.

    Effects.  The mutable fields of the bot ([balance], [position], [trades],
    [total_trades], [winning_trades]) form the record [Bot], passed in and
    returned.  The exchange is a function: [get_ohlcv_data symbol] is what
    [self.get_ohlcv_data(symbol, '1h', 100)] returns when it is called.
    Logging, the result files written by [save_trade_to_file] and the
    timestamps read from [datetime.now()] are not part of the state. *)

From Stdlib Require Import PrimFloat.
From Stdlib Require Import String Ascii QArith Qabs Qminmax Lqa ZArith List Bool Lia.
From Stdlib Require Import Sorting.Sorted Sorting.Permutation.
Import ListNotations.

Open Scope Q_scope.

Set Warnings "-inexact-float".

(** ** Numbers *)

Definition Qltb (a b : Q) : bool := negb (Qle_bool b a).
Definition Qgtb (a b : Q) : bool := Qltb b a.
Definition Qgeb (a b : Q) : bool := Qle_bool b a.

(** Python's [min(a, b)] and [max(a, b)]: the first argument wins a tie. *)
Definition py_min (a b : Q) : Q := if Qltb b a then b else a.
Definition py_max (a b : Q) : Q := if Qgtb b a then b else a.

(** A float that may be NaN. *)
Definition float := option Q.

Definition fmul (a b : float) : float :=
  match a, b with
  | Some x, Some y => Some (x * y)
  | _, _ => None
  end.

Definition fadd (a b : float) : float :=
  match a, b with
  | Some x, Some y => Some (x + y)
  | _, _ => None
  end.

Definition fsub (a b : float) : float :=
  match a, b with
  | Some x, Some y => Some (x - y)
  | _, _ => None
  end.

(** A quotient of pandas values.  pandas gives NaN for [0 / 0] and an
    infinity for [x / 0] with a non-zero [x]; the embedding has no infinities
    and writes NaN for both. *)
Definition fdiv (a b : float) : float :=
  match a, b with
  | Some x, Some y => if Qeq_bool y 0 then None else Some (x / y)
  | _, _ => None
  end.

Definition fabs (a : float) : float := option_map Qabs a.

Definition flt (a b : float) : bool :=
  match a, b with
  | Some x, Some y => Qltb x y
  | _, _ => false
  end.

Definition fle (a b : float) : bool :=
  match a, b with
  | Some x, Some y => Qle_bool x y
  | _, _ => false
  end.

Definition fgt (a b : float) : bool := flt b a.
Definition fge (a b : float) : bool := fle b a.

(** [x if not pd.isna(x) else d], and [Series.fillna(d)] on one entry. *)
Definition nan_to (d : Q) (x : float) : Q :=
  match x with
  | Some v => v
  | None => d
  end.

(** ** Data model *)

(** One row of the frame built by [get_ohlcv_data]. *)
Record Bar := {
  timestamp : Z;
  open : Q;
  high : Q;
  low : Q;
  close : Q;
  volume : Q
}.

(** The exchange, as seen through [get_ohlcv_data(symbol, '1h', 100)]:
    [None] when the request fails. *)
Definition Exchange := string -> option (list Bar).

Inductive Action := BUY | SELL | HOLD.

(** [signal == 'BUY'] and the like. *)
Definition Action_eqb (a b : Action) : bool :=
  match a, b with
  | BUY, BUY | SELL, SELL | HOLD, HOLD => true
  | _, _ => false
  end.

(** The dictionary stored in [self.position]. *)
Record Position := {
  entry_price : Q;
  size : Q;
  stop_loss : Q;
  take_profit : Q;
  type : string;
  signal_strength : Z;
  symbol : string
}.

(** A [trade_info] dictionary appended to [self.trades]. *)
Record Trade := {
  trade_type : string;
  trade_symbol : string;
  trade_price : Q;
  trade_size : Q;
  trade_profit_loss : option Q;
  trade_reason : option string
}.

Record Bot := {
  initial_balance : Q;
  balance : Q;
  risk_per_trade : Q;
  max_drawdown : Q;
  position : option Position;
  trades : list Trade;
  total_trades : Z;
  winning_trades : Z
}.

(** ** Series operations of pandas, on exact numbers *)

Definition sum (l : list Q) : Q := fold_right Qplus 0 l.

(** [Series.mean()] of a series without NaN; NaN for the empty series. *)
Definition mean (l : list Q) : float :=
  match l with
  | [] => None
  | _ => Some (sum l / inject_Z (Z.of_nat (length l)))
  end.

Fixpoint dropna (l : list float) : list Q :=
  match l with
  | [] => []
  | Some x :: r => x :: dropna r
  | None :: r => dropna r
  end.

(** [Series.mean()] skips NaN entries. *)
Definition mean_skipna (l : list float) : float := mean (dropna l).

Definition isna (x : float) : bool :=
  match x with
  | Some _ => false
  | None => true
  end.

(** [Series.isna().all()] *)
Definition isna_all (l : list float) : bool := forallb isna l.

(** [Series.fillna(other)] with a series: each NaN entry takes the entry of
    [other] at the same index. *)
Fixpoint fillna (l : list float) (other : list Q) : list float :=
  match l, other with
  | Some x :: r, _ :: o => Some x :: fillna r o
  | None :: r, y :: o => Some y :: fillna r o
  | _, _ => l
  end.

(** [Series.fillna(d)] with a scalar. *)
Definition fillna_const (d : Q) (l : list float) : list Q := map (nan_to d) l.

(** [Series.pct_change(k)]: [x[i] / x[i-k] - 1], NaN on the first [k] rows. *)
Definition pct_change (k : nat) (l : list Q) : list float :=
  map (fun i =>
         if (i <? k)%nat then None
         else fsub (fdiv (nth_error l i) (nth_error l (i - k))) (Some 1))
      (seq 0 (length l)).

(** [Series.diff()] *)
Definition diff (l : list Q) : list float :=
  map (fun i =>
         if (i <? 1)%nat then None
         else fsub (nth_error l i) (nth_error l (i - 1)))
      (seq 0 (length l)).

(** The [w] entries that end at row [i]. *)
Definition window (w i : nat) (l : list Q) : list Q :=
  firstn w (skipn (i + 1 - w) l).

(** [Series.rolling(w)] applied with the aggregate [f]: NaN until [w] rows
    are available. *)
Definition rolling (w : nat) (f : list Q -> float) (l : list Q) : list float :=
  map (fun i => if (i + 1 <? w)%nat then None else f (window w i l))
      (seq 0 (length l)).

Definition rolling_mean (w : nat) (l : list Q) : list float := rolling w mean l.

(** ** Indicator Engine *)

(** [calculate_rsi(prices, period)] *)
Definition calculate_rsi (prices : list Q) (period : nat) : list Q :=
  if (length prices <? period)%nat then repeat 50 (length prices)
  else
    let delta := diff prices in
    let gain := map (fun d => if fgt d (Some 0) then nan_to 0 d else 0) delta in
    let loss := map (fun d => - (if flt d (Some 0) then nan_to 0 d else 0)) delta in
    let avg_gain := rolling_mean period gain in
    let avg_loss := rolling_mean period loss in
    (* avg_loss.replace(0, float('nan')).fillna(1) *)
    let denom :=
      map (fun a => match a with
                    | Some v => if Qeq_bool v 0 then 1 else v
                    | None => 1
                    end) avg_loss in
    let rs := map (fun gd => fdiv (fst gd) (Some (snd gd))) (combine avg_gain denom) in
    let rsi := map (fun r => fsub (Some 100) (fdiv (Some 100) (fadd (Some 1) r))) rs in
    fillna_const 50 rsi.

Section Bollinger.

(** The square root taken by [rolling(period).std()]; the rationals have
    none, so it stays a parameter. *)
Variable sqrt : Q -> Q.

(** [Series.std()] of one window: the sample standard deviation (ddof = 1),
    NaN when the window has fewer than two entries. *)
Definition sample_std (l : list Q) : float :=
  match mean l with
  | None => None
  | Some m =>
      if (length l <? 2)%nat then None
      else
        Some (sqrt (sum (map (fun x => (x - m) * (x - m)) l)
                    / inject_Z (Z.of_nat (length l - 1))))
  end.

(** [calculate_bollinger_bands(prices, period, std)] *)
Definition calculate_bollinger_bands (prices : list Q) (period : nat) (std : Q)
  : list float * list float :=
  if (length prices <? period)%nat
  then (repeat (Some 0) (length prices), repeat (Some 0) (length prices))
  else
    let sma := rolling_mean period prices in
    let rolling_std := rolling period sample_std prices in
    let upper_band :=
      map (fun sd => fadd (fst sd) (fmul (snd sd) (Some std))) (combine sma rolling_std) in
    let lower_band :=
      map (fun sd => fsub (fst sd) (fmul (snd sd) (Some std))) (combine sma rolling_std) in
    (fillna upper_band prices, fillna lower_band prices).

(** The columns [BB_Upper] and [BB_Lower] of the frame returned by
    [calculate_indicators(df)], given the [close] column of [df]: the bands
    with the default period and width, then [fillna(df['close'])].  An empty
    frame is returned as it came, without these columns. *)
Definition calculate_indicators_bb (closes : list Q)
  : option (list float * list float) :=
  match closes with
  | [] => None
  | _ =>
      let bb := calculate_bollinger_bands closes 20 2 in
      Some (fillna (fst bb) closes, fillna (snd bb) closes)
  end.

End Bollinger.

(** ** Potential Scorer *)

Definition volatility (bars : list Bar) : float :=
  fdiv (mean (map (fun b => high b - low b) bars)) (mean (map close bars)).

Definition volume_trend (bars : list Bar) : float :=
  let pc := pct_change 5 (map volume bars) in
  if negb (isna_all pc) then mean_skipna pc else Some 0.

Definition price_trend (bars : list Bar) : float :=
  let pc := pct_change 10 (map close bars) in
  if negb (isna_all pc) then fabs (mean_skipna pc) else Some 0.

Definition latest_rsi (bars : list Bar) : Q :=
  let rsi_values := calculate_rsi (map close bars) 14 in
  match rsi_values with
  | [] => 50
  | _ => last rsi_values 50
  end.

(** The four weighted terms of [profit_potential]. *)
Definition volatility_term (bars : list Bar) : Q := nan_to 0.02 (volatility bars) * 1000.
Definition volume_term (bars : list Bar) : Q := nan_to 0 (volume_trend bars) * 500.
Definition price_term (bars : list Bar) : Q := nan_to 0 (price_trend bars) * 1000.
Definition rsi_term (bars : list Bar) : Q := (50 - Qabs (50 - latest_rsi bars)) * 0.5.

Definition profit_potential (bars : list Bar) : Q :=
  volatility_term bars + volume_term bars + price_term bars + rsi_term bars.

(** The body of [analyze_coin_potential] once [df] has been fetched. *)
Definition coin_potential (df : option (list Bar)) : Q :=
  match df with
  | None => 0
  | Some bars =>
      if (length bars <? 50)%nat then 0
      else py_max 0 (py_min 100 (profit_potential bars))
  end.

Definition analyze_coin_potential (get_ohlcv_data : Exchange) (sym : string) : Q :=
  coin_potential (get_ohlcv_data sym).

(** ** Signal Engine *)

Module Frame.

(** The columns of the last row of the frame that the strategy reads.  An
    indicator column holds [None] when the entry is NaN or the key is
    missing.  The [close] column is always there, as in every frame built
    from bars, and holds [None] when the entry is NaN: the strategy reads
    [current['close']] directly, so a row without that key is outside this
    type (the lookup raises and the handler answers HOLD with strength 0). *)
Record Row := {
  close : float;
  MA_10 : float;
  MA_20 : float;
  MA_50 : float;
  RSI_7 : float;
  RSI_14 : float;
  MACD : float;
  MACD_Signal : float;
  Volume_Ratio : float;
  BB_Upper : float;
  BB_Middle : float;
  Stoch_K : float;
  Stoch_D : float;
  Momentum : float;
  Price_Change : float
}.

End Frame.

(** The local function [safe_value(key, default)]; [value] is
    [current.get(key)]. *)
Definition safe_value (value : float) (default : float) : float :=
  match value with
  | None => default
  | Some v => Some v
  end.

(** The local variables of [aggressive_profit_strategy] after the safe
    extraction. *)
Record Values := {
  ma_10 : float;
  ma_20 : float;
  ma_50 : float;
  rsi_7 : float;
  rsi_14 : float;
  macd : float;
  macd_signal : float;
  volume_ratio : float;
  bb_upper : float;
  bb_middle : float;
  stoch_k : float;
  stoch_d : float;
  momentum : float;
  price_change : float;
  current_close : float
}.

Definition extract (current : Frame.Row) : Values := {|
  ma_10 := safe_value (Frame.MA_10 current) (Some 0);
  ma_20 := safe_value (Frame.MA_20 current) (Some 0);
  ma_50 := safe_value (Frame.MA_50 current) (Some 0);
  rsi_7 := safe_value (Frame.RSI_7 current) (Some 50);
  rsi_14 := safe_value (Frame.RSI_14 current) (Some 50);
  macd := safe_value (Frame.MACD current) (Some 0);
  macd_signal := safe_value (Frame.MACD_Signal current) (Some 0);
  volume_ratio := safe_value (Frame.Volume_Ratio current) (Some 1);
  bb_upper := safe_value (Frame.BB_Upper current) (fmul (Frame.close current) (Some 1.1));
  bb_middle := safe_value (Frame.BB_Middle current) (Frame.close current);
  stoch_k := safe_value (Frame.Stoch_K current) (Some 50);
  stoch_d := safe_value (Frame.Stoch_D current) (Some 50);
  momentum := safe_value (Frame.Momentum current) (Some 0);
  price_change := safe_value (Frame.Price_Change current) (Some 0);
  current_close := safe_value (Frame.close current) (Some 0)
|}.

Definition strong_buy_conditions (v : Values) : list bool :=
  [ fgt (ma_10 v) (ma_20 v) && fgt (ma_20 v) (ma_50 v);
    flt (Some 30) (rsi_7 v) && flt (rsi_7 v) (Some 80);
    fgt (macd v) (macd_signal v);
    fgt (volume_ratio v) (Some 1.2);
    fgt (current_close v) (fmul (bb_upper v) (Some 0.98));
    fgt (stoch_k v) (stoch_d v) && flt (stoch_k v) (Some 80);
    fgt (momentum v) (Some 0);
    fgt (price_change v) (Some (- 0.02)) ].

(** [self.position and c p]: an absent position is falsy. *)
Definition position_and (pos : option Position) (c : Position -> bool) : bool :=
  match pos with
  | Some p => c p
  | None => false
  end.

Definition strong_sell_conditions (pos : option Position) (v : Values) : list bool :=
  [ flt (ma_10 v) (ma_20 v);
    fgt (rsi_14 v) (Some 75);
    flt (macd v) (macd_signal v);
    flt (volume_ratio v) (Some 0.8);
    flt (current_close v) (bb_middle v);
    flt (stoch_k v) (stoch_d v);
    flt (momentum v) (Some 0);
    position_and pos (fun p => fge (current_close v) (Some (entry_price p * 1.08))) ].

(** [sum(conditions)] on a list of booleans. *)
Definition count_true (l : list bool) : Z :=
  fold_right (fun (b : bool) n => ((if b then 1 else 0) + n)%Z) 0%Z l.

(** [sub in s] on strings. *)
Fixpoint contains (sub s : string) : bool :=
  if String.prefix sub s then true
  else
    match s with
    | EmptyString => false
    | String _ s' => contains sub s'
    end.

Definition high_vol_coins : list string := ["SOL"; "AVAX"; "ADA"; "DOT"]%string.

Definition buy_score (v : Values) (sym : string) : Z :=
  let buy_score := (count_true (strong_buy_conditions v) * 2)%Z in
  if existsb (fun high_vol_coin => contains high_vol_coin sym) high_vol_coins
  then
    let buy_score := if fgt (volume_ratio v) (Some 1.5) then (buy_score + 2)%Z else buy_score in
    if fgt (fabs (price_change v)) (Some 0.05) then (buy_score + 1)%Z else buy_score
  else buy_score.

Definition sell_score (pos : option Position) (v : Values) : Z :=
  count_true (strong_sell_conditions pos v).

(** [aggressive_profit_strategy(df, symbol)], reading [self.position]. *)
Definition aggressive_profit_strategy
  (pos : option Position) (df : option (list Frame.Row)) (sym : string) : Action * Z :=
  match df with
  | None => (HOLD, 0%Z)
  | Some rows =>
      if (length rows <? 50)%nat then (HOLD, 0%Z)
      else
        match nth_error rows (length rows - 1) with
        | None => (HOLD, 0%Z)
        | Some current =>
            let v := extract current in
            let buy_score := buy_score v sym in
            let sell_score := sell_score pos v in
            if (8 <=? buy_score)%Z then (BUY, buy_score)
            else if (4 <=? sell_score)%Z
                    || position_and pos (fun p => fle (current_close v) (Some (stop_loss p)))
            then (SELL, sell_score)
            else (HOLD, 0%Z)
        end
  end.

(** ** Position Manager *)

(** [self.position['stop_loss'] = s] *)
Definition set_stop_loss (p : Position) (s : Q) : Position := {|
  entry_price := entry_price p;
  size := size p;
  stop_loss := s;
  take_profit := take_profit p;
  type := type p;
  signal_strength := signal_strength p;
  symbol := symbol p
|}.

(** [self.position = pos] *)
Definition set_position (self : Bot) (pos : option Position) : Bot := {|
  initial_balance := initial_balance self;
  balance := balance self;
  risk_per_trade := risk_per_trade self;
  max_drawdown := max_drawdown self;
  position := pos;
  trades := trades self;
  total_trades := total_trades self;
  winning_trades := winning_trades self
|}.

(** What every closing path does before the position is dropped: credit the
    balance, count the trade, count it as a win when it made a profit, and
    append the SELL record. *)
Definition settle (self : Bot) (p : Position) (current_price : Q)
  (reason : option string) (sym : string) : Bot :=
  let profit_loss := (current_price - entry_price p) * size p in
  {|
    initial_balance := initial_balance self;
    balance := balance self + size p * current_price;
    risk_per_trade := risk_per_trade self;
    max_drawdown := max_drawdown self;
    position := position self;
    trades := trades self ++ [ {|
      trade_type := "SELL";
      trade_symbol := sym;
      trade_price := current_price;
      trade_size := size p;
      trade_profit_loss := Some profit_loss;
      trade_reason := reason
    |} ];
    total_trades := (total_trades self + 1)%Z;
    winning_trades :=
      if Qgtb profit_loss 0 then (winning_trades self + 1)%Z else winning_trades self
  |}.

(** [force_close_position(current_price, reason, symbol)].  With no position
    the subscript raises and the handler leaves the state as it was. *)
Definition force_close_position (self : Bot) (current_price : Q)
  (reason : string) (sym : string) : Bot :=
  match position self with
  | None => self
  | Some p =>
      if String.eqb (type p) "BUY"
      then set_position (settle self p current_price (Some reason) sym) None
      else self
  end.

(** The trailing-stop step of [manage_open_position]: after a 3% profit the
    stop moves to a 1% profit, if that is above the stop in place. *)
Definition trailing_stop (p : Position) (current_price : Q) : Position :=
  if Qgeb current_price (entry_price p * 1.03)
  then
    let new_stop_loss := entry_price p * 1.01 in
    if Qgtb new_stop_loss (stop_loss p) then set_stop_loss p new_stop_loss else p
  else p.

(** [manage_open_position(current_price, symbol)] *)
Definition manage_open_position (self : Bot) (current_price : Q) (sym : string) : Bot :=
  match position self with
  | None => self
  | Some p =>
      if String.eqb (type p) "BUY"
      then
        let p := trailing_stop p current_price in
        let self := set_position self (Some p) in
        if Qle_bool current_price (stop_loss p)
        then force_close_position self current_price "Stop Loss" sym
        else if Qgeb current_price (take_profit p)
        then force_close_position self current_price "Take Profit" sym
        else self
      else self
  end.

(** The arithmetic of [calculate_position_size] once the opportunity score
    [profit_potential] is known.  The last division meets a zero
    [current_price] only under a negative cap; between Python numbers it
    raises and the handler returns 0, which is what is written here (numpy's
    doubles give an infinity instead).  What is proved of the capped size
    assumes a non-zero price. *)
Definition position_size_for (balance risk_per_trade : Q)
  (current_price stop_loss_price profit_potential : Q) : Q :=
  let base_risk := balance * risk_per_trade in
  let base_risk :=
    if Qgtb profit_potential 70 then base_risk * 1.5
    else if Qgtb profit_potential 50 then base_risk * 1.2
    else base_risk in
  let price_diff := Qabs (current_price - stop_loss_price) in
  if Qeq_bool price_diff 0 then 0
  else
    let position_size := base_risk / price_diff in
    let max_position_value := balance * py_min 0.15 (0.08 * (profit_potential / 50)) in
    if Qgtb (position_size * current_price) max_position_value
    then
      if Qeq_bool current_price 0 then 0
      else max_position_value / current_price
    else position_size.

Section Manager.

Variable get_ohlcv_data : Exchange.

(** [calculate_position_size(current_price, stop_loss_price, symbol)] *)
Definition calculate_position_size (self : Bot)
  (current_price stop_loss_price : Q) (sym : string) : Q :=
  position_size_for (balance self) (risk_per_trade self) current_price stop_loss_price
    (analyze_coin_potential get_ohlcv_data sym).

(** The BUY branch of [execute_trade]. *)
Definition open_position (self : Bot) (signal_strength : Z)
  (current_price : Q) (sym : string) : Bot :=
  let stop_loss_pct := 0.015 in
  let take_profit_pct :=
    if (10 <=? signal_strength)%Z then 0.08
    else if (8 <=? signal_strength)%Z then 0.06
    else 0.06 in
  let stop_loss_price := current_price * (1 - stop_loss_pct) in
  let take_profit_price := current_price * (1 + take_profit_pct) in
  let position_size := calculate_position_size self current_price stop_loss_price sym in
  if Qgtb position_size 0
  then {|
    initial_balance := initial_balance self;
    balance := balance self - position_size * current_price;
    risk_per_trade := risk_per_trade self;
    max_drawdown := max_drawdown self;
    position := Some {|
      entry_price := current_price;
      size := position_size;
      stop_loss := stop_loss_price;
      take_profit := take_profit_price;
      type := "BUY";
      signal_strength := signal_strength;
      symbol := sym
    |};
    trades := trades self ++ [ {|
      trade_type := "BUY";
      trade_symbol := sym;
      trade_price := current_price;
      trade_size := position_size;
      trade_profit_loss := None;
      trade_reason := None
    |} ];
    total_trades := total_trades self;
    winning_trades := winning_trades self
  |}
  else self.

(** The SELL branch of [execute_trade].  The profit percentage for the log
    line divides by [entry_price * size]; when that is zero the division
    raises after the books are updated and before the position is dropped. *)
Definition close_position (self : Bot) (p : Position)
  (current_price : Q) (sym : string) : Bot :=
  let self := settle self p current_price None sym in
  if Qeq_bool (entry_price p * size p) 0 then self
  else set_position self None.

(** [execute_trade(signal, signal_strength, current_price, symbol)] *)
Definition execute_trade (self : Bot) (signal : Action) (signal_strength : Z)
  (current_price : Q) (sym : string) : Bot :=
  let held_for_symbol := position_and (position self) (fun p => String.eqb (symbol p) sym) in
  if Action_eqb signal BUY && negb (position_and (position self) (fun _ => true))
  then open_position self signal_strength current_price sym
  else if Action_eqb signal SELL && held_for_symbol
  then
    match position self with
    | Some p => close_position self p current_price sym
    | None => self
    end
  else if held_for_symbol
  then manage_open_position self current_price sym
  else self.

End Manager.

(** ** The bot as a state machine *)

(** The calls that change the books. *)
Inductive Call :=
| Execute (signal : Action) (signal_strength : Z) (current_price : Q) (sym : string)
| Manage (current_price : Q) (sym : string)
| ForceClose (current_price : Q) (reason : string) (sym : string).

Definition run_call (get_ohlcv_data : Exchange) (self : Bot) (c : Call) : Bot :=
  match c with
  | Execute signal signal_strength current_price sym =>
      execute_trade get_ohlcv_data self signal signal_strength current_price sym
  | Manage current_price sym => manage_open_position self current_price sym
  | ForceClose current_price reason sym => force_close_position self current_price reason sym
  end.

(** The states a bot goes through: it starts flat and makes calls. *)
Inductive reachable (get_ohlcv_data : Exchange) : Bot -> Prop :=
| reachable_flat (self : Bot) :
    position self = None -> reachable get_ohlcv_data self
| reachable_call (self : Bot) (c : Call) :
    reachable get_ohlcv_data self -> reachable get_ohlcv_data (run_call get_ohlcv_data self c).

(** What holds of a position the bot itself has opened. *)
Definition well_formed (self : Bot) : Prop :=
  forall p, position self = Some p ->
    type p = "BUY"%string /\ 0 < size p /\ ~ entry_price p == 0.

(** What a call does to the books: nothing, or exactly one close of the
    held position. *)
Definition books_unchanged (self self' : Bot) : Prop :=
  total_trades self' = total_trades self /\ winning_trades self' = winning_trades self.

Definition closed_one (self self' : Bot) : Prop :=
  exists p, position self = Some p /\ position self' = None /\
            total_trades self' = (total_trades self + 1)%Z /\
            (winning_trades self' = winning_trades self \/
             winning_trades self' = (winning_trades self + 1)%Z).

(** Successive price checks on the held position. *)
Definition manage_all (self : Bot) (prices : list Q) (sym : string) : Bot :=
  fold_left (fun s current_price => manage_open_position s current_price sym) prices self.

(** ** The balance in binary64

    The arithmetic of the balance once more, over the doubles the program
    computes with: IEEE 754 binary64 with rounding to nearest, which is what
    Python's [float] and numpy's [float64] are.  A decimal literal denotes the
    double nearest to it, as in Python.  The opportunity score is an
    argument, as in [position_size_for] above. *)

Module Binary64.

Local Open Scope float_scope.

(** [a > b] *)
Definition gt (a b : PrimFloat.float) : bool := b <? a.

(** Python's [min(a, b)]: the first argument wins a tie. *)
Definition py_min (a b : PrimFloat.float) : PrimFloat.float := if b <? a then b else a.

Record Position := {
  entry_price : PrimFloat.float;
  size : PrimFloat.float;
  stop_loss : PrimFloat.float;
  take_profit : PrimFloat.float;
  type : string;
  signal_strength : Z;
  symbol : string
}.

Record Trade := {
  trade_type : string;
  trade_symbol : string;
  trade_price : PrimFloat.float;
  trade_size : PrimFloat.float;
  trade_profit_loss : option PrimFloat.float
}.

Record Bot := {
  initial_balance : PrimFloat.float;
  balance : PrimFloat.float;
  risk_per_trade : PrimFloat.float;
  max_drawdown : PrimFloat.float;
  position : option Position;
  trades : list Trade;
  total_trades : Z;
  winning_trades : Z
}.

(** The arithmetic of [calculate_position_size] once the opportunity score
    [profit_potential] is known.  The last division meets a zero
    [current_price] only under a negative cap; it is IEEE division here, as
    for numpy's doubles. *)
Definition position_size_for (balance risk_per_trade : PrimFloat.float)
  (current_price stop_loss_price profit_potential : PrimFloat.float) : PrimFloat.float :=
  let base_risk := balance * risk_per_trade in
  let base_risk :=
    if gt profit_potential 70 then base_risk * 1.5
    else if gt profit_potential 50 then base_risk * 1.2
    else base_risk in
  let price_diff := PrimFloat.abs (current_price - stop_loss_price) in
  if price_diff =? 0 then 0
  else
    let position_size := base_risk / price_diff in
    let max_position_value := balance * py_min 0.15 (0.08 * (profit_potential / 50)) in
    if gt (position_size * current_price) max_position_value
    then max_position_value / current_price
    else position_size.

(** The BUY branch of [execute_trade], taken from the flat state. *)
Definition open_position (self : Bot) (signal_strength : Z)
  (current_price profit_potential : PrimFloat.float) (sym : string) : Bot :=
  let stop_loss_pct := 0.015 in
  let take_profit_pct :=
    if (10 <=? signal_strength)%Z then 0.08
    else if (8 <=? signal_strength)%Z then 0.06
    else 0.06 in
  let stop_loss_price := current_price * (1 - stop_loss_pct) in
  let take_profit_price := current_price * (1 + take_profit_pct) in
  let position_size :=
    position_size_for (balance self) (risk_per_trade self) current_price stop_loss_price
      profit_potential in
  if gt position_size 0
  then {|
    initial_balance := initial_balance self;
    balance := balance self - position_size * current_price;
    risk_per_trade := risk_per_trade self;
    max_drawdown := max_drawdown self;
    position := Some {|
      entry_price := current_price;
      size := position_size;
      stop_loss := stop_loss_price;
      take_profit := take_profit_price;
      type := "BUY";
      signal_strength := signal_strength;
      symbol := sym
    |};
    trades := trades self ++ [ {|
      trade_type := "BUY";
      trade_symbol := sym;
      trade_price := current_price;
      trade_size := position_size;
      trade_profit_loss := None
    |} ];
    total_trades := total_trades self;
    winning_trades := winning_trades self
  |}
  else self.

(** [force_close_position(current_price, reason, symbol)] *)
Definition force_close_position (self : Bot) (current_price : PrimFloat.float)
  (sym : string) : Bot :=
  match position self with
  | None => self
  | Some p =>
      if String.eqb (type p) "BUY"
      then
        let profit_loss := (current_price - entry_price p) * size p in
        {|
          initial_balance := initial_balance self;
          balance := balance self + size p * current_price;
          risk_per_trade := risk_per_trade self;
          max_drawdown := max_drawdown self;
          position := None;
          trades := trades self ++ [ {|
            trade_type := "SELL";
            trade_symbol := sym;
            trade_price := current_price;
            trade_size := size p;
            trade_profit_loss := Some profit_loss
          |} ];
          total_trades := (total_trades self + 1)%Z;
          winning_trades :=
            if gt profit_loss 0 then (winning_trades self + 1)%Z else winning_trades self
        |}
      else self
  end.

(** The state [__init__] leaves. *)
Definition new_bot (initial_balance risk_per_trade max_drawdown : PrimFloat.float) : Bot := {|
  initial_balance := initial_balance;
  balance := initial_balance;
  risk_per_trade := risk_per_trade;
  max_drawdown := max_drawdown;
  position := None;
  trades := [];
  total_trades := 0;
  winning_trades := 0
|}.

End Binary64.

(** ** The rulebook in the words of the specification

    These definitions follow the text of the specification, not the program;
    the theorems below compare the two. *)

Module Spec.

(** The eight BUY criteria, on the safely extracted values. *)
Definition trend_aligned (v : Values) : bool :=
  fgt (ma_10 v) (ma_20 v) && fgt (ma_20 v) (ma_50 v).
Definition rsi_not_extreme (v : Values) : bool :=
  flt (Some 30) (rsi_7 v) && flt (rsi_7 v) (Some 80).
Definition macd_bullish (v : Values) : bool := fgt (macd v) (macd_signal v).
Definition volume_elevated (v : Values) : bool := fgt (volume_ratio v) (Some 1.2).
Definition near_upper_band (v : Values) : bool :=
  fgt (current_close v) (fmul (bb_upper v) (Some 0.98)).
Definition stochastic_rising (v : Values) : bool :=
  fgt (stoch_k v) (stoch_d v) && flt (stoch_k v) (Some 80).
Definition momentum_positive (v : Values) : bool := fgt (momentum v) (Some 0).
Definition no_sharp_decline (v : Values) : bool := fgt (price_change v) (Some (- 0.02)).

Definition buy_criteria : list (Values -> bool) :=
  [ trend_aligned; rsi_not_extreme; macd_bullish; volume_elevated;
    near_upper_band; stochastic_rising; momentum_positive; no_sharp_decline ].

(** The number of criteria of a rulebook that a snapshot satisfies. *)
Definition satisfied (rules : list (Values -> bool)) (v : Values) : Z :=
  Z.of_nat (length (filter (fun rule => rule v) rules)).

(** The bonus of a high-volatility instrument. *)
Definition high_volatility (sym : string) : bool :=
  existsb (fun tag => contains tag sym) ["SOL"; "AVAX"; "ADA"; "DOT"]%string.

Definition bonus (v : Values) (sym : string) : Z :=
  let volume_bonus := if fgt (volume_ratio v) (Some 1.5) then 2%Z else 0%Z in
  let move_bonus := if fgt (fabs (price_change v)) (Some 0.05) then 1%Z else 0%Z in
  if high_volatility sym then (volume_bonus + move_bonus)%Z else 0%Z.

Definition buy_score (v : Values) (sym : string) : Z :=
  (2 * satisfied buy_criteria v + bonus v sym)%Z.

(** The eight SELL criteria; the last one needs an open position. *)
Definition sell_criteria (pos : option Position) : list (Values -> bool) :=
  [ (fun v => flt (ma_10 v) (ma_20 v));
    (fun v => fgt (rsi_14 v) (Some 75));
    (fun v => flt (macd v) (macd_signal v));
    (fun v => flt (volume_ratio v) (Some 0.8));
    (fun v => flt (current_close v) (bb_middle v));
    (fun v => flt (stoch_k v) (stoch_d v));
    (fun v => flt (momentum v) (Some 0));
    (fun v => match pos with
              | Some p => fge (current_close v) (Some (entry_price p * 1.08))
              | None => false
              end) ].

Definition sell_score (pos : option Position) (v : Values) : Z :=
  satisfied (sell_criteria pos) v.




(** Fewer than 50 rows, or no frame at all. *)
Definition too_short {A : Type} (df : option (list A)) : Prop :=
  match df with
  | None => True
  | Some rows => (length rows < 50)%nat
  end.

(** The sizing rule of the specification. *)
Definition scaled_risk (balance risk_per_trade score : Q) : Q :=
  let base_risk := balance * risk_per_trade in
  if Qlt_le_dec 70 score then base_risk * 1.5
  else if Qlt_le_dec 50 score then base_risk * 1.2
  else base_risk.

Definition notional_cap (balance score : Q) : Q :=
  balance * Qmin 0.15 (0.08 * (score / 50)).

(** The volatility ratio in the words of the specification: the mean over
    the rows of each row's range divided by that same row's close. *)
Definition mean_range_over_close (bars : list Bar) : Q :=
  sum (map (fun b => (high b - low b) / close b) bars)
  / inject_Z (Z.of_nat (length bars)).

End Spec.

(** A frame of 50 rows whose latest row is the scenario's. *)
Definition scenario_row : Frame.Row := {|
  Frame.close := Some 99;
  Frame.MA_10 := Some 110;
  Frame.MA_20 := Some 105;
  Frame.MA_50 := Some 100;
  Frame.RSI_7 := Some 50;
  Frame.RSI_14 := Some 50;
  Frame.MACD := Some 1;
  Frame.MACD_Signal := Some 0.5;
  Frame.Volume_Ratio := Some 1.3;
  Frame.BB_Upper := Some 100;
  Frame.BB_Middle := Some 95;
  Frame.Stoch_K := Some 60;
  Frame.Stoch_D := Some 55;
  Frame.Momentum := Some 2;
  Frame.Price_Change := Some (- 0.01)
|}.


(** ** Reporting *)

(** [check_drawdown()].  With a zero [initial_balance] the division raises
    and the handler answers [False].  The quotient is exact here and rounded
    in the program: for a balance next to
    [initial_balance * (1 - max_drawdown)] the rounded quotient can fall on
    either side of [max_drawdown], so nothing is stated about that
    threshold. *)
Definition check_drawdown (self : Bot) : bool :=
  if Qeq_bool (initial_balance self) 0 then false
  else
    let current_drawdown := (initial_balance self - balance self) / initial_balance self in
    Qgeb current_drawdown (max_drawdown self).

(** The [win_rate] written by [save_trade_to_file] and shown by
    [print_stats]. *)
Definition win_rate (self : Bot) : Q :=
  if (0 <? total_trades self)%Z
  then inject_Z (winning_trades self) / inject_Z (total_trades self) * 100
  else 0.

(** The counters of a bot that started from zero. *)
Definition counters_ok (self : Bot) : Prop :=
  (0 <= winning_trades self <= total_trades self)%Z.

(** The price a call is made at. *)
Definition call_price (c : Call) : Q :=
  match c with
  | Execute _ _ current_price _ => current_price
  | Manage current_price _ => current_price
  | ForceClose current_price _ _ => current_price
  end.

(** A latest row in which no indicator column is defined. *)
Definition no_indicators (current : Frame.Row) : Prop :=
  Frame.MA_10 current = None /\ Frame.MA_20 current = None /\
  Frame.MA_50 current = None /\ Frame.RSI_7 current = None /\
  Frame.RSI_14 current = None /\ Frame.MACD current = None /\
  Frame.MACD_Signal current = None /\ Frame.Volume_Ratio current = None /\
  Frame.BB_Upper current = None /\ Frame.BB_Middle current = None /\
  Frame.Stoch_K current = None /\ Frame.Stoch_D current = None /\
  Frame.Momentum current = None /\ Frame.Price_Change current = None.

(** ** Indicator Engine: the remaining indicators *)

(** [Series.min()] and [Series.max()] of a window without NaN. *)
Definition min_of (l : list Q) : float :=
  match l with
  | [] => None
  | x :: r => Some (fold_left Qmin r x)
  end.

Definition max_of (l : list Q) : float :=
  match l with
  | [] => None
  | x :: r => Some (fold_left Qmax r x)
  end.

(** [Series.rolling(w)] on a series that may hold NaN: a window with a NaN
    entry gives NaN. *)
Definition rolling_nan (w : nat) (f : list Q -> float) (l : list float) : list float :=
  map (fun i =>
         if (i + 1 <? w)%nat then None
         else
           let entries := firstn w (skipn (i + 1 - w) l) in
           if existsb isna entries then None else f (dropna entries))
      (seq 0 (length l)).

(** [a - a.shift(k)] *)
Definition shift_diff (k : nat) (l : list Q) : list float :=
  map (fun i =>
         if (i <? k)%nat then None
         else fsub (nth_error l i) (nth_error l (i - k)))
      (seq 0 (length l)).

(** Element-wise operation on two series. *)
Definition zip_with {A B C : Type} (f : A -> B -> C) (l : list A) (l' : list B) : list C :=
  map (fun ab => f (fst ab) (snd ab)) (combine l l').

(** [Series.ewm(span).mean()] with pandas' default [adjust=True]: at row [t]
    the average of [x[t], x[t-1], ..., x[0]] with the weights
    [1, (1 - alpha), (1 - alpha)^2, ...], where [alpha = 2 / (span + 1)]. *)
Fixpoint ewm_weighted_sum (decay : Q) (newest_first : list Q) : Q :=
  match newest_first with
  | [] => 0
  | x :: older => x + decay * ewm_weighted_sum decay older
  end.

Fixpoint ewm_weight_sum (decay : Q) (n : nat) : Q :=
  match n with
  | O => 0
  | S m => 1 + decay * ewm_weight_sum decay m
  end.

Definition ewm_mean (span : nat) (l : list Q) : list Q :=
  let decay := 1 - 2 / (inject_Z (Z.of_nat span) + 1) in
  map (fun t =>
         let newest_first := rev (firstn (t + 1) l) in
         ewm_weighted_sum decay newest_first
         / ewm_weight_sum decay (length newest_first))
      (seq 0 (length l)).

(** [calculate_macd(prices, fast, slow, signal)].  pandas refuses a span
    below 1 and the handler returns the zero series. *)
Definition calculate_macd (prices : list Q) (fast slow signal : nat) : list Q * list Q :=
  if (length prices <? slow)%nat
  then (repeat 0 (length prices), repeat 0 (length prices))
  else if (fast <? 1)%nat || (slow <? 1)%nat || (signal <? 1)%nat
  then (repeat 0 (length prices), repeat 0 (length prices))
  else
    let ema_fast := ewm_mean fast prices in
    let ema_slow := ewm_mean slow prices in
    let macd := zip_with Qminus ema_fast ema_slow in
    let macd_signal := ewm_mean signal macd in
    (macd, macd_signal).

(** [calculate_stochastic(df, period)] *)
Definition calculate_stochastic (df : list Bar) (period : nat) : list Q * list Q :=
  if (length df <? period)%nat
  then (repeat 50 (length df), repeat 50 (length df))
  else
    let low_14 := rolling period min_of (map low df) in
    let high_14 := rolling period max_of (map high df) in
    let position_in_range :=
      zip_with (fun c lh => fdiv (fsub (Some c) (fst lh)) (fsub (snd lh) (fst lh)))
               (map close df) (combine low_14 high_14) in
    let stoch_k := map (fmul (Some 100)) position_in_range in
    let stoch_d := rolling_nan 3 mean stoch_k in
    (fillna_const 50 stoch_k, fillna_const 50 stoch_d).

(** The frame that [calculate_indicators] returns, column by column. *)
Record DataFrame := {
  bars : list Bar;
  col_MA_10 : list float;
  col_MA_20 : list float;
  col_MA_50 : list float;
  col_MA_100 : list float;
  col_RSI_14 : list float;
  col_RSI_7 : list float;
  col_MACD : list float;
  col_MACD_Signal : list float;
  col_BB_Upper : list float;
  col_BB_Lower : list float;
  col_BB_Middle : list float;
  col_Stoch_K : list float;
  col_Stoch_D : list float;
  col_Volume_MA : list float;
  col_Volume_Ratio : list float;
  col_Momentum : list float;
  col_Price_Change : list float
}.

(** A column that was computed without NaN. *)
Definition clean (l : list Q) : list float := map Some l.

(** [df[col].fillna(d)] *)
Definition fill (d : Q) (l : list float) : list float := map Some (fillna_const d l).

Section Indicators.

Variable sqrt : Q -> Q.

(** [calculate_indicators(df)] on a frame that was fetched.  An empty frame
    comes back as it is, with no indicator column. *)
Definition calculate_indicators (df : list Bar) : DataFrame :=
  match df with
  | [] =>
      {| bars := []; col_MA_10 := []; col_MA_20 := []; col_MA_50 := [];
         col_MA_100 := []; col_RSI_14 := []; col_RSI_7 := []; col_MACD := [];
         col_MACD_Signal := []; col_BB_Upper := []; col_BB_Lower := [];
         col_BB_Middle := []; col_Stoch_K := []; col_Stoch_D := [];
         col_Volume_MA := []; col_Volume_Ratio := []; col_Momentum := [];
         col_Price_Change := [] |}
  | _ =>
      let closes := map close df in
      let volumes := map volume df in
      let macd := calculate_macd closes 12 26 9 in
      let bb := calculate_bollinger_bands sqrt closes 20 2 in
      let stoch := calculate_stochastic df 14 in
      let Volume_MA := rolling_mean 20 volumes in
      let Volume_Ratio := zip_with (fun v m => fdiv (Some v) m) volumes Volume_MA in
      {| bars := df;
         col_MA_10 := fillna (rolling_mean 10 closes) closes;
         col_MA_20 := fillna (rolling_mean 20 closes) closes;
         col_MA_50 := fillna (rolling_mean 50 closes) closes;
         col_MA_100 := fillna (rolling_mean 100 closes) closes;
         col_RSI_14 := fill 50 (clean (calculate_rsi closes 14));
         col_RSI_7 := fill 50 (clean (calculate_rsi closes 7));
         col_MACD := fill 0 (clean (fst macd));
         col_MACD_Signal := fill 0 (clean (snd macd));
         col_BB_Upper := fillna (fst bb) closes;
         col_BB_Lower := fillna (snd bb) closes;
         col_BB_Middle := fillna (rolling_mean 20 closes) closes;
         col_Stoch_K := fill 50 (clean (fst stoch));
         col_Stoch_D := fill 50 (clean (snd stoch));
         col_Volume_MA := fillna Volume_MA closes;
         col_Volume_Ratio := fill 1 Volume_Ratio;
         col_Momentum := fill 0 (shift_diff 5 closes);
         col_Price_Change := fill 0 (pct_change 5 closes) |}
  end.

End Indicators.

(** The entry of a column at a row; NaN when the column has no such row. *)
Definition entry (l : list float) (i : nat) : float :=
  match nth_error l i with
  | Some x => x
  | None => None
  end.

(** [df.iloc[i]], as far as the strategy reads it. *)
Definition iloc (df : DataFrame) (i : nat) : Frame.Row := {|
  Frame.close := option_map close (nth_error (bars df) i);
  Frame.MA_10 := entry (col_MA_10 df) i;
  Frame.MA_20 := entry (col_MA_20 df) i;
  Frame.MA_50 := entry (col_MA_50 df) i;
  Frame.RSI_7 := entry (col_RSI_7 df) i;
  Frame.RSI_14 := entry (col_RSI_14 df) i;
  Frame.MACD := entry (col_MACD df) i;
  Frame.MACD_Signal := entry (col_MACD_Signal df) i;
  Frame.Volume_Ratio := entry (col_Volume_Ratio df) i;
  Frame.BB_Upper := entry (col_BB_Upper df) i;
  Frame.BB_Middle := entry (col_BB_Middle df) i;
  Frame.Stoch_K := entry (col_Stoch_K df) i;
  Frame.Stoch_D := entry (col_Stoch_D df) i;
  Frame.Momentum := entry (col_Momentum df) i;
  Frame.Price_Change := entry (col_Price_Change df) i
|}.

(** The rows of a frame, for [aggressive_profit_strategy]. *)
Definition rows_of (df : DataFrame) : list Frame.Row :=
  map (iloc df) (seq 0 (length (bars df))).

(** All the indicator columns of a frame. *)
Definition indicator_columns (df : DataFrame) : list (list float) :=
  [ col_MA_10 df; col_MA_20 df; col_MA_50 df; col_MA_100 df; col_RSI_14 df;
    col_RSI_7 df; col_MACD df; col_MACD_Signal df; col_BB_Upper df; col_BB_Lower df;
    col_BB_Middle df; col_Stoch_K df; col_Stoch_D df; col_Volume_MA df;
    col_Volume_Ratio df; col_Momentum df; col_Price_Change df ].

(** A bar whose low, close and high are in order. *)
Definition bar_in_order (b : Bar) : Prop := low b <= close b /\ close b <= high b.

(** The moving average of the specification at row [i]: the mean of the
    last [k] values, and the fallback value [c] before [k] rows exist. *)
Definition trailing_mean (k : nat) (values : list Q) (i : nat) (c : Q) : Q :=
  if (i + 1 <? k)%nat then c
  else sum (window k i values) / inject_Z (Z.of_nat k).

(** ** Ranking the coins *)

(** The exchange, as seen through [get_current_price(symbol)]: [None] when
    the request fails or the ticker has no last price. *)
Definition Ticker := string -> option Q.

(** An entry of [coin_scores]. *)
Record CoinScore := {
  coin_symbol : string;
  coin_profit_potential : Q;
  coin_price : Q
}.

(** [list.sort(key=..., reverse=True)]: descending by key, entries with equal
    keys in their original order. *)
Fixpoint insert_descending {A : Type} (key : A -> Q) (x : A) (l : list A) : list A :=
  match l with
  | [] => [x]
  | y :: r =>
      if Qltb (key x) (key y) then y :: insert_descending key x r
      else x :: y :: r
  end.

Definition sort_descending {A : Type} (key : A -> Q) (l : list A) : list A :=
  fold_right (insert_descending key) [] l.

(** [self.high_profit_coins], also [self.active_symbols]. *)
Definition high_profit_coins : list string :=
  [ "BTC/USDT"; "ETH/USDT"; "BNB/USDT"; "ADA/USDT"; "DOT/USDT"; "SOL/USDT";
    "AVAX/USDT"; "LINK/USDT"; "ATOM/USDT"; "XRP/USDT"; "DOGE/USDT"; "SHIB/USDT";
    "NEAR/USDT"; "ALGO/USDT" ]%string.

(** The order of a list sorted by descending key. *)
Definition descending {A : Type} (key : A -> Q) (x y : A) : Prop := key y <= key x.

Section Ranking.

Variable get_ohlcv_data : Exchange.
Variable get_current_price : Ticker.

(** The loop of [get_best_coins_for_trading] over the active symbols. *)
Fixpoint coin_scores (active_symbols : list string) : list CoinScore :=
  match active_symbols with
  | [] => []
  | sym :: rest =>
      let profit_potential := analyze_coin_potential get_ohlcv_data sym in
      match get_current_price sym with
      | Some current_price =>
          if negb (Qeq_bool current_price 0) && Qgtb profit_potential 20
          then {| coin_symbol := sym;
                  coin_profit_potential := profit_potential;
                  coin_price := current_price |} :: coin_scores rest
          else coin_scores rest
      | None => coin_scores rest
      end
  end.

(** [get_best_coins_for_trading(top_n)] *)
Definition get_best_coins_for_trading (active_symbols : list string) (top_n : nat)
  : list CoinScore :=
  firstn top_n (sort_descending coin_profit_potential (coin_scores active_symbols)).

End Ranking.

(** ** One cycle of [run]

    What the exchange answers can change between two requests.  Each place
    of the loop that asks the exchange has its own function here; a place asks
    once per symbol in a cycle, the symbols of a ranking being distinct. *)
Record Market := {
  ranking_data : Exchange;    (* get_ohlcv_data inside analyze_coin_potential, ranking *)
  ranking_price : Ticker;     (* get_current_price inside get_best_coins_for_trading *)
  trading_price : Ticker;     (* get_current_price in the loop over the best coins *)
  trading_data : Exchange;    (* get_ohlcv_data in the loop over the best coins *)
  sizing_data : Exchange      (* get_ohlcv_data inside calculate_position_size *)
}.

Section Cycle.

Variable sqrt : Q -> Q.
Variable market : Market.

(** The body of [for coin_data in best_coins] for one symbol. *)
Definition trade_coin (self : Bot) (sym : string) : Bot :=
  if position_and (position self) (fun p => String.eqb (symbol p) sym)
  then
    match trading_price market sym with
    | Some current_price =>
        if negb (Qeq_bool current_price 0)
        then manage_open_position self current_price sym
        else self
    | None => self
    end
  else
    match position self with
    | Some _ => self
    | None =>
        match trading_price market sym with
        | None => self
        | Some current_price =>
            match trading_data market sym with
            | None => self
            | Some df =>
                let df := calculate_indicators sqrt df in
                let signal_and_strength :=
                  aggressive_profit_strategy (position self) (Some (rows_of df)) sym in
                match fst signal_and_strength with
                | HOLD => self
                | signal =>
                    execute_trade (sizing_data market) self signal
                      (snd signal_and_strength) current_price sym
                end
            end
        end
    end.

Definition trade_coins (self : Bot) (best_coins : list CoinScore) : Bot :=
  fold_left (fun s coin_data => trade_coin s (coin_symbol coin_data)) best_coins self.

(** How one pass of the [while] loop ends. *)
Inductive Outcome :=
| Stopped                 (* check_drawdown: break *)
| NoCoins                 (* no suitable coin: sleep and continue *)
| Traded (self : Bot).    (* the loop over the best coins was run *)

Definition cycle (self : Bot) (active_symbols : list string) : Outcome :=
  if check_drawdown self then Stopped
  else
    match get_best_coins_for_trading (ranking_data market) (ranking_price market)
            active_symbols 3 with
    | [] => NoCoins
    | best_coins => Traded (trade_coins self best_coins)
    end.

End Cycle.

(** The [gain] and [loss] series of [calculate_rsi]. *)
Definition gains (prices : list Q) : list Q :=
  map (fun d => if fgt d (Some 0) then nan_to 0 d else 0) (diff prices).

Definition losses (prices : list Q) : list Q :=
  map (fun d => - (if flt d (Some 0) then nan_to 0 d else 0)) (diff prices).

(** No price of the window that ends at row [i] is below the one before. *)
Definition never_falls (prices : list Q) (period i : nat) : Prop :=
  forall j a b,
    (i + 1 - period <= j <= i)%nat -> (1 <= j)%nat ->
    nth_error prices (j - 1) = Some a -> nth_error prices j = Some b -> a <= b.

(** Two series that hold equal numbers row by row. *)
Definition same_values (l l' : list Q) : Prop := Forall2 Qeq l l'.

(** A price series moved up by [c]. *)
Definition raised (c : Q) (prices : list Q) : list Q := map (fun x => x + c) prices.

(** ** Reporting: the best performing coins *)

(** A value of the dictionary [coin_performance]. *)
Record Performance := {
  total_profit : Q;
  trade_count : Z
}.

(** [coin_performance], a dictionary in insertion order. *)
Definition PerformanceDict := list (string * Performance).

(** One pass of the loop of [get_best_performing_coins]: create the entry of
    [sym] if it is missing, then add the profit and count the trade. *)
Fixpoint record_trade (sym : string) (profit : Q) (d : PerformanceDict) : PerformanceDict :=
  match d with
  | [] => [(sym, {| total_profit := 0 + profit; trade_count := 0 + 1 |})]
  | (coin, data) :: rest =>
      if String.eqb coin sym
      then (coin, {| total_profit := total_profit data + profit;
                     trade_count := trade_count data + 1 |}) :: rest
      else (coin, data) :: record_trade sym profit rest
  end.

(** [trade.get('profit_loss', 0)] *)
Definition profit_of_trade (t : Trade) : Q :=
  match trade_profit_loss t with
  | Some p => p
  | None => 0
  end.

(** [self.trades[-50:]] *)
Definition last_trades (n : nat) (l : list Trade) : list Trade :=
  skipn (length l - n) l.

Definition coin_performance (l : list Trade) : PerformanceDict :=
  fold_left (fun d t => record_trade (trade_symbol t) (profit_of_trade t) d) l [].

(** [get_best_performing_coins()] *)
Definition get_best_performing_coins (self : Bot) : PerformanceDict :=
  let coin_performance := coin_performance (last_trades 50 (trades self)) in
  let sorted_coins :=
    sort_descending (fun item => total_profit (snd item)) coin_performance in
  firstn 5 sorted_coins.

(** The trades of one coin in a log. *)
Definition trades_of (sym : string) (l : list Trade) : list Trade :=
  filter (fun t => String.eqb (trade_symbol t) sym) l.
(** What the dictionary holds after the trades [l]. *)
Definition tallies (l : list Trade) (d : PerformanceDict) : Prop :=
  NoDup (map fst d) /\
  forall coin data,
    In (coin, data) d ->
    total_profit data == sum (map profit_of_trade (trades_of coin l)) /\
    trade_count data = Z.of_nat (length (trades_of coin l)) /\
    trades_of coin l <> [].

(** ** The books and the trade log *)

Definition is_open (t : Trade) : bool := String.eqb (trade_type t) "BUY".

Definition is_close (t : Trade) : bool := String.eqb (trade_type t) "SELL".

Definition is_win (t : Trade) : bool := Qgtb (profit_of_trade t) 0.

Definition count_of (f : Trade -> bool) (l : list Trade) : Z :=
  Z.of_nat (length (filter f l)).

(** The counters and the position agree with the trade log: every SELL
    record is a counted trade, every record with a positive profit a counted
    win, and a position is held exactly when the log has one BUY record more
    than SELL records. *)
Definition ledger (self : Bot) : Prop :=
  total_trades self = count_of is_close (trades self) /\
  winning_trades self = count_of is_win (trades self) /\
  count_of is_open (trades self)
  = (count_of is_close (trades self)
     + match position self with Some _ => 1 | None => 0 end)%Z.

(** A run of calls, one after the other. *)
Definition run_calls (get_ohlcv_data : Exchange) (self : Bot) (calls : list Call) : Bot :=
  fold_left (run_call get_ohlcv_data) calls self.

(** ** Sample data *)

Definition bar (t : Z) (o h l c v : Q) : Bar :=
  {| timestamp := t; open := o; high := h; low := l; close := c; volume := v |}.

(** Fifty equal bars with a range of 8 around 100. *)
Definition flat_bars : list Bar :=
  map (fun t => bar (Z.of_nat t) 100 104 96 100 1) (seq 0 50).

(** Forty-nine bars around 10 and a last one around 40. *)
Definition jump_bars : list Bar :=
  map (fun t => bar (Z.of_nat t) 10 11 9 10 1) (seq 0 49) ++ [bar 49 39 42 38 40 1].

Definition flat_exchange : Exchange := fun _ => Some flat_bars.
Definition no_exchange : Exchange := fun _ => None.

Definition new_bot (initial_balance risk_per_trade max_drawdown : Q) : Bot := {|
  initial_balance := initial_balance;
  balance := initial_balance;
  risk_per_trade := risk_per_trade;
  max_drawdown := max_drawdown;
  position := None;
  trades := [];
  total_trades := 0;
  winning_trades := 0
|}.

(** A bot that holds one BTC/USDT unit bought at 100. *)
Definition btc_position : Position := {|
  entry_price := 100;
  size := 1;
  stop_loss := 98.5;
  take_profit := 106;
  type := "BUY";
  signal_strength := 8;
  symbol := "BTC/USDT"
|}.

Definition holding_bot : Bot := set_position (new_bot 900 0.025 0.12) (Some btc_position).

(** A bot with 1000 that has just bought on a BUY signal of strength 16 at
    a price of 100. *)
Definition opened_bot : Bot :=
  execute_trade flat_exchange (new_bot 1000 0.025 0.12) BUY 16 100 "BTC/USDT".

(** The same purchase in binary64, from a balance of 987.65 at a price of 12
    on a score of 80, and the state after closing it at once at 12. *)
Definition round_trip_opened : Binary64.Bot :=
  Binary64.open_position (Binary64.new_bot 987.65 0.025 0.12) 16 12 80 "BTC/USDT".

Definition round_trip_closed : Binary64.Bot :=
  Binary64.force_close_position round_trip_opened 12 "BTC/USDT".

(** A row in which only the close is defined, and a frame of 50 of them. *)
Definition bare_row : Frame.Row := {|
  Frame.close := Some 100;
  Frame.MA_10 := None; Frame.MA_20 := None; Frame.MA_50 := None;
  Frame.RSI_7 := None; Frame.RSI_14 := None;
  Frame.MACD := None; Frame.MACD_Signal := None;
  Frame.Volume_Ratio := None;
  Frame.BB_Upper := None; Frame.BB_Middle := None;
  Frame.Stoch_K := None; Frame.Stoch_D := None;
  Frame.Momentum := None; Frame.Price_Change := None
|}.

Definition bare_frame : list Frame.Row := repeat bare_row 50.

(** An exchange on which every coin trades at 100 with the flat bars. *)
Definition flat_ticker : Ticker := fun _ => Some 100.

Definition flat_market : Market := {|
  ranking_data := flat_exchange;
  ranking_price := flat_ticker;
  trading_price := flat_ticker;
  trading_data := flat_exchange;
  sizing_data := flat_exchange
|}.

(** On the flat bars every variance is zero, and so is its square root. *)
Definition sqrt_of_zero : Q -> Q := fun _ => 0.

Definition eth_score : CoinScore :=
  {| coin_symbol := "ETH/USDT"; coin_profit_potential := 80; coin_price := 100 |}.

Definition btc_score : CoinScore :=
  {| coin_symbol := "BTC/USDT"; coin_profit_potential := 80; coin_price := 100 |}.

(* ================================================================= *)
(** * Properties *)

(** ** Comparisons *)

Lemma Qleb_spec (a b : Q) : reflect (a <= b) (Qle_bool a b).
Proof.
  destruct (Qle_bool a b) eqn:E; constructor.
  - now apply Qle_bool_iff.
  - intros H. apply Qle_bool_iff in H. congruence.
Qed.

Lemma Qltb_spec (a b : Q) : reflect (a < b) (Qltb a b).
Proof.
  unfold Qltb. destruct (Qleb_spec b a) as [H|H]; constructor.
  - now apply Qle_not_lt.
  - now apply Qnot_le_lt.
Qed.

Lemma Qgtb_spec (a b : Q) : reflect (b < a) (Qgtb a b).
Proof. apply Qltb_spec. Qed.

Lemma Qgeb_spec (a b : Q) : reflect (b <= a) (Qgeb a b).
Proof. apply Qleb_spec. Qed.

Lemma Qeqb_spec (a b : Q) : reflect (a == b) (Qeq_bool a b).
Proof.
  destruct (Qeq_bool a b) eqn:E; constructor.
  - now apply Qeq_bool_iff.
  - intros H. apply Qeq_bool_iff in H. congruence.
Qed.

(** ** Signal Engine *)










(** C2.  With fewer than 50 rows, or with no frame at all, the strategy
    returns HOLD with strength 0 and the scorer returns 0. *)
Theorem short_input_is_neutral
  (pos : option Position) (frame : option (list Frame.Row))
  (get_ohlcv_data : Exchange) (sym : string) :
  (Spec.too_short frame ->
     aggressive_profit_strategy pos frame sym = (HOLD, 0%Z)) /\
  (forall df : option (list Bar), Spec.too_short df -> coin_potential df = 0) /\
  (Spec.too_short (get_ohlcv_data sym) ->
     analyze_coin_potential get_ohlcv_data sym = 0).
Proof.
  assert (Hscore : forall df : option (list Bar),
             Spec.too_short df -> coin_potential df = 0).
  { intros [bars|] H; [|reflexivity]. cbn in H. unfold coin_potential.
    destruct (Nat.ltb_spec (length bars) 50); [reflexivity|lia]. }
  split; [|split].
  - destruct frame as [rows|]; intros H; [|reflexivity]. cbn in H.
    unfold aggressive_profit_strategy.
    destruct (Nat.ltb_spec (length rows) 50); [reflexivity|lia].
  - exact Hscore.
  - intros H. unfold analyze_coin_potential. now apply Hscore.
Qed.

Lemma short_input_is_neutral_witness :
  aggressive_profit_strategy None (Some (repeat scenario_row 49)) "BTC/USDT" = (HOLD, 0%Z) /\
  coin_potential (Some []) = 0 /\
  analyze_coin_potential (fun _ => None) "BTC/USDT" = 0.
Proof.
  destruct (short_input_is_neutral None (Some (repeat scenario_row 49))
              (fun _ => None) "BTC/USDT") as (Hsignal & Hscore & Hfetch).
  split; [|split].
  - apply Hsignal. apply Nat.ltb_lt. vm_compute. reflexivity.
  - apply Hscore. apply Nat.ltb_lt. vm_compute. reflexivity.
  - apply Hfetch. exact I.
Defined.

(** ** Position Manager: what one call does *)

Lemma set_position_same (self : Bot) : set_position self (position self) = self.
Proof. now destruct self. Qed.

Lemma force_close_position_closes (self : Bot) (current_price : Q)
  (reason sym : string) (p : Position) :
  position self = Some p -> type p = "BUY"%string ->
  force_close_position self current_price reason sym
  = set_position (settle self p current_price (Some reason) sym) None.
Proof.
  intros Hp Ht. unfold force_close_position. rewrite Hp, Ht. reflexivity.
Qed.

Lemma force_close_position_other (self : Bot) (current_price : Q)
  (reason sym : string) (p : Position) :
  position self = Some p -> type p <> "BUY"%string ->
  force_close_position self current_price reason sym = self.
Proof.
  intros Hp Ht. unfold force_close_position. rewrite Hp.
  destruct (String.eqb_spec (type p) "BUY"); [contradiction|reflexivity].
Qed.

Lemma trailing_stop_frame (p : Position) (current_price : Q) :
  entry_price (trailing_stop p current_price) = entry_price p /\
  size (trailing_stop p current_price) = size p /\
  take_profit (trailing_stop p current_price) = take_profit p /\
  type (trailing_stop p current_price) = type p /\
  signal_strength (trailing_stop p current_price) = signal_strength p /\
  symbol (trailing_stop p current_price) = symbol p.
Proof.
  unfold trailing_stop. destruct (Qgeb _ _); [cbv zeta; destruct (Qgtb _ _)|]; repeat split.
Qed.

Lemma trailing_stop_stop_loss (p : Position) (current_price : Q) :
  stop_loss p <= stop_loss (trailing_stop p current_price) /\
  (entry_price p * 1.03 <= current_price ->
     stop_loss (trailing_stop p current_price)
     == Qmax (stop_loss p) (entry_price p * 1.01)) /\
  (current_price < entry_price p * 1.03 -> trailing_stop p current_price = p).
Proof.
  unfold trailing_stop.
  destruct (Qgeb_spec current_price (entry_price p * 1.03)) as [Hge|Hlt].
  - assert (Hno : current_price < entry_price p * 1.03 -> False).
    { intros H. apply (Qlt_irrefl current_price). eapply Qlt_le_trans; eassumption. }
    cbv zeta.
    destruct (Qgtb_spec (entry_price p * 1.01) (stop_loss p)) as [Hup|Hdown];
      cbn [stop_loss set_stop_loss]; (split; [|split]).
    + now apply Qlt_le_weak.
    + intros _. symmetry. apply Q.max_r. now apply Qlt_le_weak.
    + intros H. destruct (Hno H).
    + apply Qle_refl.
    + intros _. symmetry. apply Q.max_l. now apply Qnot_lt_le.
    + intros H. destruct (Hno H).
  - split; [|split].
    + apply Qle_refl.
    + intros H. contradiction.
    + reflexivity.
Qed.

Lemma manage_open_position_buy (self : Bot) (current_price : Q) (sym : string)
  (p : Position) :
  position self = Some p -> type p = "BUY"%string ->
  manage_open_position self current_price sym
  = let q := trailing_stop p current_price in
    let held := set_position self (Some q) in
    if Qle_bool current_price (stop_loss q)
    then set_position (settle held q current_price (Some "Stop Loss"%string) sym) None
    else if Qgeb current_price (take_profit q)
    then set_position (settle held q current_price (Some "Take Profit"%string) sym) None
    else held.
Proof.
  intros Hp Ht. unfold manage_open_position. rewrite Hp, Ht.
  cbn [String.eqb Ascii.eqb Bool.eqb]. cbv zeta.
  assert (Hq : type (trailing_stop p current_price) = "BUY"%string).
  { now rewrite (proj1 (proj2 (proj2 (proj2 (trailing_stop_frame p current_price))))). }
  destruct (Qle_bool _ _); [|destruct (Qgeb _ _)]; try reflexivity.
  - now apply force_close_position_closes.
  - now apply force_close_position_closes.
Qed.

Lemma manage_open_position_other (self : Bot) (current_price : Q) (sym : string)
  (p : Position) :
  position self = Some p -> type p <> "BUY"%string ->
  manage_open_position self current_price sym = self.
Proof.
  intros Hp Ht. unfold manage_open_position. rewrite Hp.
  destruct (String.eqb_spec (type p) "BUY"); [contradiction|reflexivity].
Qed.

Lemma manage_open_position_flat (self : Bot) (current_price : Q) (sym : string) :
  position self = None -> manage_open_position self current_price sym = self.
Proof. intros Hp. unfold manage_open_position. now rewrite Hp. Qed.

(** When the position survives a call it is the held one after the
    trailing-stop step, and the books are untouched. *)
Lemma manage_open_position_held (self : Bot) (current_price : Q) (sym : string)
  (p p' : Position) :
  position self = Some p ->
  position (manage_open_position self current_price sym) = Some p' ->
  (p' = p \/ (type p = "BUY"%string /\ p' = trailing_stop p current_price)) /\
  manage_open_position self current_price sym = set_position self (Some p').
Proof.
  intros Hp Hp'.
  destruct (String.eqb_spec (type p) "BUY") as [Ht|Ht].
  - rewrite (manage_open_position_buy self current_price sym p Hp Ht) in *.
    cbv zeta in *.
    destruct (Qle_bool _ _); [discriminate Hp'|].
    destruct (Qgeb _ _); [discriminate Hp'|].
    cbn in Hp'. injection Hp' as <-.
    split; [right; split; [exact Ht|reflexivity]|reflexivity].
  - rewrite (manage_open_position_other self current_price sym p Hp Ht) in *.
    assert (p' = p) by congruence. subst p'. split; [now left|].
    rewrite <- Hp. symmetry. apply set_position_same.
Qed.

(** One call never lowers the stop of a position that stays open. *)
Lemma manage_open_position_stop_loss (self : Bot) (current_price : Q) (sym : string)
  (p p' : Position) :
  position self = Some p ->
  position (manage_open_position self current_price sym) = Some p' ->
  stop_loss p <= stop_loss p' /\ entry_price p' = entry_price p.
Proof.
  intros Hp Hp'.
  destruct (manage_open_position_held self current_price sym p p' Hp Hp')
    as [[->|[_ ->]] _].
  - split; [apply Qle_refl|reflexivity].
  - split; [apply trailing_stop_stop_loss|apply trailing_stop_frame].
Qed.

Lemma manage_all_flat (prices : list Q) (self : Bot) (sym : string) :
  position self = None -> manage_all self prices sym = self.
Proof.
  revert self. induction prices as [|x prices IH]; intros self Hp; [reflexivity|].
  unfold manage_all in *. cbn [fold_left].
  rewrite (manage_open_position_flat self x sym Hp). now apply IH.
Qed.

(** Over any run of price checks the stop of a position that is still open
    at the end is at least what it was at the start. *)
Lemma manage_all_stop_loss (prices : list Q) (self : Bot) (sym : string)
  (p p' : Position) :
  position self = Some p ->
  position (manage_all self prices sym) = Some p' ->
  stop_loss p <= stop_loss p' /\ entry_price p' = entry_price p.
Proof.
  revert self p. induction prices as [|x prices IH]; intros self p Hp Hend.
  - cbn in Hend. assert (p' = p) by congruence. subst p'.
    split; [apply Qle_refl|reflexivity].
  - unfold manage_all in Hend. cbn [fold_left] in Hend.
    fold (manage_all (manage_open_position self x sym) prices sym) in Hend.
    destruct (position (manage_open_position self x sym)) as [q|] eqn:Hq.
    + destruct (manage_open_position_stop_loss self x sym p q Hp Hq) as [Hle He].
      destruct (IH _ q Hq Hend) as [Hle' He'].
      split; [eapply Qle_trans; eassumption|congruence].
    + rewrite (manage_all_flat prices _ sym Hq) in Hend. congruence.
Qed.

(** C4.  A call of [manage_open_position] that leaves the position open
    never lowers its stop_loss: once the price is at least
    [entry_price * 1.03] the stop of a BUY position (the only type the bot
    opens) becomes [max(stop_loss, entry_price * 1.01)], below that price it
    is unchanged, and the other fields of the position stay as they were. *)
Theorem trailing_stop_is_a_ratchet (self : Bot) (current_price : Q) (sym : string)
  (p p' : Position) :
  position self = Some p ->
  position (manage_open_position self current_price sym) = Some p' ->
  stop_loss p <= stop_loss p' /\
  (type p = "BUY"%string -> entry_price p * 1.03 <= current_price ->
     stop_loss p' == Qmax (stop_loss p) (entry_price p * 1.01)) /\
  (current_price < entry_price p * 1.03 -> stop_loss p' = stop_loss p) /\
  entry_price p' = entry_price p /\ size p' = size p /\
  take_profit p' = take_profit p /\ symbol p' = symbol p.
Proof.
  intros Hp Hp'.
  destruct (String.eqb_spec (type p) "BUY") as [Ht|Ht].
  - assert (Hq : p' = trailing_stop p current_price).
    { rewrite (manage_open_position_buy self current_price sym p Hp Ht) in Hp'.
      cbv zeta in Hp'.
      destruct (Qle_bool _ _); [discriminate Hp'|].
      destruct (Qgeb _ _); [discriminate Hp'|].
      cbn in Hp'. now injection Hp' as <-. }
    subst p'.
    destruct (trailing_stop_stop_loss p current_price) as (Hle & Hmax & Hsame).
    destruct (trailing_stop_frame p current_price) as (He & Hs & Htp & _ & _ & Hsym).
    repeat split; try assumption.
    + intros _. exact Hmax.
    + intros Hlow. now rewrite (Hsame Hlow).
  - rewrite (manage_open_position_other self current_price sym p Hp Ht) in Hp'.
    assert (p' = p) by congruence. subst p'.
    repeat split; try reflexivity.
    + apply Qle_refl.
    + intros Hbuy. contradiction.
Qed.

Lemma trailing_stop_is_a_ratchet_witness :
  exists p',
    position (manage_open_position holding_bot 103 "BTC/USDT") = Some p' /\
    stop_loss btc_position <= stop_loss p' /\
    stop_loss p' == Qmax (stop_loss btc_position) (entry_price btc_position * 1.01).
Proof.
  exists (trailing_stop btc_position 103).
  assert (Hp' : position (manage_open_position holding_bot 103 "BTC/USDT")
                = Some (trailing_stop btc_position 103)) by (vm_compute; reflexivity).
  destruct (trailing_stop_is_a_ratchet holding_bot 103 "BTC/USDT" btc_position
              (trailing_stop btc_position 103) eq_refl Hp')
    as (Hle & Hmax & _).
  split; [exact Hp'|]. split; [exact Hle|].
  apply Hmax; [reflexivity|]. vm_compute. intros H; discriminate H.
Defined.

(** ** Position Manager: [execute_trade] branch by branch *)

Section Trading.

Variable get_ohlcv_data : Exchange.

Lemma execute_trade_flat (self : Bot) (signal : Action) (signal_strength : Z)
  (current_price : Q) (sym : string) :
  position self = None ->
  execute_trade get_ohlcv_data self signal signal_strength current_price sym
  = if Action_eqb signal BUY
    then open_position get_ohlcv_data self signal_strength current_price sym
    else self.
Proof.
  intros Hp. unfold execute_trade. rewrite Hp. now destruct signal.
Qed.

Lemma execute_trade_held (self : Bot) (signal : Action) (signal_strength : Z)
  (current_price : Q) (sym : string) (p : Position) :
  position self = Some p ->
  execute_trade get_ohlcv_data self signal signal_strength current_price sym
  = if String.eqb (symbol p) sym
    then if Action_eqb signal SELL
         then close_position self p current_price sym
         else manage_open_position self current_price sym
    else self.
Proof.
  intros Hp. unfold execute_trade. rewrite Hp. cbn [position_and negb andb].
  destruct signal, (String.eqb (symbol p) sym); reflexivity.
Qed.

Lemma open_position_opened (self : Bot) (signal_strength : Z)
  (current_price : Q) (sym : string) :
  let position_size :=
    calculate_position_size get_ohlcv_data self current_price
      (current_price * (1 - 0.015)) sym in
  let opened := open_position get_ohlcv_data self signal_strength current_price sym in
  0 < position_size ->
  (exists p, position opened = Some p /\ entry_price p = current_price /\
             size p = position_size /\ stop_loss p = current_price * (1 - 0.015) /\
             type p = "BUY"%string /\ symbol p = sym) /\
  balance opened = balance self - position_size * current_price /\
  initial_balance opened = initial_balance self /\
  total_trades opened = total_trades self /\
  winning_trades opened = winning_trades self.
Proof.
  cbv zeta. intros Hpos. unfold open_position. cbv zeta.
  destruct (Qgtb_spec (calculate_position_size get_ohlcv_data self current_price
                         (current_price * (1 - 0.015)) sym) 0) as [_|Hno];
    [|contradiction].
  cbn. split; [|repeat split]. eexists. repeat split.
Qed.

Lemma open_position_rejected (self : Bot) (signal_strength : Z)
  (current_price : Q) (sym : string) :
  ~ 0 < calculate_position_size get_ohlcv_data self current_price
          (current_price * (1 - 0.015)) sym ->
  open_position get_ohlcv_data self signal_strength current_price sym = self.
Proof.
  intros Hno. unfold open_position. cbv zeta.
  destruct (Qgtb_spec (calculate_position_size get_ohlcv_data self current_price
                         (current_price * (1 - 0.015)) sym) 0) as [Hpos|_];
    [contradiction|reflexivity].
Qed.

(** A zero price has a zero stop distance, hence no size. *)
Lemma position_size_for_zero_price (balance risk_per_trade current_price score : Q) :
  current_price == 0 ->
  position_size_for balance risk_per_trade current_price
    (current_price * (1 - 0.015)) score = 0.
Proof.
  intros H0. unfold position_size_for. cbv zeta.
  destruct (Qeqb_spec (Qabs (current_price - current_price * (1 - 0.015))) 0) as [_|Hne];
    [reflexivity|].
  exfalso. apply Hne.
  assert (Hd : current_price - current_price * (1 - 0.015) == 0) by lra.
  rewrite Hd. reflexivity.
Qed.


Lemma close_position_books (self : Bot) (p : Position) (current_price : Q) (sym : string) :
  let closed := close_position self p current_price sym in
  initial_balance closed = initial_balance self /\
  balance closed = balance self + size p * current_price /\
  total_trades closed = (total_trades self + 1)%Z /\
  (~ entry_price p * size p == 0 -> position closed = None).
Proof.
  cbv zeta. unfold close_position. cbv zeta.
  destruct (Qeqb_spec (entry_price p * size p) 0) as [Hz|Hnz]; cbn; repeat split.
  intros H. contradiction.
Qed.

Lemma settle_closed_one (self held : Bot) (p q : Position) (current_price : Q)
  (reason : option string) (sym : string) :
  position self = Some p ->
  total_trades held = total_trades self -> winning_trades held = winning_trades self ->
  closed_one self (set_position (settle held q current_price reason sym) None).
Proof.
  intros Hp Ht Hw. exists p. split; [exact Hp|]. split; [reflexivity|].
  cbn. rewrite Ht, Hw. split; [reflexivity|].
  destruct (Qgtb _ _); [now right|now left].
Qed.

Lemma force_close_position_books (self : Bot) (current_price : Q) (reason sym : string) :
  books_unchanged self (force_close_position self current_price reason sym) \/
  closed_one self (force_close_position self current_price reason sym).
Proof.
  unfold force_close_position.
  destruct (position self) as [p|] eqn:Hp; [|left; split; reflexivity].
  destruct (String.eqb (type p) "BUY"); [|left; split; reflexivity].
  right. now apply settle_closed_one with (p := p).
Qed.

Lemma manage_open_position_books (self : Bot) (current_price : Q) (sym : string) :
  books_unchanged self (manage_open_position self current_price sym) \/
  closed_one self (manage_open_position self current_price sym).
Proof.
  destruct (position self) as [p|] eqn:Hp.
  - destruct (String.eqb_spec (type p) "BUY") as [Ht|Ht].
    + rewrite (manage_open_position_buy self current_price sym p Hp Ht). cbv zeta.
      destruct (Qle_bool _ _); [|destruct (Qgeb _ _)].
      * right. now apply settle_closed_one with (p := p).
      * right. now apply settle_closed_one with (p := p).
      * left. split; reflexivity.
    + rewrite (manage_open_position_other self current_price sym p Hp Ht).
      left. split; reflexivity.
  - rewrite (manage_open_position_flat self current_price sym Hp).
    left. split; reflexivity.
Qed.

Lemma open_position_books (self : Bot) (signal_strength : Z) (current_price : Q)
  (sym : string) :
  books_unchanged self (open_position get_ohlcv_data self signal_strength current_price sym).
Proof.
  unfold open_position. cbv zeta. destruct (Qgtb _ _); split; reflexivity.
Qed.

Lemma run_call_books (self : Bot) (c : Call) :
  well_formed self ->
  books_unchanged self (run_call get_ohlcv_data self c) \/
  closed_one self (run_call get_ohlcv_data self c).
Proof.
  intros Hwf. destruct c as [signal strength price sym|price sym|price reason sym];
    cbn [run_call].
  - destruct (position self) as [p|] eqn:Hp.
    + rewrite (execute_trade_held self signal strength price sym p Hp).
      destruct (String.eqb (symbol p) sym); [|left; split; reflexivity].
      destruct (Action_eqb signal SELL); [|apply manage_open_position_books].
      right. exists p. split; [exact Hp|].
      destruct (Hwf p Hp) as (_ & Hsize & Hentry).
      assert (Hnz : ~ entry_price p * size p == 0).
      { intros Hz. apply Hentry. nra. }
      destruct (close_position_books self p price sym) as (_ & _ & Ht & Hnone).
      split; [now apply Hnone|]. split; [exact Ht|].
      unfold close_position. cbv zeta.
      destruct (Qeq_bool _ _); cbn; destruct (Qgtb _ _); auto.
    + rewrite (execute_trade_flat self signal strength price sym Hp).
      destruct (Action_eqb signal BUY); [|left; split; reflexivity].
      left. apply open_position_books.
  - apply manage_open_position_books.
  - apply force_close_position_books.
Qed.

Lemma run_call_initial_balance (self : Bot) (c : Call) :
  initial_balance (run_call get_ohlcv_data self c) = initial_balance self.
Proof.
  assert (Hclose : forall s x r y, initial_balance (force_close_position s x r y)
                                   = initial_balance s).
  { intros s x r y. unfold force_close_position.
    destruct (position s) as [p|]; [|reflexivity].
    destruct (String.eqb _ _); reflexivity. }
  assert (Hmanage : forall s x y, initial_balance (manage_open_position s x y)
                                  = initial_balance s).
  { intros s x y. unfold manage_open_position.
    destruct (position s) as [p|]; [|reflexivity].
    destruct (String.eqb _ _); [|reflexivity]. cbv zeta.
    destruct (Qle_bool _ _); [|destruct (Qgeb _ _)]; try reflexivity;
      now rewrite Hclose. }
  destruct c as [signal strength price sym|price sym|price reason sym]; cbn [run_call].
  - unfold execute_trade. cbv zeta.
    destruct (_ && _).
    + unfold open_position. cbv zeta. destruct (Qgtb _ _); reflexivity.
    + destruct (_ && _).
      * destruct (position self) as [p|]; [|reflexivity].
        unfold close_position. cbv zeta. destruct (Qeq_bool _ _); reflexivity.
      * destruct (position_and _ _); [apply Hmanage|reflexivity].
  - apply Hmanage.
  - apply Hclose.
Qed.

(** Every position the bot holds is one it opened. *)
Lemma run_call_well_formed (self : Bot) (c : Call) :
  well_formed self -> well_formed (run_call get_ohlcv_data self c).
Proof.
  intros Hwf.
  assert (Hmanage : forall price sym,
             well_formed (manage_open_position self price sym)).
  { intros price sym q Hq.
    destruct (position self) as [p|] eqn:Hp.
    - destruct (manage_open_position_held self price sym p q Hp Hq) as [[->|[_ ->]] _].
      + now apply Hwf.
      + destruct (trailing_stop_frame p price) as (He & Hs & _ & Ht & _).
        rewrite He, Hs, Ht. now apply Hwf.
    - rewrite (manage_open_position_flat self price sym Hp) in Hq. congruence. }
  destruct c as [signal strength price sym|price sym|price reason sym]; cbn [run_call].
  - destruct (position self) as [p|] eqn:Hp.
    + rewrite (execute_trade_held self signal strength price sym p Hp).
      destruct (String.eqb (symbol p) sym); [|exact Hwf].
      destruct (Action_eqb signal SELL); [|apply Hmanage].
      intros q Hq. unfold close_position in Hq. cbv zeta in Hq.
      destruct (Qeq_bool _ _); cbn in Hq; [|discriminate Hq].
      apply Hwf. congruence.
    + rewrite (execute_trade_flat self signal strength price sym Hp).
      destruct (Action_eqb signal BUY); [|exact Hwf].
      destruct (Qlt_le_dec 0 (calculate_position_size get_ohlcv_data self price
                                (price * (1 - 0.015)) sym)) as [Hpos|Hno].
      * destruct (open_position_opened self strength price sym Hpos)
          as ((p & Hq & He & Hs & _ & Ht & _) & _).
        intros q Hq'. assert (q = p) by congruence. subst q.
        rewrite He, Hs. split; [exact Ht|]. split; [exact Hpos|].
        intros Hz. unfold calculate_position_size in Hpos.
        rewrite (position_size_for_zero_price _ _ _ _ Hz) in Hpos.
        now apply (Qlt_irrefl 0).
      * rewrite open_position_rejected; [exact Hwf|]. now apply Qle_not_lt.
  - apply Hmanage.
  - intros q Hq. unfold force_close_position in Hq.
    destruct (position self) as [p|] eqn:Hp; [|congruence].
    destruct (String.eqb _ _); [discriminate Hq|]. apply Hwf. congruence.
Qed.

Lemma reachable_well_formed (self : Bot) :
  reachable get_ohlcv_data self -> well_formed self.
Proof.
  induction 1 as [self Hflat|self c _ IH].
  - intros p Hp. congruence.
  - now apply run_call_well_formed.
Qed.

End Trading.

(** C3 (as stated, refuted).  A BUY signal for the held instrument at a price
    above its take-profit closes the position: the balance and the trade
    counter change. *)
Lemma buy_while_open_can_close :
  position holding_bot = Some btc_position /\
  position (execute_trade no_exchange holding_bot BUY 16 107 "BTC/USDT") = None /\
  total_trades (execute_trade no_exchange holding_bot BUY 16 107 "BTC/USDT")
    = (total_trades holding_bot + 1)%Z /\
  winning_trades (execute_trade no_exchange holding_bot BUY 16 107 "BTC/USDT")
    = (winning_trades holding_bot + 1)%Z /\
  balance holding_bot == 900 /\
  balance (execute_trade no_exchange holding_bot BUY 16 107 "BTC/USDT") == 1007.
Proof. repeat split. Qed.

(** C3 (amended).  A BUY signal while a position is open never opens another
    one.  For another instrument the state is unchanged; for the held
    instrument the call is [manage_open_position] at the current price.  A
    position held afterwards is the one held before, its stop not lowered,
    with the balance, the counters and the trade log untouched. *)
Theorem buy_while_open_manages (get_ohlcv_data : Exchange) (self : Bot)
  (signal_strength : Z) (current_price : Q) (sym : string) (p : Position) :
  position self = Some p ->
  let self' := execute_trade get_ohlcv_data self BUY signal_strength current_price sym in
  (symbol p <> sym -> self' = self) /\
  (symbol p = sym -> self' = manage_open_position self current_price sym) /\
  (forall p', position self' = Some p' ->
     entry_price p' = entry_price p /\ size p' = size p /\
     take_profit p' = take_profit p /\ symbol p' = symbol p /\
     stop_loss p <= stop_loss p' /\
     balance self' = balance self /\ total_trades self' = total_trades self /\
     winning_trades self' = winning_trades self /\ trades self' = trades self).
Proof.
  intros Hp self'. subst self'.
  rewrite (execute_trade_held get_ohlcv_data self BUY signal_strength current_price sym p Hp).
  cbn [Action_eqb].
  destruct (String.eqb_spec (symbol p) sym) as [Hs|Hs].
  - split; [intros H; contradiction|]. split; [reflexivity|].
    intros p' Hp'.
    destruct (manage_open_position_held self current_price sym p p' Hp Hp') as [Hcase ->].
    cbn [balance total_trades winning_trades trades set_position].
    destruct Hcase as [->|[_ ->]].
    + repeat split; try reflexivity. apply Qle_refl.
    + destruct (trailing_stop_frame p current_price) as (He & Hz & Htp & _ & _ & Hsym).
      repeat split; try assumption. apply trailing_stop_stop_loss.
  - split; [reflexivity|]. split; [intros H; contradiction|].
    intros p' Hp'. assert (p' = p) by congruence. subst p'.
    repeat split; try reflexivity. apply Qle_refl.
Qed.

Lemma buy_while_open_manages_witness :
  execute_trade no_exchange holding_bot BUY 16 107 "ETH/USDT" = holding_bot /\
  execute_trade no_exchange holding_bot BUY 16 107 "BTC/USDT"
    = manage_open_position holding_bot 107 "BTC/USDT".
Proof.
  destruct (buy_while_open_manages no_exchange holding_bot 16 107 "BTC/USDT"
              btc_position eq_refl) as (_ & Hsame & _).
  destruct (buy_while_open_manages no_exchange holding_bot 16 107 "ETH/USDT"
              btc_position eq_refl) as (Hother & _ & _).
  split.
  - apply Hother. vm_compute. intros H; discriminate H.
  - apply Hsame. reflexivity.
Defined.

(** C10.  A SELL signal for an instrument other than the one held leaves the
    whole state as it was. *)
Theorem sell_other_instrument_is_noop (get_ohlcv_data : Exchange) (self : Bot)
  (signal_strength : Z) (current_price : Q) (sym : string) (p : Position) :
  position self = Some p ->
  symbol p <> sym ->
  execute_trade get_ohlcv_data self SELL signal_strength current_price sym = self.
Proof.
  intros Hp Hs.
  rewrite (execute_trade_held get_ohlcv_data self SELL signal_strength current_price sym p Hp).
  destruct (String.eqb_spec (symbol p) sym); [contradiction|reflexivity].
Qed.

Lemma sell_other_instrument_is_noop_witness :
  execute_trade no_exchange holding_bot SELL 5 90 "ETH/USDT" = holding_bot.
Proof.
  apply (sell_other_instrument_is_noop no_exchange holding_bot 5 90 "ETH/USDT" btc_position).
  - reflexivity.
  - vm_compute. intros H; discriminate H.
Defined.

(** C8 (as stated, refuted).  In binary64 a bot with 987.65 that buys at 12 on
    a score of 80 holds 10.534933333333333 units and 861.2308 in cash;
    force-closed at 12 at once it logs a profit_loss of 0 and ends with
    987.6500000000001, not with 987.65. *)
Lemma round_trip_misses_the_balance :
  option_map Binary64.size (Binary64.position round_trip_opened)
  = Some 10.534933333333333%float /\
  Binary64.balance round_trip_opened = 861.2308%float /\
  Binary64.position round_trip_closed = None /\
  map Binary64.trade_profit_loss (Binary64.trades round_trip_closed)
  = [None; Some 0%float] /\
  Binary64.balance round_trip_closed = 987.6500000000001%float /\
  (Binary64.balance round_trip_closed =? 987.65)%float = false.
Proof. repeat split; vm_compute; reflexivity. Qed.

(** C8 (amended).  Opening a position from the flat state and force-closing
    it at once at the entry price records a profit_loss of 0, drops the
    position, counts one trade and no win.  The balance is debited by
    [size * price] and then credited with the same product: it ends as
    [balance - size * price + size * price], computed in that order. *)
Theorem open_then_force_close_round_trip (get_ohlcv_data : Exchange) (self : Bot)
  (signal_strength : Z) (current_price : Q) (reason sym : string) :
  position self = None ->
  0 < calculate_position_size get_ohlcv_data self current_price
        (current_price * (1 - 0.015)) sym ->
  let position_size :=
    calculate_position_size get_ohlcv_data self current_price
      (current_price * (1 - 0.015)) sym in
  let opened := execute_trade get_ohlcv_data self BUY signal_strength current_price sym in
  let closed := force_close_position opened current_price reason sym in
  (exists p, position opened = Some p /\ entry_price p = current_price /\
             size p = position_size) /\
  balance opened = balance self - position_size * current_price /\
  position closed = None /\
  (exists t profit_loss,
      trades closed = trades opened ++ [t] /\
      trade_profit_loss t = Some profit_loss /\ profit_loss == 0) /\
  balance closed
  = balance self - position_size * current_price + position_size * current_price /\
  total_trades closed = (total_trades self + 1)%Z /\
  winning_trades closed = winning_trades self.
Proof.
  intros Hflat Hpos position_size opened closed. subst closed opened position_size.
  rewrite (execute_trade_flat get_ohlcv_data self BUY signal_strength current_price sym Hflat).
  cbn [Action_eqb].
  destruct (open_position_opened get_ohlcv_data self signal_strength current_price sym Hpos)
    as ((p & Hp & He & Hs & _ & Ht & _) & Hb & _ & Htt & Hw).
  rewrite (force_close_position_closes _ current_price reason sym p Hp Ht).
  split; [now exists p|]. split; [exact Hb|]. split; [reflexivity|].
  assert (Hzero : (current_price - entry_price p) * size p == 0).
  { rewrite He. ring. }
  split; [|split; [|split]].
  - eexists. exists ((current_price - entry_price p) * size p).
    cbn [trades set_position settle]. split; [reflexivity|]. split; [reflexivity|exact Hzero].
  - cbn [balance set_position settle]. now rewrite Hb, Hs.
  - cbn [total_trades set_position settle]. now rewrite Htt.
  - cbn [winning_trades set_position settle].
    destruct (Qgtb_spec ((current_price - entry_price p) * size p) 0) as [Hgt|_];
      [|exact Hw].
    rewrite Hzero in Hgt. now apply Qlt_irrefl in Hgt.
Qed.

Lemma open_then_force_close_round_trip_witness :
  position (force_close_position opened_bot 100 "Manual" "BTC/USDT") = None /\
  balance (force_close_position opened_bot 100 "Manual" "BTC/USDT")
  = balance (new_bot 1000 0.025 0.12)
    - calculate_position_size flat_exchange (new_bot 1000 0.025 0.12) 100
        (100 * (1 - 0.015)) "BTC/USDT" * 100
    + calculate_position_size flat_exchange (new_bot 1000 0.025 0.12) 100
        (100 * (1 - 0.015)) "BTC/USDT" * 100 /\
  total_trades (force_close_position opened_bot 100 "Manual" "BTC/USDT") = 1%Z /\
  winning_trades (force_close_position opened_bot 100 "Manual" "BTC/USDT") = 0%Z.
Proof.
  destruct (open_then_force_close_round_trip flat_exchange (new_bot 1000 0.025 0.12)
              16 100 "Manual" "BTC/USDT") as (_ & _ & Hnone & _ & Hb & Ht & Hw).
  - reflexivity.
  - vm_compute. reflexivity.
  - repeat split; assumption.
Defined.

Lemma holding_bot_well_formed : well_formed holding_bot.
Proof.
  intros p Hp. injection Hp as <-. split; [reflexivity|]. split; [reflexivity|].
  intros H; discriminate H.
Qed.

(** C9.  Opening a position (a BUY executed while flat, with a computed size
    above 0) takes exactly [size * entry_price] off the balance and leaves
    [total_trades], [winning_trades] and [initial_balance] as they were.  On
    every state the bot reaches, a call that changes [total_trades] or
    [winning_trades] is one that closes the held position: the position is
    gone afterwards and [total_trades] has grown by one. *)
Theorem counters_move_only_on_close (get_ohlcv_data : Exchange) (self : Bot) :
  well_formed self ->
  (forall (signal_strength : Z) (current_price : Q) (sym : string),
     position self = None ->
     let position_size :=
       calculate_position_size get_ohlcv_data self current_price
         (current_price * (1 - 0.015)) sym in
     0 < position_size ->
     let opened :=
       execute_trade get_ohlcv_data self BUY signal_strength current_price sym in
     (exists p, position opened = Some p /\ entry_price p = current_price /\
                size p = position_size) /\
     balance opened = balance self - position_size * current_price /\
     total_trades opened = total_trades self /\
     winning_trades opened = winning_trades self /\
     initial_balance opened = initial_balance self) /\
  (forall c : Call,
     let self' := run_call get_ohlcv_data self c in
     initial_balance self' = initial_balance self /\
     (total_trades self' <> total_trades self \/
      winning_trades self' <> winning_trades self ->
      exists p, position self = Some p /\ position self' = None /\
                total_trades self' = (total_trades self + 1)%Z /\
                (winning_trades self' = winning_trades self \/
                 winning_trades self' = (winning_trades self + 1)%Z))).
Proof.
  intros Hwf. split.
  - intros signal_strength current_price sym Hflat position_size Hpos opened.
    subst opened position_size.
    rewrite (execute_trade_flat get_ohlcv_data self BUY signal_strength
               current_price sym Hflat).
    cbn [Action_eqb].
    destruct (open_position_opened get_ohlcv_data self signal_strength
                current_price sym Hpos)
      as ((p & Hp & He & Hs & _) & Hb & Hi & Ht & Hw).
    split; [now exists p|]. now repeat split.
  - intros c self'. subst self'. split; [apply run_call_initial_balance|].
    intros Hmoved.
    destruct (run_call_books get_ohlcv_data self c Hwf) as [[Ht Hw]|Hclosed].
    + destruct Hmoved as [H|H]; contradiction.
    + exact Hclosed.
Qed.

Lemma counters_move_only_on_close_witness :
  (let opened := execute_trade flat_exchange (new_bot 1000 0.025 0.12) BUY 16 100 "BTC/USDT" in
   balance opened
   = balance (new_bot 1000 0.025 0.12)
     - calculate_position_size flat_exchange (new_bot 1000 0.025 0.12) 100
         (100 * (1 - 0.015)) "BTC/USDT" * 100 /\
   total_trades opened = 0%Z /\ winning_trades opened = 0%Z) /\
  (let closed := run_call no_exchange holding_bot (Execute SELL 5 110 "BTC/USDT") in
   position closed = None /\ total_trades closed = 1%Z).
Proof.
  split.
  - destruct (counters_move_only_on_close flat_exchange (new_bot 1000 0.025 0.12))
      as [Hopen _].
    + intros p Hp. discriminate Hp.
    + destruct (Hopen 16%Z 100 "BTC/USDT"%string eq_refl) as (_ & Hb & Ht & Hw & _).
      * vm_compute. reflexivity.
      * cbv zeta. split; [exact Hb|]. split; [exact Ht|exact Hw].
  - destruct (counters_move_only_on_close no_exchange holding_bot
                holding_bot_well_formed) as [_ Hclose].
    destruct (Hclose (Execute SELL 5 110 "BTC/USDT")) as [_ Hmoved].
    destruct Hmoved as (p & _ & Hnone & Ht & _).
    + left. vm_compute. intros H; discriminate H.
    + cbv zeta. split; [exact Hnone|exact Ht].
Defined.

(** ** Position size *)

Lemma py_min_Qmin (a b : Q) : py_min a b == Qmin a b.
Proof.
  unfold py_min. destruct (Qltb_spec b a) as [H|H].
  - symmetry. apply Q.min_r. now apply Qlt_le_weak.
  - symmetry. apply Q.min_l. now apply Qnot_lt_le.
Qed.

Lemma py_max_Qmax (a b : Q) : py_max a b == Qmax a b.
Proof.
  unfold py_max. destruct (Qgtb_spec b a) as [H|H].
  - symmetry. apply Q.max_r. now apply Qlt_le_weak.
  - symmetry. apply Q.max_l. now apply Qnot_lt_le.
Qed.

Lemma position_size_for_unfold (balance risk_per_trade current_price stop_loss_price score : Q) :
  let distance := Qabs (current_price - stop_loss_price) in
  let raw := Spec.scaled_risk balance risk_per_trade score / distance in
  let cap := Spec.notional_cap balance score in
  position_size_for balance risk_per_trade current_price stop_loss_price score
  == if Qeq_bool distance 0 then 0
     else if Qgtb (raw * current_price) cap
          then if Qeq_bool current_price 0 then 0 else cap / current_price
          else raw.
Proof.
  cbv zeta. unfold position_size_for, Spec.scaled_risk, Spec.notional_cap. cbv zeta.
  set (d := Qabs (current_price - stop_loss_price)).
  assert (Hrisk :
    (if Qgtb score 70 then balance * risk_per_trade * 1.5
     else if Qgtb score 50 then balance * risk_per_trade * 1.2
     else balance * risk_per_trade)
    = (if Qlt_le_dec 70 score then balance * risk_per_trade * 1.5
       else if Qlt_le_dec 50 score then balance * risk_per_trade * 1.2
       else balance * risk_per_trade)).
  { destruct (Qgtb_spec score 70) as [H|H], (Qlt_le_dec 70 score) as [H'|H'];
      try reflexivity; try (exfalso; now apply H);
      try (exfalso; now apply (Qlt_not_le _ _ H)).
    destruct (Qgtb_spec score 50) as [G|G], (Qlt_le_dec 50 score) as [G'|G'];
      try reflexivity; try (exfalso; now apply G);
      try (exfalso; now apply (Qlt_not_le _ _ G)). }
  rewrite Hrisk. clear Hrisk.
  set (r := if Qlt_le_dec 70 score then _ else _).
  destruct (Qeq_bool d 0); [reflexivity|].
  set (cap_py := balance * py_min 0.15 (0.08 * (score / 50))).
  set (cap := balance * Qmin 0.15 (0.08 * (score / 50))).
  assert (Hcap : cap_py == cap).
  { subst cap_py cap. now rewrite py_min_Qmin. }
  assert (Hg : Qgtb (r / d * current_price) cap_py = Qgtb (r / d * current_price) cap).
  { destruct (Qgtb_spec (r / d * current_price) cap_py) as [H|H],
             (Qgtb_spec (r / d * current_price) cap) as [H'|H'];
      try reflexivity; exfalso.
    - apply H'. now rewrite <- Hcap.
    - apply H. now rewrite Hcap. }
  rewrite Hg. destruct (Qgtb (r / d * current_price) cap); [|reflexivity].
  destruct (Qeq_bool current_price 0); [reflexivity|]. now rewrite Hcap.
Qed.

(** C5 (as stated, refuted).  In binary64 the size that has been cut to the
    cap can carry a notional above the cap: with balance 1000, entry price
    73 and score 100 the cap is 150, the size [150 / 73] is
    2.0547945205479454 and [size * 73] is 150.00000000000003. *)
Lemma capped_notional_exceeds_the_cap :
  (1000 * Binary64.py_min 0.15 (0.08 * (100 / 50)) = 150)%float /\
  (Binary64.position_size_for 1000 0.025 73 (73 * (1 - 0.015)) 100
   = 2.0547945205479454)%float /\
  (Binary64.position_size_for 1000 0.025 73 (73 * (1 - 0.015)) 100 * 73
   = 150.00000000000003)%float /\
  (1000 * Binary64.py_min 0.15 (0.08 * (100 / 50))
   <? Binary64.position_size_for 1000 0.025 73 (73 * (1 - 0.015)) 100 * 73)%float = true.
Proof. repeat split; vm_compute; reflexivity. Qed.

(** C5 (amended).  [calculate_position_size] follows the sizing rule: the
    risk budget [balance * risk_per_trade], times 1.5 for a score above 70
    and times 1.2 for a score above 50, divided by the stop distance; when
    the notional of that size is above the cap
    [balance * min(0.15, 0.08 * score / 50)] the size becomes the cap divided
    by the entry price; a zero stop distance gives size 0.  With balance
    1000, risk 0.025, entry 100, stop 98.5 and score 80 the size is 1.28, in
    exact arithmetic and in binary64. *)
Theorem position_size_rule (get_ohlcv_data : Exchange) (self : Bot)
  (current_price stop_loss_price : Q) (sym : string) :
  let score := analyze_coin_potential get_ohlcv_data sym in
  let position_size :=
    calculate_position_size get_ohlcv_data self current_price stop_loss_price sym in
  let distance := Qabs (current_price - stop_loss_price) in
  let raw := Spec.scaled_risk (balance self) (risk_per_trade self) score / distance in
  let cap := Spec.notional_cap (balance self) score in
  (distance == 0 -> position_size == 0) /\
  (~ distance == 0 ->
     (raw * current_price <= cap -> position_size == raw) /\
     (cap < raw * current_price -> ~ current_price == 0 ->
        position_size == cap / current_price)) /\
  position_size_for 1000 0.025 100 98.5 80 == 1.28 /\
  (Binary64.position_size_for 1000 0.025 100 98.5 80 = 1.28)%float.
Proof.
  cbv zeta. unfold calculate_position_size.
  set (score := analyze_coin_potential get_ohlcv_data sym).
  pose proof (position_size_for_unfold (balance self) (risk_per_trade self)
                current_price stop_loss_price score) as Hsize.
  cbv zeta in Hsize.
  set (distance := Qabs (current_price - stop_loss_price)) in *.
  set (raw := Spec.scaled_risk (balance self) (risk_per_trade self) score / distance) in *.
  set (cap := Spec.notional_cap (balance self) score) in *.
  split; [|split; [|split]].
  - intros Hd. rewrite Hsize.
    destruct (Qeqb_spec distance 0); [reflexivity|contradiction].
  - intros Hd. rewrite Hsize.
    destruct (Qeqb_spec distance 0) as [Hz|_]; [contradiction|].
    destruct (Qgtb_spec (raw * current_price) cap) as [Hover|Hfits]; split.
    + intros Hle. exfalso. now apply (Qlt_not_le _ _ Hover).
    + intros _ Hprice.
      destruct (Qeqb_spec current_price 0) as [Hz|_]; [contradiction|reflexivity].
    + intros _. reflexivity.
    + intros Hover. contradiction.
  - vm_compute. reflexivity.
  - vm_compute. reflexivity.
Qed.

Lemma position_size_rule_witness :
  calculate_position_size flat_exchange (new_bot 1000 0.025 0.12) 100 98.5 "BTC/USDT"
  == Spec.notional_cap 1000 (analyze_coin_potential flat_exchange "BTC/USDT") / 100 /\
  calculate_position_size flat_exchange (new_bot 1000 0.025 0.12) 100 100 "BTC/USDT" == 0.
Proof.
  destruct (position_size_rule flat_exchange (new_bot 1000 0.025 0.12) 100 98.5 "BTC/USDT")
    as (_ & Hrule & _).
  destruct (position_size_rule flat_exchange (new_bot 1000 0.025 0.12) 100 100 "BTC/USDT")
    as (Hzero & _ & _).
  split.
  - destruct Hrule as [_ Hcut].
    + vm_compute. intros H; discriminate H.
    + apply Hcut.
      * vm_compute. reflexivity.
      * vm_compute. intros H; discriminate H.
  - apply Hzero. vm_compute. reflexivity.
Defined.

Example position_size_scenario :
  analyze_coin_potential flat_exchange "BTC/USDT" == 80 /\
  calculate_position_size flat_exchange (new_bot 1000 0.025 0.12) 100 98.5 "BTC/USDT"
  == 1.28.
Proof. split; vm_compute; reflexivity. Qed.

(** ** Series *)

Lemma fillna_nth (l : list float) (other : list Q) (i : nat) (x : float) (y : Q) :
  nth_error l i = Some x -> nth_error other i = Some y ->
  nth_error (fillna l other) i = Some (Some (nan_to y x)).
Proof.
  revert other i. induction l as [|a l IH]; intros other i Hl Ho.
  - destruct i; discriminate Hl.
  - destruct other as [|b other]; [destruct i; discriminate Ho|].
    destruct i as [|i]; cbn in Hl, Ho.
    + injection Hl as ->. injection Ho as ->. destruct x; reflexivity.
    + destruct a; cbn [fillna nth_error]; now apply IH.
Qed.

Lemma fillna_defined (x : Q) (n : nat) (other : list Q) :
  fillna (repeat (Some x) n) other = repeat (Some x) n.
Proof.
  revert other. induction n as [|n IH]; intros other; [now destruct other|].
  cbn [repeat fillna]. destruct other as [|b other]; [reflexivity|]. now rewrite IH.
Qed.

Lemma rolling_length (w : nat) (f : list Q -> float) (l : list Q) :
  length (rolling w f l) = length l.
Proof. unfold rolling. now rewrite length_map, length_seq. Qed.

Lemma rolling_nth (w : nat) (f : list Q -> float) (l : list Q) (i : nat) :
  (i < length l)%nat ->
  nth_error (rolling w f l) i
  = Some (if (i + 1 <? w)%nat then None else f (window w i l)).
Proof.
  intros Hi. unfold rolling. rewrite nth_error_map.
  rewrite nth_error_seq. destruct (Nat.ltb_spec i (length l)); [reflexivity|lia].
Qed.

Lemma combine_nth_error {A B : Type} (l : list A) (l' : list B) (i : nat) (a : A) (b : B) :
  nth_error l i = Some a -> nth_error l' i = Some b ->
  nth_error (combine l l') i = Some (a, b).
Proof.
  revert l' i. induction l as [|x l IH]; intros l' i Hl Hl'.
  - destruct i; discriminate Hl.
  - destruct l' as [|y l']; [destruct i; discriminate Hl'|].
    destruct i as [|i]; cbn in *; [congruence|now apply IH].
Qed.

(** ** Bollinger Bands *)

Section BollingerFacts.

Variable sqrt : Q -> Q.

(** Rows without a full window: the band is NaN before [fillna(prices)]. *)
Lemma bollinger_early_row (prices : list Q) (period : nat) (std : Q) (i : nat) (c : Q) :
  (period <= length prices)%nat -> (i + 1 < period)%nat ->
  nth_error prices i = Some c ->
  nth_error (fst (calculate_bollinger_bands sqrt prices period std)) i = Some (Some c) /\
  nth_error (snd (calculate_bollinger_bands sqrt prices period std)) i = Some (Some c).
Proof.
  intros Hlen Hi Hc. unfold calculate_bollinger_bands.
  destruct (Nat.ltb_spec (length prices) period) as [Hshort|_]; [lia|].
  cbv zeta. cbn [fst snd].
  assert (Hrow : nth_error (combine (rolling_mean period prices)
                              (rolling period (sample_std sqrt) prices)) i
                 = Some (None, None)).
  { apply combine_nth_error; unfold rolling_mean; rewrite rolling_nth by lia;
      destruct (Nat.ltb_spec (i + 1) period); (reflexivity || lia). }
  split.
  - apply (fillna_nth _ prices i None c); [|exact Hc].
    now rewrite nth_error_map, Hrow.
  - apply (fillna_nth _ prices i None c); [|exact Hc].
    now rewrite nth_error_map, Hrow.
Qed.

Lemma bollinger_short_series (prices : list Q) (period : nat) (std : Q) :
  (length prices < period)%nat ->
  calculate_bollinger_bands sqrt prices period std
  = (repeat (Some 0) (length prices), repeat (Some 0) (length prices)).
Proof.
  intros Hshort. unfold calculate_bollinger_bands.
  destruct (Nat.ltb_spec (length prices) period); [reflexivity|lia].
Qed.

End BollingerFacts.

(** C7 (as stated, refuted).  For a series of three closes both bands are 0
    at every row, whatever the square root: they do not take the close
    price. *)
Lemma short_series_bands_are_zero :
  (length [10; 11; 12] < 20)%nat /\
  forall sqrt : Q -> Q,
    calculate_bollinger_bands sqrt [10; 11; 12] 20 2
    = ([Some 0; Some 0; Some 0], [Some 0; Some 0; Some 0]) /\
    calculate_indicators_bb sqrt [10; 11; 12]
    = Some ([Some 0; Some 0; Some 0], [Some 0; Some 0; Some 0]) /\
    nth_error (fst (calculate_bollinger_bands sqrt [10; 11; 12] 20 2)) 0
    <> Some (Some 10).
Proof.
  split; [apply Nat.ltb_lt; reflexivity|].
  intros sqrt. split; [reflexivity|]. split; [reflexivity|].
  cbn. intros H. discriminate H.
Qed.

(** C7 (amended).  In a series of at least 20 closes, every row of the upper
    and lower band that has no full 20-bar window (rows 0 to 18) holds that
    row's close, both as [calculate_bollinger_bands] returns it and in the
    frame of [calculate_indicators].  In a series shorter than 20 both bands
    are 0 at every row. *)
Theorem bollinger_bands_defaults (sqrt : Q -> Q) (closes : list Q) :
  ((20 <= length closes)%nat ->
   forall (i : nat) (c : Q),
     (i < 19)%nat -> nth_error closes i = Some c ->
     nth_error (fst (calculate_bollinger_bands sqrt closes 20 2)) i = Some (Some c) /\
     nth_error (snd (calculate_bollinger_bands sqrt closes 20 2)) i = Some (Some c) /\
     exists upper lower,
       calculate_indicators_bb sqrt closes = Some (upper, lower) /\
       nth_error upper i = Some (Some c) /\ nth_error lower i = Some (Some c)) /\
  ((0 < length closes < 20)%nat ->
   calculate_bollinger_bands sqrt closes 20 2
   = (repeat (Some 0) (length closes), repeat (Some 0) (length closes)) /\
   calculate_indicators_bb sqrt closes
   = Some (repeat (Some 0) (length closes), repeat (Some 0) (length closes))).
Proof.
  split.
  - intros Hlen i c Hi Hc.
    destruct (bollinger_early_row sqrt closes 20 2 i c Hlen ltac:(lia) Hc) as [Hu Hl].
    split; [exact Hu|]. split; [exact Hl|].
    unfold calculate_indicators_bb.
    destruct closes as [|c0 closes]; [cbn in Hlen; lia|].
    cbv zeta. do 2 eexists. split; [reflexivity|].
    split.
    + now apply (fillna_nth _ _ i (Some c) c).
    + now apply (fillna_nth _ _ i (Some c) c).
  - intros [Hpos Hshort].
    pose proof (bollinger_short_series sqrt closes 20 2 Hshort) as Hbb.
    split; [exact Hbb|].
    unfold calculate_indicators_bb.
    destruct closes as [|c0 closes]; [cbn in Hpos; lia|].
    cbv zeta. rewrite Hbb. cbn [fst snd]. now rewrite !fillna_defined.
Qed.

Lemma bollinger_bands_defaults_witness :
  nth_error (fst (calculate_bollinger_bands (fun x => x) (map close flat_bars) 20 2)) 3
  = Some (Some 100) /\
  calculate_indicators_bb (fun x => x) [10; 11; 12]
  = Some (repeat (Some 0) 3, repeat (Some 0) 3).
Proof.
  destruct (bollinger_bands_defaults (fun x => x) (map close flat_bars)) as [Hlong _].
  destruct (bollinger_bands_defaults (fun x => x) [10; 11; 12]) as [_ Hshort].
  assert (Hlen : (20 <= length (map close flat_bars))%nat).
  { apply Nat.leb_le. vm_compute. reflexivity. }
  assert (Hrow : (3 < 19)%nat) by (apply Nat.ltb_lt; reflexivity).
  assert (Hclose : nth_error (map close flat_bars) 3 = Some 100) by reflexivity.
  destruct (Hlong Hlen 3%nat 100 Hrow Hclose) as [Hupper _].
  destruct Hshort as [_ Hzero].
  { split; apply Nat.ltb_lt; reflexivity. }
  split; [exact Hupper|exact Hzero].
Defined.

(** ** Potential Scorer *)

Lemma mean_nonempty (l : list Q) :
  l <> [] -> mean l = Some (sum l / inject_Z (Z.of_nat (length l))).
Proof. destruct l; [congruence|reflexivity]. Qed.

(** C6 (as stated, refuted).  On [jump_bars] the volatility term is
    1000 * (102/50) / (530/50), not 1000 times the mean of the per-row ratios,
    which is 198. *)
Lemma volatility_term_is_not_mean_of_ratios :
  (50 <= length jump_bars)%nat /\
  volatility_term jump_bars == 10200 # 53 /\
  1000 * Spec.mean_range_over_close jump_bars == 198 /\
  ~ volatility_term jump_bars == 1000 * Spec.mean_range_over_close jump_bars.
Proof.
  split; [apply Nat.leb_le; reflexivity|].
  split; [vm_compute; reflexivity|].
  split; [vm_compute; reflexivity|].
  vm_compute. intros H. discriminate H.
Qed.

(** C6 (amended).  For at least 50 bars whose mean close is not zero, the
    volatility term is 1000 times the mean range divided by the mean close:
    the ratio of the two column means. *)
Theorem volatility_term_is_ratio_of_means (bars : list Bar) :
  (50 <= length bars)%nat ->
  let n := inject_Z (Z.of_nat (length bars)) in
  let mean_range := sum (map (fun b => high b - low b) bars) / n in
  let mean_close := sum (map close bars) / n in
  ~ mean_close == 0 ->
  volatility bars = Some (mean_range / mean_close) /\
  volatility_term bars == 1000 * (mean_range / mean_close).
Proof.
  intros Hlen. cbv zeta. intros Hnz.
  assert (Hne : bars <> []) by (destruct bars; [cbn in Hlen; lia|congruence]).
  assert (Hvol : volatility bars
                 = Some (sum (map (fun b => high b - low b) bars)
                         / inject_Z (Z.of_nat (length bars))
                         / (sum (map close bars) / inject_Z (Z.of_nat (length bars))))).
  { unfold volatility. rewrite !mean_nonempty, !length_map;
      [|destruct bars; cbn; congruence|destruct bars; cbn; congruence].
    cbn [fdiv].
    destruct (Qeqb_spec (sum (map close bars) / inject_Z (Z.of_nat (length bars))) 0);
      [contradiction|reflexivity]. }
  split; [exact Hvol|].
  unfold volatility_term. rewrite Hvol. cbn [nan_to]. ring.
Qed.

Lemma volatility_term_is_ratio_of_means_witness :
  volatility_term jump_bars
  == 1000 * (sum (map (fun b => high b - low b) jump_bars) / 50
             / (sum (map close jump_bars) / 50)).
Proof.
  destruct (volatility_term_is_ratio_of_means jump_bars) as (_ & Hratio).
  - apply Nat.leb_le. reflexivity.
  - vm_compute. intros H. discriminate H.
  - exact Hratio.
Defined.

(* ================================================================= *)
(** * Further properties *)

(** ** Reporting *)

(** X15.  [check_drawdown] with a positive [initial_balance]: it never
    answers true while the balance is at least [initial_balance] (for a
    positive [max_drawdown]), always answers true once the balance is zero or
    below (for a [max_drawdown] of at most 1), and once it answers true it
    also does for every lower balance.  With a zero [initial_balance] and a
    non-negative balance it answers false. *)
Theorem check_drawdown_is_monotone (self lower : Bot) :
  (initial_balance self == 0 -> 0 <= balance self -> check_drawdown self = false) /\
  (0 < initial_balance self ->
   (0 < max_drawdown self -> initial_balance self <= balance self ->
    check_drawdown self = false) /\
   (max_drawdown self <= 1 -> balance self <= 0 -> check_drawdown self = true) /\
   (initial_balance lower == initial_balance self ->
    max_drawdown lower == max_drawdown self ->
    balance lower <= balance self ->
    check_drawdown self = true -> check_drawdown lower = true)).
Proof.
  split.
  { intros Hz _. unfold check_drawdown.
    destruct (Qeqb_spec (initial_balance self) 0); [reflexivity|contradiction]. }
  intros Hpos.
  assert (Hquot : forall b m,
             (m <= (initial_balance self - b) / initial_balance self
              <-> m * initial_balance self <= initial_balance self - b)).
  { intros b m. split; intros H.
    - apply (Qmult_le_compat_r _ _ (initial_balance self)) in H;
        [|now apply Qlt_le_weak].
      assert (Hcancel : (initial_balance self - b) / initial_balance self
                        * initial_balance self == initial_balance self - b)
        by (field; lra).
      now rewrite Hcancel in H.
    - now apply Qle_shift_div_l. }
  assert (Hself : check_drawdown self = true
                  <-> max_drawdown self * initial_balance self
                      <= initial_balance self - balance self).
  { unfold check_drawdown.
    destruct (Qeqb_spec (initial_balance self) 0) as [Hz|_]; [lra|]. cbv zeta.
    destruct (Qgeb_spec ((initial_balance self - balance self) / initial_balance self)
                (max_drawdown self)) as [Hge|Hlt]; rewrite <- Hquot.
    - split; [intros _; exact Hge|reflexivity].
    - split; [intros H; discriminate H|intros H; contradiction]. }
  split; [|split].
  - intros Hm Hb. destruct (check_drawdown self) eqn:Hc; [|reflexivity].
    exfalso. pose proof (proj1 Hself eq_refl) as H.
    assert (0 < max_drawdown self * initial_balance self) by nra. lra.
  - intros Hm Hb. apply Hself. nra.
  - intros Hi Hm Hb Hc. apply Hself in Hc.
    unfold check_drawdown.
    destruct (Qeqb_spec (initial_balance lower) 0) as [Hz|_]; [lra|]. cbv zeta.
    destruct (Qgeb_spec ((initial_balance lower - balance lower) / initial_balance lower)
                (max_drawdown lower)) as [_|Hlt]; [reflexivity|].
    exfalso. apply Hlt. apply Qle_shift_div_l; [lra|].
    rewrite Hi, Hm. lra.
Qed.

Lemma counters_ok_settle (self : Bot) (p : Position) (current_price : Q)
  (reason : option string) (sym : string) :
  counters_ok self -> counters_ok (settle self p current_price reason sym).
Proof.
  unfold counters_ok. cbn. destruct (Qgtb _ _); lia.
Qed.

Lemma win_rate_bounds (self : Bot) : counters_ok self -> 0 <= win_rate self <= 100.
Proof.
  unfold counters_ok, win_rate. intros [Hw Ht].
  destruct (Z.ltb_spec 0 (total_trades self)) as [Hpos|_]; [|split; lra].
  assert (HposQ : 0 < inject_Z (total_trades self)).
  { rewrite <- (Zlt_Qlt 0). exact Hpos. }
  assert (HwQ : 0 <= inject_Z (winning_trades self)).
  { rewrite <- (Zle_Qle 0). exact Hw. }
  assert (HtQ : inject_Z (winning_trades self) <= inject_Z (total_trades self)).
  { rewrite <- Zle_Qle. exact Ht. }
  split.
  - apply Qmult_le_0_compat; [|lra]. apply Qle_shift_div_l; [exact HposQ|lra].
  - assert (inject_Z (winning_trades self) / inject_Z (total_trades self) <= 1).
    { apply Qle_shift_div_r; [exact HposQ|lra]. }
    lra.
Qed.

Lemma force_close_position_counters (self : Bot) (current_price : Q) (reason sym : string) :
  counters_ok self -> counters_ok (force_close_position self current_price reason sym).
Proof.
  intros H. unfold force_close_position.
  destruct (position self) as [p|]; [|exact H].
  destruct (String.eqb _ _); [|exact H].
  exact (counters_ok_settle self p current_price (Some reason) sym H).
Qed.

Lemma manage_open_position_counters (self : Bot) (current_price : Q) (sym : string) :
  counters_ok self -> counters_ok (manage_open_position self current_price sym).
Proof.
  intros H. unfold manage_open_position.
  destruct (position self) as [p|]; [|exact H].
  destruct (String.eqb _ _); [|exact H]. cbv zeta.
  destruct (Qle_bool _ _); [|destruct (Qgeb _ _)];
    try (apply force_close_position_counters); exact H.
Qed.

Lemma run_call_counters (get_ohlcv_data : Exchange) (self : Bot) (c : Call) :
  counters_ok self -> counters_ok (run_call get_ohlcv_data self c).
Proof.
  intros H. destruct c as [signal strength price sym|price sym|price reason sym];
    cbn [run_call].
  - unfold execute_trade. cbv zeta.
    destruct (_ && _).
    + unfold open_position. cbv zeta. destruct (Qgtb _ _); exact H.
    + destruct (_ && _).
      * destruct (position self) as [p|]; [|exact H].
        unfold close_position. cbv zeta.
        destruct (Qeq_bool _ _); exact (counters_ok_settle self p price None sym H).
      * destruct (position_and _ _); [now apply manage_open_position_counters|exact H].
  - now apply manage_open_position_counters.
  - now apply force_close_position_counters.
Qed.

(** X14.  Every call keeps [0 <= winning_trades <= total_trades], so the win
    rate that is saved and printed stays between 0 and 100. *)
Theorem win_rate_is_a_percentage (get_ohlcv_data : Exchange) (self : Bot) (c : Call) :
  counters_ok self ->
  counters_ok (run_call get_ohlcv_data self c) /\
  0 <= win_rate (run_call get_ohlcv_data self c) <= 100.
Proof.
  intros H. pose proof (run_call_counters get_ohlcv_data self c H) as H'.
  split; [exact H'|now apply win_rate_bounds].
Qed.

(** ** Position Manager: the price band of a held position *)

Lemma trailing_stop_type (p : Position) (current_price : Q) :
  type (trailing_stop p current_price) = type p.
Proof. apply trailing_stop_frame. Qed.

(** X8.  A BUY position survives [manage_open_position] exactly when the
    price is strictly between its stop (after the trailing step) and its
    take-profit; it is then the position after the trailing step.  At or
    beyond either bound the position is closed. *)
Theorem position_survives_inside_band (self : Bot) (current_price : Q) (sym : string)
  (p : Position) :
  position self = Some p ->
  type p = "BUY"%string ->
  let q := trailing_stop p current_price in
  (stop_loss q < current_price /\ current_price < take_profit q ->
   position (manage_open_position self current_price sym) = Some q) /\
  (current_price <= stop_loss q \/ take_profit q <= current_price ->
   position (manage_open_position self current_price sym) = None) /\
  (forall p', position (manage_open_position self current_price sym) = Some p' ->
     stop_loss p' < current_price /\ current_price < take_profit p').
Proof.
  intros Hp Ht q.
  rewrite (manage_open_position_buy self current_price sym p Hp Ht). cbv zeta.
  fold q.
  destruct (Qleb_spec current_price (stop_loss q)) as [Hstop|Hstop].
  - split; [|split].
    + intros [Hlow _]. exfalso. now apply (Qlt_not_le _ _ Hlow).
    + intros _. reflexivity.
    + intros p' H. discriminate H.
  - apply Qnot_le_lt in Hstop.
    destruct (Qgeb_spec current_price (take_profit q)) as [Htp|Htp].
    + split; [|split].
      * intros [_ Hhigh]. exfalso. now apply (Qlt_not_le _ _ Hhigh).
      * intros _. reflexivity.
      * intros p' H. discriminate H.
    + apply Qnot_le_lt in Htp. split; [|split].
      * intros _. reflexivity.
      * intros [H|H]; exfalso.
        -- now apply (Qlt_not_le _ _ Hstop).
        -- now apply (Qlt_not_le _ _ Htp).
      * intros p' H. cbn in H. injection H as <-. now split.
Qed.

(** ** Position Manager: what a close books *)

Lemma profit_sign (entry_price size current_price : Q) :
  0 < size ->
  Qgtb ((current_price - entry_price) * size) 0 = Qgtb current_price entry_price.
Proof.
  intros Hs.
  destruct (Qgtb_spec ((current_price - entry_price) * size) 0) as [H|H],
           (Qgtb_spec current_price entry_price) as [G|G]; try reflexivity; exfalso.
  - apply G. nra.
  - apply H. nra.
Qed.

Lemma settle_books (self : Bot) (p : Position) (current_price : Q)
  (reason : option string) (sym : string) :
  0 < size p ->
  let closed := set_position (settle self p current_price reason sym) None in
  position closed = None /\
  balance closed = balance self + size p * current_price /\
  total_trades closed = (total_trades self + 1)%Z /\
  winning_trades closed
  = (if Qgtb current_price (entry_price p)
     then (winning_trades self + 1)%Z else winning_trades self) /\
  exists t, trades closed = trades self ++ [t] /\
            trade_type t = "SELL"%string /\
            trade_profit_loss t = Some ((current_price - entry_price p) * size p).
Proof.
  intros Hs. cbv zeta. cbn. rewrite (profit_sign _ _ _ Hs).
  repeat split. eexists. repeat split.
Qed.

(** X9.  On a position the bot opened, [force_close_position] and a SELL
    through [execute_trade] for its instrument book the same close: the
    position is dropped, the balance grows by [size * price], [total_trades]
    by one, [winning_trades] by one exactly when the price is above the entry
    price, and a SELL record with profit [(price - entry_price) * size] is
    appended. *)
Theorem close_books_realized_profit (get_ohlcv_data : Exchange) (self : Bot)
  (signal_strength : Z) (current_price : Q) (reason sym : string) (p : Position) :
  well_formed self ->
  position self = Some p ->
  forall closed,
    closed = force_close_position self current_price reason sym \/
    (symbol p = sym /\
     closed = execute_trade get_ohlcv_data self SELL signal_strength current_price sym) ->
    position closed = None /\
    balance closed = balance self + size p * current_price /\
    total_trades closed = (total_trades self + 1)%Z /\
    winning_trades closed
    = (if Qgtb current_price (entry_price p)
       then (winning_trades self + 1)%Z else winning_trades self) /\
    exists t, trades closed = trades self ++ [t] /\
              trade_type t = "SELL"%string /\
              trade_profit_loss t = Some ((current_price - entry_price p) * size p).
Proof.
  intros Hwf Hp closed Hcall.
  destruct (Hwf p Hp) as (Ht & Hs & He).
  destruct Hcall as [->|[Hsym ->]].
  - rewrite (force_close_position_closes self current_price reason sym p Hp Ht).
    now apply settle_books.
  - rewrite (execute_trade_held get_ohlcv_data self SELL signal_strength
               current_price sym p Hp).
    destruct (String.eqb_spec (symbol p) sym) as [_|Hne]; [|contradiction].
    cbn [Action_eqb]. unfold close_position. cbv zeta.
    destruct (Qeqb_spec (entry_price p * size p) 0) as [Hz|_].
    + exfalso. apply He. nra.
    + now apply settle_books.
Qed.

(** X10.  A BUY from the flat state followed by a SELL of the same instrument
    drops the position again and counts one trade.  The balance is debited by
    [size * entry] and then credited with [size * exit], in that order; the
    BUY record and the SELL record, with the profit
    [(exit - entry) * size], are appended in that order. *)
Theorem open_close_balance (get_ohlcv_data sell_time_data : Exchange) (self : Bot)
  (buy_strength sell_strength : Z) (entry exit : Q) (sym : string) :
  position self = None ->
  0 < calculate_position_size get_ohlcv_data self entry (entry * (1 - 0.015)) sym ->
  let position_size :=
    calculate_position_size get_ohlcv_data self entry (entry * (1 - 0.015)) sym in
  let opened := execute_trade get_ohlcv_data self BUY buy_strength entry sym in
  let closed := execute_trade sell_time_data opened SELL sell_strength exit sym in
  position closed = None /\
  balance closed = balance self - position_size * entry + position_size * exit /\
  total_trades closed = (total_trades self + 1)%Z /\
  trades closed
  = trades self
    ++ [ {| trade_type := "BUY"; trade_symbol := sym; trade_price := entry;
            trade_size := position_size; trade_profit_loss := None;
            trade_reason := None |};
         {| trade_type := "SELL"; trade_symbol := sym; trade_price := exit;
            trade_size := position_size;
            trade_profit_loss := Some ((exit - entry) * position_size);
            trade_reason := None |} ].
Proof.
  intros Hflat Hpos. cbv zeta.
  rewrite (execute_trade_flat get_ohlcv_data self BUY buy_strength entry sym Hflat).
  cbn [Action_eqb]. unfold open_position. cbv zeta.
  destruct (Qgtb_spec (calculate_position_size get_ohlcv_data self entry
                         (entry * (1 - 0.015)) sym) 0) as [_|Hno]; [|contradiction].
  set (size0 := calculate_position_size get_ohlcv_data self entry (entry * (1 - 0.015)) sym) in *.
  match goal with |- context [execute_trade sell_time_data ?o _ _ _ _] => set (opened := o) end.
  rewrite (execute_trade_held sell_time_data opened SELL sell_strength exit sym
             _ eq_refl).
  cbn [symbol]. rewrite String.eqb_refl. cbn [Action_eqb].
  unfold close_position. cbv zeta. cbn [entry_price size].
  assert (Hentry : ~ entry == 0).
  { intros Hz. unfold size0, calculate_position_size in Hpos.
    rewrite (position_size_for_zero_price _ _ _ _ Hz) in Hpos.
    now apply (Qlt_irrefl 0). }
  destruct (Qeqb_spec (entry * size0) 0) as [Hz|_].
  { exfalso. apply Hentry. nra. }
  cbn. rewrite <- app_assoc. cbn [app].
  split; [reflexivity|]. split; [reflexivity|]. split; reflexivity.
Qed.

(** ** Position Manager: how much a BUY can commit *)

Lemma notional_cap_bound (balance score : Q) :
  0 <= balance -> Spec.notional_cap balance score <= balance * 0.15.
Proof.
  intros Hb. unfold Spec.notional_cap.
  pose proof (Q.le_min_l 0.15 (0.08 * (score / 50))) as Hmin.
  nra.
Qed.

(** The notional of any computed size is within the cap, hence within 15% of
    a non-negative balance. *)
Lemma position_size_for_notional (balance risk_per_trade current_price score : Q) :
  0 <= balance ->
  0 < position_size_for balance risk_per_trade current_price
        (current_price * (1 - 0.015)) score ->
  position_size_for balance risk_per_trade current_price
    (current_price * (1 - 0.015)) score * current_price
  <= Spec.notional_cap balance score.
Proof.
  intros Hb Hpos.
  pose proof (position_size_for_unfold balance risk_per_trade current_price
                (current_price * (1 - 0.015)) score) as Hsize.
  cbv zeta in Hsize. rewrite Hsize in *. clear Hsize.
  set (raw := Spec.scaled_risk balance risk_per_trade score
              / Qabs (current_price - current_price * (1 - 0.015))) in *.
  destruct (Qeq_bool _ 0); [now apply Qlt_irrefl in Hpos|].
  destruct (Qgtb_spec (raw * current_price) (Spec.notional_cap balance score))
    as [Hover|Hfits].
  - destruct (Qeqb_spec current_price 0) as [Hz|Hnz]; [now apply Qlt_irrefl in Hpos|].
    assert (Hcut : Spec.notional_cap balance score / current_price * current_price
                   == Spec.notional_cap balance score) by now field.
    rewrite Hcut. apply Qle_refl.
  - now apply Qnot_lt_le.
Qed.

Lemma open_position_balance_floor (get_ohlcv_data : Exchange) (self : Bot)
  (signal_strength : Z) (current_price : Q) (sym : string) :
  0 <= balance self ->
  balance self * 0.85
  <= balance (open_position get_ohlcv_data self signal_strength current_price sym).
Proof.
  intros Hb.
  destruct (Qlt_le_dec 0 (calculate_position_size get_ohlcv_data self current_price
                            (current_price * (1 - 0.015)) sym)) as [Hpos|Hno].
  - destruct (open_position_opened get_ohlcv_data self signal_strength
                current_price sym Hpos) as (_ & Hbal & _).
    rewrite Hbal.
    pose proof (position_size_for_notional (balance self) (risk_per_trade self)
                  current_price (analyze_coin_potential get_ohlcv_data sym) Hb Hpos)
      as Hcap.
    pose proof (notional_cap_bound (balance self)
                  (analyze_coin_potential get_ohlcv_data sym) Hb) as Hmax.
    fold (calculate_position_size get_ohlcv_data self current_price
            (current_price * (1 - 0.015)) sym) in Hcap.
    lra.
  - rewrite open_position_rejected; [lra|]. now apply Qle_not_lt.
Qed.

(** X11.  A position opened by a BUY from the flat state is entered at the
    current price with a positive size: the risk budget divided by the stop
    distance, 1.5% of the price, when the notional of that size is within
    the cap, and the cap divided by the price otherwise.  The cap is at most
    15% of a non-negative balance, and the balance is debited by
    [size * entry_price]. *)
Theorem buy_is_sized_by_risk_or_cap (get_ohlcv_data : Exchange) (self : Bot)
  (signal_strength : Z) (current_price : Q) (sym : string) (p : Position) :
  position self = None ->
  0 <= balance self ->
  let opened := execute_trade get_ohlcv_data self BUY signal_strength current_price sym in
  position opened = Some p ->
  let score := analyze_coin_potential get_ohlcv_data sym in
  let cap := Spec.notional_cap (balance self) score in
  let raw := Spec.scaled_risk (balance self) (risk_per_trade self) score
             / Qabs (current_price - current_price * (1 - 0.015)) in
  entry_price p = current_price /\
  0 < size p /\
  ((size p == raw /\ size p * entry_price p <= cap) \/
   (cap < raw * current_price /\ size p == cap / current_price)) /\
  cap <= balance self * 0.15 /\
  balance opened = balance self - size p * entry_price p.
Proof.
  intros Hflat Hb opened Hp score cap raw. subst opened.
  rewrite (execute_trade_flat get_ohlcv_data self BUY signal_strength
             current_price sym Hflat) in *.
  cbn [Action_eqb] in *.
  destruct (Qlt_le_dec 0 (calculate_position_size get_ohlcv_data self current_price
                            (current_price * (1 - 0.015)) sym)) as [Hpos|Hno].
  2: { rewrite open_position_rejected in Hp; [congruence|]. now apply Qle_not_lt. }
  destruct (open_position_opened get_ohlcv_data self signal_strength
              current_price sym Hpos)
    as ((q & Hq & He & Hs & _) & Hbal & _).
  assert (q = p) by congruence. subst q.
  split; [exact He|]. split; [now rewrite Hs|].
  split; [|split; [now apply notional_cap_bound|now rewrite Hbal, He, Hs]].
  rewrite Hs, He. unfold calculate_position_size in *. fold score in Hpos |- *.
  pose proof (position_size_for_unfold (balance self) (risk_per_trade self) current_price
                (current_price * (1 - 0.015)) score) as Hsize.
  cbv zeta in Hsize. fold raw cap in Hsize.
  destruct (Qeq_bool (Qabs (current_price - current_price * (1 - 0.015))) 0).
  { rewrite Hsize in Hpos. now apply Qlt_irrefl in Hpos. }
  destruct (Qgtb_spec (raw * current_price) cap) as [Hover|Hfits].
  - right. split; [exact Hover|].
    destruct (Qeqb_spec current_price 0) as [Hz|_]; [|exact Hsize].
    rewrite Hsize in Hpos. now apply Qlt_irrefl in Hpos.
  - left. split; [exact Hsize|]. rewrite Hsize. now apply Qnot_lt_le.
Qed.

Lemma notional_cap_zero_score (balance score : Q) :
  score == 0 -> Spec.notional_cap balance score == 0.
Proof.
  intros Hz. unfold Spec.notional_cap.
  assert (Hmin : Qmin 0.15 (0.08 * (score / 50)) == 0.08 * (score / 50)).
  { apply Q.min_r. rewrite Hz. vm_compute. intros H; discriminate H. }
  rewrite Hmin, Hz. field.
Qed.

(** X12.  When the opportunity score computed at sizing time is 0 (as with
    fewer than 50 bars or a failed request), a BUY signal at a non-negative
    price leaves the state unchanged. *)
Theorem zero_score_opens_nothing (get_ohlcv_data : Exchange) (self : Bot)
  (signal_strength : Z) (current_price : Q) (sym : string) :
  position self = None ->
  0 <= current_price ->
  analyze_coin_potential get_ohlcv_data sym == 0 ->
  execute_trade get_ohlcv_data self BUY signal_strength current_price sym = self.
Proof.
  intros Hflat Hprice Hscore.
  rewrite (execute_trade_flat get_ohlcv_data self BUY signal_strength
             current_price sym Hflat).
  cbn [Action_eqb]. apply open_position_rejected.
  unfold calculate_position_size. intros Hpos.
  pose proof (position_size_for_unfold (balance self) (risk_per_trade self) current_price
                (current_price * (1 - 0.015))
                (analyze_coin_potential get_ohlcv_data sym)) as Hsize.
  cbv zeta in Hsize. rewrite Hsize in Hpos. clear Hsize.
  pose proof (notional_cap_zero_score (balance self) _ Hscore) as Hcap.
  set (raw := Spec.scaled_risk (balance self) (risk_per_trade self)
                (analyze_coin_potential get_ohlcv_data sym)
              / Qabs (current_price - current_price * (1 - 0.015))) in *.
  set (cap := Spec.notional_cap (balance self)
                (analyze_coin_potential get_ohlcv_data sym)) in *.
  destruct (Qeq_bool _ 0); [now apply Qlt_irrefl in Hpos|].
  destruct (Qgtb_spec (raw * current_price) cap) as [Hover|Hfits].
  - destruct (Qeqb_spec current_price 0) as [Hz|Hnz]; [now apply Qlt_irrefl in Hpos|].
    assert (Hq : cap / current_price == 0).
    { rewrite Hcap. field. exact Hnz. }
    rewrite Hq in Hpos. now apply Qlt_irrefl in Hpos.
  - apply Hfits. rewrite Hcap. apply Qmult_lt_0_compat; [exact Hpos|].
    destruct (Qle_lt_or_eq _ _ Hprice) as [Hlt|Heq]; [exact Hlt|].
    exfalso. unfold raw in Hpos.
    assert (Hd : Qabs (current_price - current_price * (1 - 0.015)) == 0).
    { assert (Hd0 : current_price - current_price * (1 - 0.015) == 0) by lra.
      rewrite Hd0. reflexivity. }
    rewrite Hd in Hpos. unfold Qdiv in Hpos.
    assert (Hinv : / 0 == 0) by reflexivity.
    rewrite Hinv, Qmult_0_r in Hpos. now apply Qlt_irrefl in Hpos.
Qed.

(** X13.  On a state whose position the bot opened, a call at a non-negative
    price keeps a non-negative balance non-negative. *)
Theorem balance_stays_non_negative (get_ohlcv_data : Exchange) (self : Bot) (c : Call) :
  well_formed self ->
  0 <= balance self ->
  0 <= call_price c ->
  0 <= balance (run_call get_ohlcv_data self c).
Proof.
  intros Hwf Hb Hprice.
  assert (Hsettle : forall held q reason sym x,
             balance held = balance self -> 0 < size q -> 0 <= x ->
             0 <= balance (set_position (settle held q x reason sym) None)).
  { intros held q reason sym x Hbal Hs Hx. cbn. rewrite Hbal. nra. }
  assert (Hmanage : forall x sym, 0 <= x ->
             0 <= balance (manage_open_position self x sym)).
  { intros x sym Hx.
    destruct (position self) as [p|] eqn:Hp.
    - destruct (Hwf p Hp) as (Ht & Hs & _).
      rewrite (manage_open_position_buy self x sym p Hp Ht). cbv zeta.
      assert (Hsq : 0 < size (trailing_stop p x)).
      { now rewrite (proj1 (proj2 (trailing_stop_frame p x))). }
      destruct (Qle_bool _ _); [|destruct (Qgeb _ _)];
        try (apply Hsettle; [reflexivity|exact Hsq|exact Hx]).
      exact Hb.
    - now rewrite (manage_open_position_flat self x sym Hp). }
  destruct c as [signal strength price sym|price sym|price reason sym];
    cbn [run_call call_price] in *.
  - destruct (position self) as [p|] eqn:Hp.
    + rewrite (execute_trade_held get_ohlcv_data self signal strength price sym p Hp).
      destruct (String.eqb (symbol p) sym); [|exact Hb].
      destruct (Action_eqb signal SELL); [|now apply Hmanage].
      destruct (Hwf p Hp) as (_ & Hs & _).
      destruct (close_position_books self p price sym) as (_ & Hbal & _).
      rewrite Hbal. nra.
    + rewrite (execute_trade_flat get_ohlcv_data self signal strength price sym Hp).
      destruct (Action_eqb signal BUY); [|exact Hb].
      pose proof (open_position_balance_floor get_ohlcv_data self strength price sym Hb).
      lra.
  - now apply Hmanage.
  - destruct (position self) as [p|] eqn:Hp.
    + destruct (Hwf p Hp) as (Ht & Hs & _).
      rewrite (force_close_position_closes self price reason sym p Hp Ht).
      apply Hsettle; [reflexivity|exact Hs|exact Hprice].
    + unfold force_close_position. now rewrite Hp.
Qed.

(** ** Signal Engine: the range of the strength *)

Lemma count_true_range (l : list bool) :
  (0 <= count_true l <= Z.of_nat (length l))%Z.
Proof.
  induction l as [|b l IH]; [cbn; lia|].
  cbn [count_true fold_right length]. fold (count_true l). destruct b; lia.
Qed.

Lemma buy_score_range (v : Values) (sym : string) : (0 <= buy_score v sym <= 19)%Z.
Proof.
  unfold buy_score.
  pose proof (count_true_range (strong_buy_conditions v)) as H.
  cbn [strong_buy_conditions length] in H. cbv zeta.
  destruct (existsb _ _); [destruct (fgt _ _), (fgt _ _)|]; lia.
Qed.

Lemma sell_score_range (pos : option Position) (v : Values) :
  (0 <= sell_score pos v <= 8)%Z.
Proof.
  unfold sell_score.
  pose proof (count_true_range (strong_sell_conditions pos v)) as H.
  cbn [strong_sell_conditions length] in H. lia.
Qed.

Lemma sell_score_flat (v : Values) : (sell_score None v <= 7)%Z.
Proof.
  unfold sell_score, strong_sell_conditions. cbn [position_and].
  cbn [count_true fold_right].
  repeat match goal with |- context [if ?b then _ else _] => destruct b end; lia.
Qed.

Lemma buy_signal_strength
  (pos : option Position) (df : option (list Frame.Row)) (sym : string) (strength : Z) :
  aggressive_profit_strategy pos df sym = (BUY, strength) -> (8 <= strength <= 19)%Z.
Proof.
  unfold aggressive_profit_strategy.
  destruct df as [rows|]; [|discriminate].
  destruct (length rows <? 50)%nat; [discriminate|].
  destruct (nth_error rows (length rows - 1)) as [current|]; [|discriminate].
  cbv zeta. pose proof (buy_score_range (extract current) sym) as Hb.
  destruct (Z.leb_spec 8 (buy_score (extract current) sym)) as [H8|H8].
  - intros H. injection H as <-. lia.
  - destruct (_ || _); discriminate.
Qed.

(** X6.  The strength returned by [aggressive_profit_strategy] goes with the
    action: 8 to 19 for BUY, 0 to 8 for SELL (4 to 7 when no position is
    held), and 0 for HOLD. *)
Theorem signal_strength_range
  (pos : option Position) (df : option (list Frame.Row)) (sym : string) :
  match aggressive_profit_strategy pos df sym with
  | (BUY, strength) => (8 <= strength <= 19)%Z
  | (SELL, strength) =>
      (0 <= strength <= 8)%Z /\
      (pos = None -> (4 <= strength <= 7)%Z)
  | (HOLD, strength) => strength = 0%Z
  end.
Proof.
  unfold aggressive_profit_strategy.
  destruct df as [rows|]; [|reflexivity].
  destruct (length rows <? 50)%nat; [reflexivity|].
  destruct (nth_error rows (length rows - 1)) as [current|]; [|reflexivity].
  cbv zeta.
  pose proof (buy_score_range (extract current) sym) as Hb.
  pose proof (sell_score_range pos (extract current)) as Hs.
  destruct (Z.leb_spec 8 (buy_score (extract current) sym)) as [H8|H8]; [lia|].
  destruct (Z.leb_spec 4 (sell_score pos (extract current))) as [H4|H4]; cbn [orb].
  - split; [exact Hs|]. intros ->.
    pose proof (sell_score_flat (extract current)). lia.
  - destruct (position_and pos _) eqn:Hstop; [|reflexivity].
    split; [exact Hs|]. intros ->. discriminate Hstop.
Qed.

(** ** Signal Engine: a row without indicators *)

Lemma Qltb_irrefl (a : Q) : Qltb a a = false.
Proof.
  destruct (Qltb_spec a a) as [H|_]; [|reflexivity]. now apply Qlt_irrefl in H.
Qed.

Lemma no_indicators_buy_score (current : Frame.Row) (sym : string) :
  no_indicators current -> (buy_score (extract current) sym <= 6)%Z.
Proof.
  destruct current as [c m10 m20 m50 r7 r14 mc ms vr bu bm sk sd mo pc].
  unfold no_indicators. cbn [Frame.MA_10 Frame.MA_20 Frame.MA_50 Frame.RSI_7
    Frame.RSI_14 Frame.MACD Frame.MACD_Signal Frame.Volume_Ratio Frame.BB_Upper
    Frame.BB_Middle Frame.Stoch_K Frame.Stoch_D Frame.Momentum Frame.Price_Change].
  intros (-> & -> & -> & -> & -> & -> & -> & -> & -> & -> & -> & -> & -> & ->).
  unfold buy_score, strong_buy_conditions, extract, high_vol_coins.
  cbn [ma_10 ma_20 ma_50 rsi_7 macd macd_signal volume_ratio bb_upper stoch_k stoch_d
       momentum price_change current_close Frame.close Frame.MA_10 Frame.MA_20
       Frame.MA_50 Frame.RSI_7 Frame.MACD Frame.MACD_Signal Frame.Volume_Ratio
       Frame.BB_Upper Frame.Stoch_K Frame.Stoch_D Frame.Momentum Frame.Price_Change
       safe_value].
  match goal with
  | |- context [fgt ?a (fmul ?b (Some 0.98))] =>
      generalize (fgt a (fmul b (Some 0.98))) as near_band
  end.
  match goal with
  | |- context [existsb ?f ?l] => generalize (existsb f l) as high_vol
  end.
  intros [|] [|]; vm_compute; intros H; discriminate H.
Qed.

Lemma no_indicators_sell_score (pos : option Position) (current : Frame.Row) :
  no_indicators current ->
  sell_score pos (extract current)
  = if position_and pos
         (fun p => fge (current_close (extract current)) (Some (entry_price p * 1.08)))
    then 1%Z else 0%Z.
Proof.
  destruct current as [c m10 m20 m50 r7 r14 mc ms vr bu bm sk sd mo pc].
  unfold no_indicators. cbn [Frame.MA_10 Frame.MA_20 Frame.MA_50 Frame.RSI_7
    Frame.RSI_14 Frame.MACD Frame.MACD_Signal Frame.Volume_Ratio Frame.BB_Upper
    Frame.BB_Middle Frame.Stoch_K Frame.Stoch_D Frame.Momentum Frame.Price_Change].
  intros (-> & -> & -> & -> & -> & -> & -> & -> & -> & -> & -> & -> & -> & ->).
  unfold sell_score, strong_sell_conditions, extract.
  cbn [ma_10 ma_20 rsi_14 macd macd_signal volume_ratio bb_middle stoch_k stoch_d
       momentum current_close Frame.close Frame.MA_10 Frame.MA_20 Frame.RSI_14
       Frame.MACD Frame.MACD_Signal Frame.Volume_Ratio Frame.BB_Middle Frame.Stoch_K
       Frame.Stoch_D Frame.Momentum safe_value].
  assert (Hmid : flt (safe_value c (Some 0)) c = false).
  { destruct c as [x|]; [apply Qltb_irrefl|reflexivity]. }
  rewrite Hmid.
  match goal with
  | |- context [position_and pos ?f] => generalize (position_and pos f) as locked
  end.
  intros [|]; vm_compute; reflexivity.
Qed.

(** X7.  A latest row that has its close but no indicator defined never
    gives BUY: without a position the answer is HOLD with strength 0; with
    one it is SELL exactly when the close (read as 0 when it is NaN) is at or
    below the stop, and HOLD with strength 0 otherwise. *)
Theorem missing_indicators_are_neutral
  (pos : option Position) (rows : list Frame.Row) (sym : string) (current : Frame.Row) :
  (50 <= length rows)%nat ->
  nth_error rows (length rows - 1) = Some current ->
  no_indicators current ->
  let close_or_zero := nan_to 0 (Frame.close current) in
  match pos with
  | None => aggressive_profit_strategy pos (Some rows) sym = (HOLD, 0%Z)
  | Some p =>
      (close_or_zero <= stop_loss p ->
       fst (aggressive_profit_strategy pos (Some rows) sym) = SELL) /\
      (stop_loss p < close_or_zero ->
       aggressive_profit_strategy pos (Some rows) sym = (HOLD, 0%Z))
  end.
Proof.
  intros Hlen Hcur Hnone close_or_zero.
  assert (Hrun : aggressive_profit_strategy pos (Some rows) sym
                 = if position_and pos
                        (fun p => fle (current_close (extract current)) (Some (stop_loss p)))
                   then (SELL, sell_score pos (extract current))
                   else (HOLD, 0%Z)).
  { unfold aggressive_profit_strategy.
    destruct (Nat.ltb_spec (length rows) 50); [lia|]. rewrite Hcur. cbv zeta.
    pose proof (no_indicators_buy_score current sym Hnone) as Hb.
    destruct (Z.leb_spec 8 (buy_score (extract current) sym)); [lia|].
    rewrite (no_indicators_sell_score pos current Hnone).
    destruct (position_and pos (fun p => fge _ _)); reflexivity. }
  assert (Hclose : current_close (extract current) = Some close_or_zero).
  { unfold extract, close_or_zero. cbn [current_close].
    destruct (Frame.close current); reflexivity. }
  rewrite Hrun, Hclose. destruct pos as [p|]; [|reflexivity].
  cbn [position_and fle].
  destruct (Qleb_spec close_or_zero (stop_loss p)) as [Hle|Hgt].
  - split; [reflexivity|]. intros Hlt. exfalso. now apply (Qlt_not_le _ _ Hlt).
  - split; [intros Hle; contradiction|reflexivity].
Qed.

(** ** Windows and means *)

Lemma In_firstn {A : Type} (n : nat) (l : list A) (x : A) :
  In x (firstn n l) -> In x l.
Proof.
  revert l. induction n as [|n IH]; intros [|a l] H; cbn in H; try contradiction.
  destruct H as [->|H]; [now left|right; now apply IH].
Qed.

Lemma In_skipn {A : Type} (n : nat) (l : list A) (x : A) :
  In x (skipn n l) -> In x l.
Proof.
  revert l. induction n as [|n IH]; intros [|a l] H; cbn in H; try contradiction.
  - exact H.
  - right. now apply IH.
Qed.

Lemma window_In (w i : nat) (l : list Q) (x : Q) : In x (window w i l) -> In x l.
Proof. unfold window. intros H. apply In_skipn with (n := (i + 1 - w)%nat). now apply In_firstn in H. Qed.

Lemma window_length (w i : nat) (l : list Q) :
  (w <= i + 1)%nat -> (i < length l)%nat -> length (window w i l) = w.
Proof.
  intros Hw Hi. unfold window. rewrite length_firstn, length_skipn. lia.
Qed.

Lemma sum_bounds (a b : Q) (l : list Q) :
  Forall (fun x => a <= x <= b) l ->
  a * inject_Z (Z.of_nat (length l)) <= sum l <= b * inject_Z (Z.of_nat (length l)).
Proof.
  induction 1 as [|x l [Hax Hxb] _ [IHa IHb]].
  { cbn [length Z.of_nat sum fold_right]. change (inject_Z 0) with 0. split; lra. }
  cbn [sum fold_right length]. fold (sum l).
  rewrite Nat2Z.inj_succ. unfold Z.succ. rewrite inject_Z_plus.
  change (inject_Z 1) with 1.
  set (n := inject_Z (Z.of_nat (length l))) in *.
  split; nra.
Qed.

Lemma mean_bounds (a b : Q) (l : list Q) (m : Q) :
  Forall (fun x => a <= x <= b) l -> mean l = Some m -> a <= m <= b.
Proof.
  intros Hall Hm. destruct l as [|x l]; [discriminate Hm|].
  injection Hm as <-.
  destruct (sum_bounds a b (x :: l) Hall) as [Hlow Hhigh].
  assert (Hn : 0 < inject_Z (Z.of_nat (length (x :: l)))).
  { rewrite <- (Zlt_Qlt 0). cbn [length]. lia. }
  split.
  - apply Qle_shift_div_l; [exact Hn|exact Hlow].
  - apply Qle_shift_div_r; [exact Hn|exact Hhigh].
Qed.

Lemma mean_non_negative (l : list Q) (m : Q) :
  Forall (fun x => 0 <= x) l -> mean l = Some m -> 0 <= m.
Proof.
  intros Hall Hm. destruct l as [|x l]; [discriminate Hm|].
  injection Hm as <-.
  assert (Hs : 0 <= sum (x :: l)).
  { induction Hall as [|y r Hy _ IH]; [cbn [sum fold_right]; lra|].
    cbn [sum fold_right]. fold (sum r). lra. }
  assert (Hn : 0 < inject_Z (Z.of_nat (length (x :: l)))).
  { rewrite <- (Zlt_Qlt 0). cbn [length]. lia. }
  apply Qle_shift_div_l; [exact Hn|]. rewrite Qmult_0_l. exact Hs.
Qed.

(** Every entry of a rolling aggregate is NaN or the aggregate of a window
    of the series. *)
Lemma rolling_entries (P : float -> Prop) (w : nat) (f : list Q -> float) (l : list Q) :
  P None ->
  (forall i, (i < length l)%nat -> (w <= i + 1)%nat -> P (f (window w i l))) ->
  Forall P (rolling w f l).
Proof.
  intros Hnan Hwin. unfold rolling. apply Forall_map, Forall_forall.
  intros i Hi. apply in_seq in Hi.
  destruct (Nat.ltb_spec (i + 1) w); [exact Hnan|]. apply Hwin; lia.
Qed.

(** ** RSI *)

Lemma calculate_rsi_length (prices : list Q) (period : nat) :
  length (calculate_rsi prices period) = length prices.
Proof.
  unfold calculate_rsi. destruct (length prices <? period)%nat.
  - apply repeat_length.
  - cbv zeta. unfold fillna_const.
    rewrite !length_map, length_combine, !length_map.
    unfold rolling_mean. rewrite !rolling_length, !length_map.
    unfold diff. rewrite length_map, length_seq. lia.
Qed.

Lemma rsi_value_range (g : float) (d : Q) :
  (forall x, g = Some x -> 0 <= x) -> 0 < d ->
  0 <= nan_to 50 (fsub (Some 100) (fdiv (Some 100) (fadd (Some 1) (fdiv g (Some d)))))
    <= 100.
Proof.
  intros Hg Hd. destruct g as [x|]; [|cbn; split; lra].
  specialize (Hg x eq_refl). cbn [fdiv].
  destruct (Qeqb_spec d 0) as [Hz|_]; [lra|]. cbn [fadd fdiv].
  assert (Hr : 0 <= x / d) by (apply Qle_shift_div_l; lra).
  destruct (Qeqb_spec (1 + x / d) 0) as [Hz|_]; [lra|]. cbn [fsub nan_to].
  assert (Hq : 0 <= 100 / (1 + x / d) <= 100).
  { split.
    - apply Qle_shift_div_l; lra.
    - apply Qle_shift_div_r; lra. }
  split; lra.
Qed.

Lemma gain_non_negative (d : float) : 0 <= (if fgt d (Some 0) then nan_to 0 d else 0).
Proof.
  destruct d as [v|]; cbn [fgt flt nan_to]; [|lra].
  destruct (Qltb_spec 0 v); lra.
Qed.

Lemma loss_non_negative (d : float) : 0 <= - (if flt d (Some 0) then nan_to 0 d else 0).
Proof.
  destruct d as [v|]; cbn [flt nan_to]; [|lra].
  destruct (Qltb_spec v 0); lra.
Qed.

Lemma rolling_mean_non_negative {A : Type} (f : A -> Q) (period : nat) (l : list A) :
  (forall a, 0 <= f a) ->
  Forall (fun m : float => forall x, m = Some x -> 0 <= x) (rolling_mean period (map f l)).
Proof.
  intros Hf. unfold rolling_mean.
  apply rolling_entries; [intros x H; discriminate H|].
  intros i _ _ x Hx. apply (mean_non_negative (window period i (map f l))); [|exact Hx].
  apply Forall_forall. intros y Hy. apply window_In in Hy.
  apply in_map_iff in Hy. destruct Hy as (a & <- & _). apply Hf.
Qed.

Lemma calculate_rsi_range (prices : list Q) (period : nat) :
  Forall (fun r => 0 <= r <= 100) (calculate_rsi prices period).
Proof.
  unfold calculate_rsi. destruct (length prices <? period)%nat.
  - apply Forall_forall. intros r Hr. apply repeat_spec in Hr. subst r. split; lra.
  - cbv zeta. unfold fillna_const. rewrite !Forall_map.
    apply Forall_forall. intros [g d] Hin. cbn [fst snd].
    apply rsi_value_range.
    + apply in_combine_l in Hin.
      pose proof (rolling_mean_non_negative _ period (diff prices) gain_non_negative)
        as Hgain.
      rewrite Forall_forall in Hgain. exact (Hgain g Hin).
    + apply in_combine_r in Hin. apply in_map_iff in Hin.
      destruct Hin as (a & <- & Ha).
      assert (Hnn : forall x, a = Some x -> 0 <= x).
      { pose proof (rolling_mean_non_negative _ period (diff prices) loss_non_negative)
          as Hloss.
        rewrite Forall_forall in Hloss. exact (Hloss a Ha). }
      destruct a as [v|]; [|lra].
      specialize (Hnn v eq_refl).
      destruct (Qeqb_spec v 0) as [Hz|Hnz]; [lra|].
      destruct (Qle_lt_or_eq _ _ Hnn) as [Hlt|Heq]; [exact Hlt|].
      exfalso. apply Hnz. now symmetry.
Qed.

(** ** Series, row by row *)

Lemma Forall_nth_error {A : Type} (P : A -> Prop) (l : list A) :
  (forall i x, nth_error l i = Some x -> P x) -> Forall P l.
Proof.
  intros H. apply Forall_forall. intros x Hx.
  apply In_nth_error in Hx. destruct Hx as [i Hi]. now apply (H i).
Qed.

Lemma zip_with_nth {A B C : Type} (f : A -> B -> C) (l : list A) (l' : list B) (i : nat) :
  nth_error (zip_with f l l') i
  = match nth_error l i, nth_error l' i with
    | Some a, Some b => Some (f a b)
    | _, _ => None
    end.
Proof.
  unfold zip_with. revert l' i. induction l as [|a l IH]; intros l' i.
  - destruct i; reflexivity.
  - destruct l' as [|b l']; [destruct i; cbn; [reflexivity|]; now destruct (nth_error l i)|].
    destruct i as [|i]; [reflexivity|]. cbn [combine map nth_error]. apply IH.
Qed.

Lemma zip_with_length {A B C : Type} (f : A -> B -> C) (l : list A) (l' : list B) :
  length (zip_with f l l') = Nat.min (length l) (length l').
Proof. unfold zip_with. now rewrite length_map, length_combine. Qed.

Lemma window_last (w i : nat) (l : list Q) (x : Q) :
  (1 <= w)%nat -> (w <= i + 1)%nat -> nth_error l i = Some x -> In x (window w i l).
Proof.
  intros Hw Hi Hx. unfold window. apply (nth_error_In _ (w - 1)).
  rewrite nth_error_firstn.
  destruct (Nat.ltb_spec (w - 1) w); [|lia].
  rewrite nth_error_skipn. replace (i + 1 - w + (w - 1))%nat with i by lia. exact Hx.
Qed.

Lemma min_of_lower (l : list Q) (m x : Q) : min_of l = Some m -> In x l -> m <= x.
Proof.
  destruct l as [|a r]; [discriminate|]. intros Hm. injection Hm as <-.
  revert a x. induction r as [|b r IH]; intros a x Hin; cbn [fold_left].
  - destruct Hin as [->|[]]. apply Qle_refl.
  - destruct Hin as [->|[->|Hin]].
    + eapply Qle_trans; [apply (IH (Qmin x b) (Qmin x b)); now left|apply Q.le_min_l].
    + eapply Qle_trans; [apply (IH (Qmin a x) (Qmin a x)); now left|apply Q.le_min_r].
    + apply IH. now right.
Qed.

Lemma max_of_upper (l : list Q) (m x : Q) : max_of l = Some m -> In x l -> x <= m.
Proof.
  destruct l as [|a r]; [discriminate|]. intros Hm. injection Hm as <-.
  revert a x. induction r as [|b r IH]; intros a x Hin; cbn [fold_left].
  - destruct Hin as [->|[]]. apply Qle_refl.
  - destruct Hin as [->|[->|Hin]].
    + eapply Qle_trans; [apply Q.le_max_l|apply (IH (Qmax x b) (Qmax x b)); now left].
    + eapply Qle_trans; [apply Q.le_max_r|apply (IH (Qmax a x) (Qmax a x)); now left].
    + apply IH. now right.
Qed.

(** ** Stochastic *)

Lemma stochastic_value_range (c l h : Q) :
  l <= c -> c <= h ->
  forall v, fmul (Some 100) (fdiv (fsub (Some c) (Some l)) (fsub (Some h) (Some l))) = Some v ->
            0 <= v <= 100.
Proof.
  intros Hl Hh v. cbn [fsub fdiv].
  destruct (Qeqb_spec (h - l) 0) as [Hz|Hnz]; [discriminate|].
  cbn [fmul]. intros Hv. injection Hv as <-.
  assert (Hpos : 0 < h - l).
  { destruct (Qle_lt_or_eq 0 (h - l)) as [H|H]; [lra|exact H|]. exfalso. apply Hnz. now symmetry. }
  assert (Hq : 0 <= (c - l) / (h - l) <= 1).
  { split; [apply Qle_shift_div_l|apply Qle_shift_div_r]; lra. }
  split; lra.
Qed.

Lemma combine_nth_error_inv {A B : Type} (l : list A) (l' : list B) (i : nat) (a : A) (b : B) :
  nth_error (combine l l') i = Some (a, b) ->
  nth_error l i = Some a /\ nth_error l' i = Some b.
Proof.
  revert l' i. induction l as [|x l IH]; intros l' i H.
  - destruct i; discriminate H.
  - destruct l' as [|y l']; [destruct i; discriminate H|].
    destruct i as [|i]; cbn in *; [injection H as -> ->; now split|now apply IH].
Qed.

(** The unfilled %K column of [calculate_stochastic]. *)
Lemma stochastic_raw_range (df : list Bar) (period : nat) (i : nat) (v : Q) :
  Forall bar_in_order df ->
  nth_error
    (map (fmul (Some 100))
       (zip_with (fun c lh => fdiv (fsub (Some c) (fst lh)) (fsub (snd lh) (fst lh)))
          (map close df)
          (combine (rolling period min_of (map low df))
                   (rolling period max_of (map high df))))) i = Some (Some v) ->
  0 <= v <= 100.
Proof.
  intros Hbars Hv. rewrite nth_error_map, zip_with_nth, nth_error_map in Hv.
  destruct (nth_error df i) as [b|] eqn:Hb; [|discriminate Hv]. cbn [option_map] in Hv.
  destruct (nth_error (combine _ _) i) as [[lo hi]|] eqn:Hc; [|discriminate Hv].
  apply combine_nth_error_inv in Hc. destruct Hc as [Hlo Hhi].
  assert (Hi : (i < length df)%nat) by (apply nth_error_Some; congruence).
  rewrite rolling_nth in Hlo, Hhi by (rewrite length_map; exact Hi).
  injection Hlo as <-. injection Hhi as <-. cbn [option_map fst snd] in Hv.
  destruct (Nat.ltb_spec (i + 1) period) as [Hearly|Hfull]; [discriminate Hv|].
  destruct period as [|period]; [discriminate Hv|].
  destruct (min_of (window (S period) i (map low df))) as [lo|] eqn:Hlo;
    [|discriminate Hv].
  destruct (max_of (window (S period) i (map high df))) as [hi|] eqn:Hhi;
    [|discriminate Hv].
  assert (Horder : bar_in_order b).
  { rewrite Forall_forall in Hbars. apply Hbars. now apply nth_error_In in Hb. }
  destruct Horder as [Hlc Hch].
  assert (Hmin : lo <= low b).
  { apply (min_of_lower _ _ _ Hlo). apply window_last; [lia|lia|].
    now rewrite nth_error_map, Hb. }
  assert (Hmax : high b <= hi).
  { apply (max_of_upper _ _ _ Hhi). apply window_last; [lia|lia|].
    now rewrite nth_error_map, Hb. }
  injection Hv as Hv.
  apply (stochastic_value_range (close b) lo hi); [lra|lra|exact Hv].
Qed.

Lemma dropna_In (l : list float) (x : Q) : In x (dropna l) -> In (Some x) l.
Proof.
  induction l as [|[y|] l IH]; cbn; [contradiction| |].
  - intros [->|H]; [now left|right; now apply IH].
  - intros H. right. now apply IH.
Qed.

Lemma rolling_nan_entries (P : float -> Prop) (w : nat) (f : list Q -> float)
  (l : list float) :
  P None ->
  (forall win, (forall x, In x win -> In (Some x) l) -> P (f win)) ->
  Forall P (rolling_nan w f l).
Proof.
  intros Hnan Hwin. unfold rolling_nan. apply Forall_map, Forall_forall.
  intros i _. destruct (i + 1 <? w)%nat; [exact Hnan|]. cbv zeta.
  destruct (existsb isna _); [exact Hnan|]. apply Hwin.
  intros x Hx. apply dropna_In in Hx. apply In_firstn in Hx. now apply In_skipn in Hx.
Qed.

Lemma rolling_nan_length (w : nat) (f : list Q -> float) (l : list float) :
  length (rolling_nan w f l) = length l.
Proof. unfold rolling_nan. now rewrite length_map, length_seq. Qed.

Lemma calculate_stochastic_length (df : list Bar) (period : nat) :
  length (fst (calculate_stochastic df period)) = length df /\
  length (snd (calculate_stochastic df period)) = length df.
Proof.
  unfold calculate_stochastic. destruct (length df <? period)%nat; cbn [fst snd].
  - now rewrite repeat_length.
  - unfold fillna_const.
    rewrite !length_map, rolling_nan_length, !length_map, zip_with_length,
      length_combine, !rolling_length, !length_map.
    lia.
Qed.

Lemma calculate_stochastic_range (df : list Bar) (period : nat) :
  Forall bar_in_order df ->
  Forall (fun k => 0 <= k <= 100) (fst (calculate_stochastic df period)) /\
  Forall (fun d => 0 <= d <= 100) (snd (calculate_stochastic df period)).
Proof.
  intros Hbars. unfold calculate_stochastic.
  destruct (length df <? period)%nat; cbn [fst snd].
  - split; apply Forall_forall; intros r Hr; apply repeat_spec in Hr; subst r; split; lra.
  - set (raw := map (fmul (Some 100)) _).
    assert (Hraw : forall v, In (Some v) raw -> 0 <= v <= 100).
    { intros v Hv. apply In_nth_error in Hv. destruct Hv as [i Hi].
      now apply (stochastic_raw_range df period i v Hbars). }
    split; unfold fillna_const; rewrite Forall_map.
    + apply Forall_forall. intros [v|] Hv; cbn [nan_to]; [now apply Hraw|split; lra].
    + apply rolling_nan_entries; [cbn; split; lra|].
      intros win Hwin. destruct (mean win) as [m|] eqn:Hm; cbn [nan_to]; [|split; lra].
      apply (mean_bounds 0 100 win m); [|exact Hm].
      apply Forall_forall. intros x Hx. apply Hraw. now apply Hwin.
Qed.

Lemma calculate_rsi_warm_up (prices : list Q) (period i : nat) :
  (i < length prices)%nat -> (i + 1 < period)%nat ->
  nth_error (calculate_rsi prices period) i = Some 50.
Proof.
  intros Hi Hearly. unfold calculate_rsi.
  destruct (length prices <? period)%nat; [now apply nth_error_repeat|].
  cbv zeta. unfold fillna_const. rewrite !nth_error_map.
  assert (Hlen : length (diff prices) = length prices).
  { unfold diff. now rewrite length_map, length_seq. }
  rewrite (@combine_nth_error float Q _ _ i None 1).
  - reflexivity.
  - unfold rolling_mean. rewrite rolling_nth by (rewrite length_map, Hlen; exact Hi).
    destruct (Nat.ltb_spec (i + 1) period); [reflexivity|lia].
  - rewrite nth_error_map. unfold rolling_mean.
    rewrite rolling_nth by (rewrite length_map, Hlen; exact Hi).
    destruct (Nat.ltb_spec (i + 1) period); [reflexivity|lia].
Qed.

(** ** The frame of [calculate_indicators] *)

Lemma fillna_length (l : list float) (other : list Q) :
  length (fillna l other) = length l.
Proof.
  revert other. induction l as [|[x|] l IH]; intros [|y other]; cbn; try reflexivity;
    now rewrite IH.
Qed.

Lemma fillna_all_defined (l : list float) (other : list Q) :
  length l = length other -> Forall (fun x => x <> None) (fillna l other).
Proof.
  revert other. induction l as [|a l IH]; intros [|y other] Hlen; try discriminate Hlen.
  - constructor.
  - injection Hlen as Hlen. destruct a; cbn [fillna]; constructor;
      try (intros H; discriminate H); now apply IH.
Qed.

Lemma fill_all_defined (d : Q) (l : list float) :
  Forall (fun x => x <> None) (fill d l) /\ length (fill d l) = length l.
Proof.
  unfold fill, fillna_const. split.
  - apply Forall_map, Forall_forall. intros x _ H. discriminate H.
  - now rewrite !length_map.
Qed.

Lemma ewm_mean_length (span : nat) (l : list Q) : length (ewm_mean span l) = length l.
Proof. unfold ewm_mean. now rewrite length_map, length_seq. Qed.

Lemma calculate_macd_length (prices : list Q) (fast slow signal : nat) :
  length (fst (calculate_macd prices fast slow signal)) = length prices /\
  length (snd (calculate_macd prices fast slow signal)) = length prices.
Proof.
  unfold calculate_macd.
  destruct (length prices <? slow)%nat; [cbn [fst snd]; now rewrite repeat_length|].
  destruct (_ || _); cbn [fst snd]; [now rewrite repeat_length|].
  rewrite ewm_mean_length, zip_with_length, !ewm_mean_length. lia.
Qed.

Lemma calculate_bollinger_bands_length (sqrt : Q -> Q) (prices : list Q)
  (period : nat) (std : Q) :
  length (fst (calculate_bollinger_bands sqrt prices period std)) = length prices /\
  length (snd (calculate_bollinger_bands sqrt prices period std)) = length prices.
Proof.
  unfold calculate_bollinger_bands.
  destruct (length prices <? period)%nat; cbn [fst snd].
  - now rewrite repeat_length.
  - rewrite !fillna_length, !length_map, length_combine.
    unfold rolling_mean. rewrite !rolling_length. lia.
Qed.

Lemma pct_change_length (k : nat) (l : list Q) : length (pct_change k l) = length l.
Proof. unfold pct_change. now rewrite length_map, length_seq. Qed.

Lemma shift_diff_length (k : nat) (l : list Q) : length (shift_diff k l) = length l.
Proof. unfold shift_diff. now rewrite length_map, length_seq. Qed.

Lemma filled_column (l : list float) (closes : list Q) :
  length l = length closes ->
  length (fillna l closes) = length closes /\
  Forall (fun x => x <> None) (fillna l closes).
Proof.
  intros H. split; [now rewrite fillna_length|now apply fillna_all_defined].
Qed.

Lemma filled_constant_column (d : Q) (l : list float) (n : nat) :
  length l = n ->
  length (fill d l) = n /\ Forall (fun x => x <> None) (fill d l).
Proof.
  intros H. destruct (fill_all_defined d l) as [Hd Hl]. split; [congruence|exact Hd].
Qed.

Lemma calculate_indicators_columns (sqrt : Q -> Q) (df : list Bar) :
  bars (calculate_indicators sqrt df) = df /\
  Forall (fun column => length column = length df /\ Forall (fun x => x <> None) column)
         (indicator_columns (calculate_indicators sqrt df)).
Proof.
  destruct df as [|b df]; [split; [reflexivity|]; repeat constructor|].
  set (frame := b :: df). unfold calculate_indicators. fold frame. cbv zeta.
  split; [reflexivity|].
  assert (Hc : length (map close frame) = length frame) by apply length_map.
  assert (Hv : length (map volume frame) = length frame) by apply length_map.
  destruct (calculate_macd_length (map close frame) 12 26 9) as [Hm Hms].
  destruct (calculate_bollinger_bands_length sqrt (map close frame) 20 2) as [Hbu Hbl].
  destruct (calculate_stochastic_length frame 14) as [Hk Hd].
  unfold indicator_columns.
  cbn [col_MA_10 col_MA_20 col_MA_50 col_MA_100 col_RSI_14 col_RSI_7 col_MACD
       col_MACD_Signal col_BB_Upper col_BB_Lower col_BB_Middle col_Stoch_K col_Stoch_D
       col_Volume_MA col_Volume_Ratio col_Momentum col_Price_Change].
  repeat apply Forall_cons; try apply Forall_nil; rewrite <- Hc at 1.
  all: try (apply filled_column; unfold rolling_mean; rewrite ?rolling_length; congruence).
  all: try (apply filled_constant_column; unfold clean;
            rewrite ?length_map, ?calculate_rsi_length, ?pct_change_length,
              ?shift_diff_length; congruence).
  - apply filled_constant_column. rewrite zip_with_length.
    unfold rolling_mean. rewrite rolling_length. lia.
Qed.

(** X2.  [calculate_rsi] returns one value per price, every value is in
    [0, 100], and a row with fewer than [period] prices up to it holds 50. *)
Theorem rsi_is_bounded (prices : list Q) (period : nat) :
  length (calculate_rsi prices period) = length prices /\
  Forall (fun r => 0 <= r <= 100) (calculate_rsi prices period) /\
  (forall i, (i < length prices)%nat -> (i + 1 < period)%nat ->
             nth_error (calculate_rsi prices period) i = Some 50).
Proof.
  split; [apply calculate_rsi_length|].
  split; [apply calculate_rsi_range|].
  intros i Hi Hearly. now apply calculate_rsi_warm_up.
Qed.

(** X3.  On bars whose close lies between their low and their high,
    [calculate_stochastic] returns one %K and one %D per bar, all in
    [0, 100]. *)
Theorem stochastic_is_bounded (df : list Bar) (period : nat) :
  Forall bar_in_order df ->
  length (fst (calculate_stochastic df period)) = length df /\
  length (snd (calculate_stochastic df period)) = length df /\
  Forall (fun k => 0 <= k <= 100) (fst (calculate_stochastic df period)) /\
  Forall (fun d => 0 <= d <= 100) (snd (calculate_stochastic df period)).
Proof.
  intros Hbars.
  destruct (calculate_stochastic_length df period) as [Hk Hd].
  destruct (calculate_stochastic_range df period Hbars) as [Hrk Hrd].
  now repeat split.
Qed.

(** X4.  The frame of [calculate_indicators] keeps the bars, has one row per
    bar, and each of its seventeen indicator columns has that length with no
    NaN left in it. *)
Theorem indicator_frame_has_no_gaps (sqrt : Q -> Q) (df : list Bar) :
  bars (calculate_indicators sqrt df) = df /\
  length (rows_of (calculate_indicators sqrt df)) = length df /\
  Forall (fun column => length column = length df /\ Forall (fun x => x <> None) column)
         (indicator_columns (calculate_indicators sqrt df)).
Proof.
  destruct (calculate_indicators_columns sqrt df) as [Hbars Hcols].
  split; [exact Hbars|]. split; [|exact Hcols].
  unfold rows_of. now rewrite length_map, length_seq, Hbars.
Qed.

Lemma window_sum_mean (k i : nat) (l : list Q) :
  (1 <= k)%nat -> (k <= i + 1)%nat -> (i < length l)%nat ->
  mean (window k i l) = Some (sum (window k i l) / inject_Z (Z.of_nat k)).
Proof.
  intros Hk Hi Hl. pose proof (window_length k i l Hi Hl) as Hlen.
  destruct (window k i l) as [|x w] eqn:Hw; [cbn in Hlen; lia|].
  unfold mean. now rewrite Hlen.
Qed.

Lemma moving_average_entry (k : nat) (values fallback : list Q) (i : nat) (c : Q) :
  (1 <= k)%nat -> (i < length values)%nat -> nth_error fallback i = Some c ->
  entry (fillna (rolling_mean k values) fallback) i = Some (trailing_mean k values i c).
Proof.
  intros Hk Hi Hc. unfold entry, trailing_mean.
  rewrite (fillna_nth _ fallback i
             (if (i + 1 <? k)%nat then None else mean (window k i values)) c);
    [|unfold rolling_mean; now rewrite rolling_nth|exact Hc].
  destruct (Nat.ltb_spec (i + 1) k) as [Hearly|Hfull]; [reflexivity|].
  now rewrite window_sum_mean.
Qed.

(** X5.  In the frame of [calculate_indicators] the columns MA_10, MA_20,
    MA_50, MA_100 and BB_Middle hold at row [i] the mean of the last k
    closes, and the close of the row itself while fewer than k rows exist.
    Volume_MA holds the mean of the last 20 volumes, and during its warm-up
    the close price of the row, not a volume. *)
Theorem moving_average_columns (sqrt : Q -> Q) (df : list Bar) (i : nat) (b : Bar) :
  nth_error df i = Some b ->
  let frame := calculate_indicators sqrt df in
  let closes := map close df in
  entry (col_MA_10 frame) i = Some (trailing_mean 10 closes i (close b)) /\
  entry (col_MA_20 frame) i = Some (trailing_mean 20 closes i (close b)) /\
  entry (col_MA_50 frame) i = Some (trailing_mean 50 closes i (close b)) /\
  entry (col_MA_100 frame) i = Some (trailing_mean 100 closes i (close b)) /\
  entry (col_BB_Middle frame) i = Some (trailing_mean 20 closes i (close b)) /\
  entry (col_Volume_MA frame) i
  = Some (trailing_mean 20 (map volume df) i (close b)).
Proof.
  intros Hb frame closes. subst frame closes.
  assert (Hi : (i < length df)%nat) by (apply nth_error_Some; congruence).
  assert (Hc : nth_error (map close df) i = Some (close b)).
  { now rewrite nth_error_map, Hb. }
  destruct df as [|b0 df]; [destruct i; discriminate Hb|].
  set (frame := b0 :: df) in *. unfold calculate_indicators. fold frame. cbv zeta.
  cbn [col_MA_10 col_MA_20 col_MA_50 col_MA_100 col_BB_Middle col_Volume_MA].
  repeat split; apply moving_average_entry; try lia; try exact Hc;
    rewrite length_map; exact Hi.
Qed.

(** ** Sorting *)

Section Sorting.

Context {A : Type} (key : A -> Q).

Lemma insert_descending_perm (x : A) (l : list A) :
  Permutation (x :: l) (insert_descending key x l).
Proof.
  induction l as [|y r IH]; [reflexivity|]. cbn [insert_descending].
  destruct (Qltb _ _); [|reflexivity].
  rewrite perm_swap. now apply perm_skip.
Qed.

Lemma sort_descending_perm (l : list A) : Permutation l (sort_descending key l).
Proof.
  induction l as [|x l IH]; [reflexivity|]. cbn [sort_descending fold_right].
  fold (sort_descending key l).
  rewrite <- insert_descending_perm. now apply perm_skip.
Qed.

Lemma insert_descending_sorted (x : A) (l : list A) :
  StronglySorted (descending key) l -> StronglySorted (descending key) (insert_descending key x l).
Proof.
  induction 1 as [|y r Hr IH Hy]; cbn [insert_descending].
  - repeat constructor.
  - destruct (Qltb_spec (key x) (key y)) as [Hlt|Hge].
    + constructor; [exact IH|].
      apply Forall_forall. intros z Hz.
      apply (Permutation_in _ (Permutation_sym (insert_descending_perm x r))) in Hz.
      destruct Hz as [<-|Hz].
      * unfold descending. now apply Qlt_le_weak.
      * rewrite Forall_forall in Hy. now apply Hy.
    + apply Qnot_lt_le in Hge. constructor; [now constructor|].
      constructor; [exact Hge|].
      apply Forall_forall. intros z Hz. rewrite Forall_forall in Hy.
      unfold descending in *. eapply Qle_trans; [apply (Hy z Hz)|exact Hge].
Qed.

Lemma sort_descending_sorted (l : list A) :
  StronglySorted (descending key) (sort_descending key l).
Proof.
  induction l as [|x l IH]; [constructor|]. cbn [sort_descending fold_right].
  now apply insert_descending_sorted.
Qed.

Lemma sorted_firstn (n : nat) (l : list A) :
  StronglySorted (descending key) l -> StronglySorted (descending key) (firstn n l).
Proof.
  intros H. revert n. induction H as [|y r Hr IH Hy]; intros [|n]; cbn [firstn];
    try constructor.
  - apply IH.
  - apply Forall_forall. intros z Hz. rewrite Forall_forall in Hy.
    apply Hy. revert Hz. clear. revert r. induction n as [|n IH]; intros [|a r] H;
      cbn in H; try contradiction.
    destruct H as [->|H]; [now left|right; now apply IH].
Qed.

(** What is cut off is no better than what is kept. *)
Lemma sorted_split (n : nat) (l : list A) (kept dropped : A) :
  StronglySorted (descending key) l ->
  In kept (firstn n l) -> In dropped (skipn n l) -> key dropped <= key kept.
Proof.
  intros H. revert n. induction H as [|y r Hr IH Hy]; intros [|n] Hk Hd;
    cbn in Hk, Hd; try contradiction.
  destruct Hk as [<-|Hk].
  - rewrite Forall_forall in Hy. apply Hy.
    revert Hd. clear. revert r. induction n as [|n IH]; intros [|a r] H;
      cbn in H; try contradiction; [exact H|right; now apply IH].
  - now apply (IH n).
Qed.

End Sorting.

(** ** Potential Scorer: the range of the score *)

Lemma clamp_range (x : Q) : 0 <= py_max 0 (py_min 100 x) <= 100.
Proof.
  unfold py_max, py_min.
  destruct (Qltb_spec x 100) as [Hx|Hx];
    [destruct (Qgtb_spec x 0)|destruct (Qgtb_spec 100 0)]; split; lra.
Qed.

Lemma coin_potential_upper (df : option (list Bar)) : coin_potential df <= 100.
Proof.
  destruct df as [bars|]; unfold coin_potential; [|lra].
  destruct (length bars <? 50)%nat; [lra|apply clamp_range].
Qed.

(** X1.  The opportunity score of [analyze_coin_potential] is between 0 and 100
    for every answer of the exchange. *)
Theorem opportunity_score_range (get_ohlcv_data : Exchange) (sym : string)
  (df : option (list Bar)) :
  0 <= coin_potential df <= 100 /\
  0 <= analyze_coin_potential get_ohlcv_data sym <= 100.
Proof.
  assert (H : forall d, 0 <= coin_potential d <= 100).
  { intros [bars|]; unfold coin_potential; [|split; lra].
    destruct (length bars <? 50)%nat; [split; lra|apply clamp_range]. }
  split; [apply H|apply H].
Qed.

(** ** Ranking the coins *)

Section RankingFacts.

Variable get_ohlcv_data : Exchange.
Variable get_current_price : Ticker.

(** What the loop keeps. *)
Lemma coin_scores_entries (active_symbols : list string) (c : CoinScore) :
  In c (coin_scores get_ohlcv_data get_current_price active_symbols) ->
  In (coin_symbol c) active_symbols /\
  coin_profit_potential c = analyze_coin_potential get_ohlcv_data (coin_symbol c) /\
  get_current_price (coin_symbol c) = Some (coin_price c) /\
  ~ coin_price c == 0 /\
  20 < coin_profit_potential c.
Proof.
  induction active_symbols as [|sym rest IH]; cbn [coin_scores]; [contradiction|].
  cbv zeta. intros Hin.
  assert (Hrest : In c (coin_scores get_ohlcv_data get_current_price rest) ->
                  In (coin_symbol c) (sym :: rest) /\
                  coin_profit_potential c
                  = analyze_coin_potential get_ohlcv_data (coin_symbol c) /\
                  get_current_price (coin_symbol c) = Some (coin_price c) /\
                  ~ coin_price c == 0 /\ 20 < coin_profit_potential c).
  { intros H. destruct (IH H) as (H1 & H2). split; [now right|exact H2]. }
  destruct (get_current_price sym) as [price|] eqn:Hprice; [|now apply Hrest].
  destruct (Qeqb_spec price 0) as [Hz|Hnz]; cbn [negb andb] in Hin; [now apply Hrest|].
  destruct (Qgtb_spec (analyze_coin_potential get_ohlcv_data sym) 20) as [Hgt|Hle];
    [|now apply Hrest].
  destruct Hin as [<-|Hin]; [|now apply Hrest].
  cbn [coin_symbol coin_profit_potential coin_price].
  repeat split; try assumption. now left.
Qed.

(** Every symbol that qualifies is kept. *)
Lemma coin_scores_complete (active_symbols : list string) (sym : string) (price : Q) :
  In sym active_symbols ->
  get_current_price sym = Some price -> ~ price == 0 ->
  20 < analyze_coin_potential get_ohlcv_data sym ->
  In {| coin_symbol := sym;
        coin_profit_potential := analyze_coin_potential get_ohlcv_data sym;
        coin_price := price |}
     (coin_scores get_ohlcv_data get_current_price active_symbols).
Proof.
  intros Hin Hprice Hnz Hgt.
  induction active_symbols as [|s rest IH]; [contradiction|].
  cbn [coin_scores]. cbv zeta.
  destruct Hin as [->|Hin].
  - rewrite Hprice.
    destruct (Qeqb_spec price 0); [contradiction|].
    destruct (Qgtb_spec (analyze_coin_potential get_ohlcv_data sym) 20);
      [now left|contradiction].
  - specialize (IH Hin).
    destruct (get_current_price s) as [p|]; [|exact IH].
    destruct (_ && _); [now right|exact IH].
Qed.

End RankingFacts.

(** X16.  [get_best_coins_for_trading] returns at most [top_n] entries,
    sorted by descending score; each is an active symbol with its score
    (above 20, at most 100) and its non-zero price; and an active symbol that
    qualifies but is not listed scores no more than any listed one, the list
    then being full. *)
Theorem best_coins_are_the_best (get_ohlcv_data : Exchange) (get_current_price : Ticker)
  (active_symbols : list string) (top_n : nat) :
  let best :=
    get_best_coins_for_trading get_ohlcv_data get_current_price active_symbols top_n in
  (length best <= top_n)%nat /\
  StronglySorted (descending coin_profit_potential) best /\
  Forall (fun c =>
            In (coin_symbol c) active_symbols /\
            coin_profit_potential c
            = analyze_coin_potential get_ohlcv_data (coin_symbol c) /\
            get_current_price (coin_symbol c) = Some (coin_price c) /\
            ~ coin_price c == 0 /\
            20 < coin_profit_potential c <= 100) best /\
  (forall (sym : string) (price : Q),
     In sym active_symbols ->
     get_current_price sym = Some price -> ~ price == 0 ->
     20 < analyze_coin_potential get_ohlcv_data sym ->
     (exists c, In c best /\ coin_symbol c = sym) \/
     ((length best = top_n)%nat /\
      forall c, In c best ->
                analyze_coin_potential get_ohlcv_data sym <= coin_profit_potential c)).
Proof.
  cbv zeta. unfold get_best_coins_for_trading.
  set (scores := coin_scores get_ohlcv_data get_current_price active_symbols).
  set (sorted := sort_descending coin_profit_potential scores).
  assert (Hsorted : StronglySorted (descending coin_profit_potential) sorted)
    by apply sort_descending_sorted.
  assert (Hperm : Permutation scores sorted) by apply sort_descending_perm.
  split; [apply firstn_le_length|].
  split; [now apply sorted_firstn|].
  split.
  - apply Forall_forall. intros c Hc.
    assert (Hin : In c scores).
    { apply (Permutation_in _ (Permutation_sym Hperm)).
      rewrite <- (firstn_skipn top_n sorted). apply in_or_app. now left. }
    destruct (coin_scores_entries get_ohlcv_data get_current_price _ c Hin)
      as (H1 & H2 & H3 & H4 & H5).
    repeat split; try assumption.
    rewrite H2. apply coin_potential_upper.
  - intros sym price Hin Hprice Hnz Hgt.
    pose proof (coin_scores_complete get_ohlcv_data get_current_price
                  active_symbols sym price Hin Hprice Hnz Hgt) as Hc.
    fold scores in Hc. apply (Permutation_in _ Hperm) in Hc.
    rewrite <- (firstn_skipn top_n sorted) in Hc. apply in_app_or in Hc.
    destruct Hc as [Hkept|Hdropped].
    + left. eexists. split; [exact Hkept|reflexivity].
    + right. split.
      * rewrite length_firstn. apply Nat.min_l.
        destruct (Nat.le_gt_cases top_n (length sorted)) as [H|H]; [exact H|].
        rewrite skipn_all2 in Hdropped by lia. contradiction.
      * intros c Hc.
        apply (sorted_split coin_profit_potential top_n sorted c _ Hsorted Hc Hdropped).
Qed.

(** ** One cycle of [run] *)

Section CycleFacts.

Variable sqrt : Q -> Q.
Variable market : Market.

(** What the loop does for one coin. *)
Lemma trade_coin_cases (self : Bot) (sym : string) :
  trade_coin sqrt market self sym = self \/
  (exists p current_price,
      position self = Some p /\ symbol p = sym /\
      trading_price market sym = Some current_price /\
      trade_coin sqrt market self sym = manage_open_position self current_price sym) \/
  (exists strength current_price,
      position self = None /\ (8 <= strength <= 19)%Z /\
      trading_price market sym = Some current_price /\
      trade_coin sqrt market self sym
      = open_position (sizing_data market) self strength current_price sym).
Proof.
  unfold trade_coin.
  destruct (position self) as [p|] eqn:Hp; cbn [position_and].
  - destruct (String.eqb_spec (symbol p) sym) as [Hs|Hs]; [|now left].
    destruct (trading_price market sym) as [price|] eqn:Hprice; [|now left].
    destruct (negb _); [|now left].
    right. left. now exists p, price.
  - destruct (trading_price market sym) as [price|] eqn:Hprice; [|now left].
    destruct (trading_data market sym) as [df|]; [|now left]. cbv zeta.
    destruct (aggressive_profit_strategy None _ sym) as [[| |] strength] eqn:Hsignal;
      cbn [fst snd].
    + right. right. exists strength, price.
      rewrite (execute_trade_flat _ self BUY strength price sym Hp). cbn [Action_eqb].
      pose proof (buy_signal_strength _ _ _ _ Hsignal).
      repeat split; try reflexivity; lia.
    + left. now rewrite (execute_trade_flat _ self SELL strength price sym Hp).
    + now left.
Qed.

Lemma open_position_cases (self : Bot) (strength : Z) (current_price : Q) (sym : string) :
  open_position (sizing_data market) self strength current_price sym = self \/
  exists p,
    position (open_position (sizing_data market) self strength current_price sym) = Some p /\
    symbol p = sym.
Proof.
  destruct (Qlt_le_dec 0 (calculate_position_size (sizing_data market) self current_price
                            (current_price * (1 - 0.015)) sym)) as [Hpos|Hno].
  - right.
    destruct (open_position_opened (sizing_data market) self strength current_price sym Hpos)
      as ((p & Hp & _ & _ & _ & _ & Hs) & _).
    now exists p.
  - left. apply open_position_rejected. now apply Qle_not_lt.
Qed.

Lemma trade_coins_cons (self : Bot) (c : CoinScore) (rest : list CoinScore) :
  trade_coins sqrt market self (c :: rest)
  = trade_coins sqrt market (trade_coin sqrt market self (coin_symbol c)) rest.
Proof. reflexivity. Qed.

Lemma trade_coin_other_symbol (self : Bot) (sym : string) (p : Position) :
  position self = Some p -> symbol p <> sym -> trade_coin sqrt market self sym = self.
Proof.
  intros Hp Hs. unfold trade_coin. rewrite Hp. cbn [position_and].
  destruct (String.eqb_spec (symbol p) sym); [contradiction|reflexivity].
Qed.

Lemma trade_coins_other_symbols (best_coins : list CoinScore) (self : Bot) (p : Position) :
  position self = Some p ->
  ~ In (symbol p) (map coin_symbol best_coins) ->
  trade_coins sqrt market self best_coins = self.
Proof.
  intros Hp. induction best_coins as [|c rest IH]; intros Hnot; [reflexivity|].
  unfold trade_coins. cbn [fold_left].
  rewrite (trade_coin_other_symbol self (coin_symbol c) p Hp).
  - apply IH. intros H. apply Hnot. now right.
  - intros H. apply Hnot. now left.
Qed.

(** From the flat state the loop opens at most one position. *)
Lemma trade_coins_flat (best_coins : list CoinScore) (self : Bot) :
  position self = None ->
  NoDup (map coin_symbol best_coins) ->
  trade_coins sqrt market self best_coins = self \/
  exists c strength current_price,
    In c best_coins /\ (8 <= strength <= 19)%Z /\
    trading_price market (coin_symbol c) = Some current_price /\
    trade_coins sqrt market self best_coins
    = open_position (sizing_data market) self strength current_price (coin_symbol c) /\
    position (trade_coins sqrt market self best_coins) <> None.
Proof.
  intros Hflat. induction best_coins as [|c rest IH]; intros Hnodup; [now left|].
  cbn [map] in Hnodup. apply NoDup_cons_iff in Hnodup. destruct Hnodup as [Hfresh Hnodup].
  assert (Hrest : trade_coins sqrt market self rest = self \/
                  exists c0 strength current_price,
                    In c0 (c :: rest) /\ (8 <= strength <= 19)%Z /\
                    trading_price market (coin_symbol c0) = Some current_price /\
                    trade_coins sqrt market self rest
                    = open_position (sizing_data market) self strength current_price
                        (coin_symbol c0) /\
                    position (trade_coins sqrt market self rest) <> None).
  { destruct (IH Hnodup) as [H|(c0 & s & x & Hin & H)]; [now left|].
    right. exists c0, s, x. split; [now right|exact H]. }
  rewrite !trade_coins_cons.
  destruct (trade_coin_cases self (coin_symbol c))
    as [->|[(p & x & Hp & _)|(strength & x & _ & Hs & Hprice & ->)]].
  - exact Hrest.
  - congruence.
  - destruct (open_position_cases self strength x (coin_symbol c)) as [->|(p & Hp & Hsym)].
    + exact Hrest.
    + right. exists c, strength, x.
      rewrite (trade_coins_other_symbols rest _ p Hp) by (now rewrite Hsym).
      split; [now left|]. split; [exact Hs|]. split; [exact Hprice|].
      split; [reflexivity|congruence].
Qed.

End CycleFacts.

(** X17.  In the loop over the best coins, a held position whose coin is not
    among them is left alone: the state after the loop is the state before,
    so neither its stop nor its take-profit is checked in that pass. *)
Theorem unranked_position_is_not_managed (sqrt : Q -> Q) (market : Market)
  (self : Bot) (best_coins : list CoinScore) (p : Position) :
  position self = Some p ->
  ~ In (symbol p) (map coin_symbol best_coins) ->
  trade_coins sqrt market self best_coins = self.
Proof.
  intros Hp Hnot. revert Hnot.
  induction best_coins as [|c rest IH]; intros Hnot; [reflexivity|].
  unfold trade_coins. cbn [fold_left].
  assert (Hc : trade_coin sqrt market self (coin_symbol c) = self).
  { apply (trade_coin_other_symbol sqrt market self _ p Hp). intros H. apply Hnot. now left. }
  rewrite Hc. apply IH. intros H. apply Hnot. now right.
Qed.

(** X18.  Started flat, the loop over the best coins (distinct symbols) books
    no close and opens at most one position, on a BUY signal of strength 8 to
    19; a SELL signal of the strategy changes nothing. *)
Theorem flat_cycle_opens_at_most_once (sqrt : Q -> Q) (market : Market)
  (self : Bot) (best_coins : list CoinScore) :
  position self = None ->
  NoDup (map coin_symbol best_coins) ->
  let self' := trade_coins sqrt market self best_coins in
  total_trades self' = total_trades self /\
  winning_trades self' = winning_trades self /\
  (self' = self \/
   exists c strength current_price,
     In c best_coins /\ (8 <= strength <= 19)%Z /\
     trading_price market (coin_symbol c) = Some current_price /\
     self' = execute_trade (sizing_data market) self BUY strength current_price
               (coin_symbol c) /\
     exists p, position self' = Some p /\ symbol p = coin_symbol c /\
               trades self' = trades self
                 ++ [ {| trade_type := "BUY"; trade_symbol := coin_symbol c;
                         trade_price := current_price; trade_size := size p;
                         trade_profit_loss := None; trade_reason := None |} ]).
Proof.
  intros Hflat Hnodup self'. subst self'.
  destruct (trade_coins_flat sqrt market best_coins self Hflat Hnodup)
    as [->|(c & strength & x & Hin & Hs & Hprice & Heq & Hopen)].
  - split; [reflexivity|]. split; [reflexivity|now left].
  - rewrite Heq in *.
    destruct (open_position_books (sizing_data market) self strength x (coin_symbol c))
      as [Ht Hw].
    split; [exact Ht|]. split; [exact Hw|]. right. exists c, strength, x.
    split; [exact Hin|]. split; [exact Hs|]. split; [exact Hprice|]. split.
    + now rewrite (execute_trade_flat _ self BUY strength x (coin_symbol c) Hflat).
    + revert Hopen. unfold open_position. cbv zeta.
      destruct (Qgtb _ 0); [|congruence]. intros _. eexists. cbn. repeat split.
Qed.

(** X19.  Started with a position, the loop over the best coins (distinct
    symbols) acts on it only through [manage_open_position] at the current
    price of its coin, never through a signal of the strategy; if that closes
    the position, at most one new position is opened later in the pass. *)
Theorem held_cycle_only_checks_the_price (sqrt : Q -> Q) (market : Market)
  (self : Bot) (best_coins : list CoinScore) (p : Position) :
  position self = Some p ->
  NoDup (map coin_symbol best_coins) ->
  let self' := trade_coins sqrt market self best_coins in
  exists managed,
    (managed = self \/
     exists current_price,
       In (symbol p) (map coin_symbol best_coins) /\
       trading_price market (symbol p) = Some current_price /\
       managed = manage_open_position self current_price (symbol p)) /\
    (self' = managed \/
     (position managed = None /\
      exists c strength current_price,
        In c best_coins /\ (8 <= strength <= 19)%Z /\
        trading_price market (coin_symbol c) = Some current_price /\
        self' = open_position (sizing_data market) managed strength current_price
                  (coin_symbol c))).
Proof.
  intros Hp Hnodup self'. subst self'.
  induction best_coins as [|c rest IH]; [exists self; split; now left|].
  cbn [map] in Hnodup. apply NoDup_cons_iff in Hnodup. destruct Hnodup as [Hfresh Hnodup].
  rewrite trade_coins_cons.
  destruct (string_dec (symbol p) (coin_symbol c)) as [Hsame|Hother].
  - rewrite <- Hsame in *.
    destruct (trade_coin_cases sqrt market self (symbol p))
      as [->|[(q & x & Hq & _ & Hprice & ->)|(s & x & Hnone & _)]]; [| |congruence].
    + exists self. split; [now left|]. left.
      now apply (trade_coins_other_symbols sqrt market rest self p).
    + exists (manage_open_position self x (symbol p)). split.
      * right. exists x. split; [now left|]. now split.
      * destruct (position (manage_open_position self x (symbol p))) as [q'|] eqn:Hq'.
        -- left. apply (trade_coins_other_symbols sqrt market rest _ q' Hq').
           destruct (manage_open_position_held self x (symbol p) p q' Hp Hq')
             as [[->|[_ ->]] _]; [exact Hfresh|].
           now rewrite (proj2 (proj2 (proj2 (proj2 (proj2 (trailing_stop_frame p x)))))).
        -- destruct (trade_coins_flat sqrt market rest _ Hq' Hnodup)
             as [->|(c0 & s & y & Hin & Hs & Hy & Heq & _)]; [now left|].
           right. split; [reflexivity|]. exists c0, s, y.
           split; [now right|]. now repeat split.
  - rewrite (trade_coin_other_symbol sqrt market self (coin_symbol c) p Hp Hother).
    destruct (IH Hnodup) as (managed & Hm & Hrest).
    exists managed. split.
    + destruct Hm as [->|(x & Hin & Hprice & ->)]; [now left|].
      right. exists x. split; [now right|]. now split.
    + destruct Hrest as [->|(Hnone & c0 & s & y & Hin & Hrest)]; [now left|].
      right. split; [exact Hnone|]. exists c0, s, y. split; [now right|exact Hrest].
Qed.

Lemma flat_bars_in_order : Forall bar_in_order flat_bars.
Proof.
  apply Forall_forall. intros b Hb. unfold flat_bars in Hb.
  apply in_map_iff in Hb. destruct Hb as (t & <- & _).
  split; cbn; lra.
Qed.

Lemma stochastic_is_bounded_witness :
  length (fst (calculate_stochastic flat_bars 14)) = length flat_bars /\
  Forall (fun k => 0 <= k <= 100) (fst (calculate_stochastic flat_bars 14)) /\
  Forall (fun d => 0 <= d <= 100) (snd (calculate_stochastic flat_bars 14)).
Proof.
  destruct (stochastic_is_bounded flat_bars 14 flat_bars_in_order)
    as (Hk & _ & Hrk & Hrd).
  split; [exact Hk|]. split; [exact Hrk|exact Hrd].
Defined.

Lemma moving_average_columns_witness :
  entry (col_MA_10 (calculate_indicators sqrt_of_zero flat_bars)) 3
  = Some (trailing_mean 10 (map close flat_bars) 3 100) /\
  entry (col_Volume_MA (calculate_indicators sqrt_of_zero flat_bars)) 3
  = Some (trailing_mean 20 (map volume flat_bars) 3 100).
Proof.
  assert (Hb : nth_error flat_bars 3 = Some (bar 3 100 104 96 100 1)) by reflexivity.
  destruct (moving_average_columns sqrt_of_zero flat_bars 3 _ Hb)
    as (H10 & _ & _ & _ & _ & Hv).
  split; [exact H10|exact Hv].
Defined.

Lemma missing_indicators_are_neutral_witness :
  aggressive_profit_strategy None (Some bare_frame) "BTC/USDT" = (HOLD, 0%Z).
Proof.
  assert (Hlen : (50 <= length bare_frame)%nat) by (apply Nat.leb_le; reflexivity).
  assert (Hrow : nth_error bare_frame (length bare_frame - 1) = Some bare_row)
    by reflexivity.
  assert (Hnone : no_indicators bare_row) by (repeat split).
  exact (missing_indicators_are_neutral None bare_frame "BTC/USDT" bare_row
           Hlen Hrow Hnone).
Defined.

Lemma check_drawdown_is_monotone_witness :
  check_drawdown (new_bot 1000 0.025 0.12) = false /\
  check_drawdown holding_bot = false.
Proof.
  destruct (check_drawdown_is_monotone (new_bot 1000 0.025 0.12) holding_bot)
    as (_ & Hpos).
  destruct Hpos as (Hfull & _ & _); [reflexivity|].
  split; [apply Hfull; [reflexivity|vm_compute; intros H; discriminate H]|].
  destruct (check_drawdown_is_monotone holding_bot holding_bot) as (_ & Hheld).
  destruct Hheld as (Hfull' & _ & _); [reflexivity|].
  apply Hfull'; [reflexivity|vm_compute; intros H; discriminate H].
Defined.

Lemma win_rate_is_a_percentage_witness :
  0 <= win_rate (run_call no_exchange holding_bot (Manage 107 "BTC/USDT")) <= 100.
Proof.
  destruct (win_rate_is_a_percentage no_exchange holding_bot (Manage 107 "BTC/USDT"))
    as [_ H].
  - unfold counters_ok. cbn. lia.
  - exact H.
Defined.

Lemma position_survives_inside_band_witness :
  position (manage_open_position holding_bot 103 "BTC/USDT")
  = Some (trailing_stop btc_position 103).
Proof.
  destruct (position_survives_inside_band holding_bot 103 "BTC/USDT" btc_position
              eq_refl eq_refl) as (Hinside & _ & _).
  apply Hinside. split; reflexivity.
Defined.

Lemma close_books_realized_profit_witness :
  position (force_close_position holding_bot 107 "Manual" "BTC/USDT") = None /\
  balance (force_close_position holding_bot 107 "Manual" "BTC/USDT")
  = balance holding_bot + size btc_position * 107.
Proof.
  destruct (close_books_realized_profit no_exchange holding_bot 0 107 "Manual" "BTC/USDT"
              btc_position holding_bot_well_formed eq_refl
              (force_close_position holding_bot 107 "Manual" "BTC/USDT")
              (or_introl eq_refl)) as (Hnone & Hbal & _).
  split; [exact Hnone|exact Hbal].
Defined.

Lemma open_size_positive :
  0 < calculate_position_size flat_exchange (new_bot 1000 0.025 0.12) 100
        (100 * (1 - 0.015)) "BTC/USDT".
Proof. vm_compute. reflexivity. Qed.

Lemma open_close_balance_witness :
  balance (execute_trade no_exchange opened_bot SELL 5 110 "BTC/USDT")
  = balance (new_bot 1000 0.025 0.12)
    - calculate_position_size flat_exchange (new_bot 1000 0.025 0.12) 100
        (100 * (1 - 0.015)) "BTC/USDT" * 100
    + calculate_position_size flat_exchange (new_bot 1000 0.025 0.12) 100
        (100 * (1 - 0.015)) "BTC/USDT" * 110.
Proof.
  destruct (open_close_balance flat_exchange no_exchange (new_bot 1000 0.025 0.12)
              16 5 100 110 "BTC/USDT" eq_refl open_size_positive) as (_ & Hbal & _).
  exact Hbal.
Defined.

Lemma opened_bot_position :
  exists p, position opened_bot = Some p.
Proof. vm_compute. eexists. reflexivity. Qed.

Lemma buy_is_sized_by_risk_or_cap_witness :
  exists p, position opened_bot = Some p /\ entry_price p = 100 /\ 0 < size p.
Proof.
  destruct (position opened_bot) as [p|] eqn:Hp.
  - exists p. split; [reflexivity|].
    destruct (buy_is_sized_by_risk_or_cap flat_exchange (new_bot 1000 0.025 0.12)
                16 100 "BTC/USDT" p eq_refl) as (He & Hs & _).
    + vm_compute. intros H; discriminate H.
    + exact Hp.
    + split; [exact He|exact Hs].
  - exfalso. destruct opened_bot_position as [p Hq]. congruence.
Defined.

Lemma zero_score_opens_nothing_witness :
  execute_trade no_exchange (new_bot 1000 0.025 0.12) BUY 16 100 "BTC/USDT"
  = new_bot 1000 0.025 0.12.
Proof.
  apply (zero_score_opens_nothing no_exchange (new_bot 1000 0.025 0.12) 16 100 "BTC/USDT").
  - reflexivity.
  - vm_compute. intros H; discriminate H.
  - reflexivity.
Defined.

Lemma balance_stays_non_negative_witness :
  0 <= balance (run_call no_exchange holding_bot (Manage 107 "BTC/USDT")).
Proof.
  apply (balance_stays_non_negative no_exchange holding_bot (Manage 107 "BTC/USDT")
           holding_bot_well_formed).
  - vm_compute. intros H; discriminate H.
  - vm_compute. intros H; discriminate H.
Defined.

Lemma unranked_position_is_not_managed_witness :
  trade_coins sqrt_of_zero flat_market holding_bot [eth_score] = holding_bot.
Proof.
  apply (unranked_position_is_not_managed sqrt_of_zero flat_market holding_bot
           [eth_score] btc_position eq_refl).
  cbn. intros [H|[]]. discriminate H.
Defined.

Lemma two_coins_distinct : NoDup (map coin_symbol [eth_score; btc_score]).
Proof.
  cbn. constructor; [|constructor; [intros []|constructor]].
  intros [H|[]]. discriminate H.
Qed.

Lemma flat_cycle_opens_at_most_once_witness :
  total_trades (trade_coins sqrt_of_zero flat_market (new_bot 1000 0.025 0.12)
                  [eth_score; btc_score]) = 0%Z.
Proof.
  destruct (flat_cycle_opens_at_most_once sqrt_of_zero flat_market
              (new_bot 1000 0.025 0.12) [eth_score; btc_score] eq_refl
              two_coins_distinct) as (Ht & _).
  exact Ht.
Defined.

Lemma held_cycle_only_checks_the_price_witness :
  exists managed,
    (managed = holding_bot \/
     exists current_price,
       In (symbol btc_position) (map coin_symbol [eth_score; btc_score]) /\
       trading_price flat_market (symbol btc_position) = Some current_price /\
       managed = manage_open_position holding_bot current_price (symbol btc_position)) /\
    (trade_coins sqrt_of_zero flat_market holding_bot [eth_score; btc_score] = managed \/
     (position managed = None /\
      exists c strength current_price,
        In c [eth_score; btc_score] /\ (8 <= strength <= 19)%Z /\
        trading_price flat_market (coin_symbol c) = Some current_price /\
        trade_coins sqrt_of_zero flat_market holding_bot [eth_score; btc_score]
        = open_position (sizing_data flat_market) managed strength current_price
            (coin_symbol c))).
Proof.
  exact (held_cycle_only_checks_the_price sqrt_of_zero flat_market holding_bot
           [eth_score; btc_score] btc_position eq_refl two_coins_distinct).
Defined.

(** ** Ranking: no symbol twice *)

Lemma coin_scores_distinct (get_ohlcv_data : Exchange) (get_current_price : Ticker)
  (active_symbols : list string) :
  NoDup active_symbols ->
  NoDup (map coin_symbol (coin_scores get_ohlcv_data get_current_price active_symbols)).
Proof.
  induction 1 as [|sym rest Hfresh Hrest IH]; [constructor|].
  cbn [coin_scores]. cbv zeta.
  destruct (get_current_price sym) as [price|]; [|exact IH].
  destruct (_ && _); [|exact IH].
  cbn [map coin_symbol]. constructor; [|exact IH].
  intros Hin. apply Hfresh. apply in_map_iff in Hin. destruct Hin as (c & <- & Hc).
  now apply (coin_scores_entries get_ohlcv_data get_current_price rest c).
Qed.

Lemma high_profit_coins_distinct : NoDup high_profit_coins.
Proof.
  unfold high_profit_coins.
  repeat (constructor;
          [cbn; intros H; repeat (destruct H as [H|H]; [discriminate H|]); exact H|]).
  constructor.
Qed.

(** X20.  When the active symbols are distinct, as the configured
    [high_profit_coins] are, [get_best_coins_for_trading] lists no symbol
    twice. *)
Theorem best_coins_are_distinct (get_ohlcv_data : Exchange) (get_current_price : Ticker)
  (active_symbols : list string) (top_n : nat) :
  NoDup active_symbols ->
  NoDup (map coin_symbol
           (get_best_coins_for_trading get_ohlcv_data get_current_price
              active_symbols top_n)).
Proof.
  intros Hactive. unfold get_best_coins_for_trading.
  set (scores := coin_scores get_ohlcv_data get_current_price active_symbols).
  assert (Hsorted : NoDup (map coin_symbol (sort_descending coin_profit_potential scores))).
  { apply (Permutation_NoDup (l := map coin_symbol scores)).
    - apply Permutation_map, sort_descending_perm.
    - now apply coin_scores_distinct. }
  rewrite <- (firstn_skipn top_n (sort_descending coin_profit_potential scores)) in Hsorted.
  rewrite map_app in Hsorted. now apply NoDup_app_remove_r in Hsorted.
Qed.

Lemma best_coins_are_distinct_witness :
  NoDup high_profit_coins /\
  NoDup (map coin_symbol
           (get_best_coins_for_trading flat_exchange flat_ticker high_profit_coins 5)).
Proof.
  split; [exact high_profit_coins_distinct|].
  exact (best_coins_are_distinct flat_exchange flat_ticker high_profit_coins 5
           high_profit_coins_distinct).
Defined.

(** ** RSI on a full window *)

Lemma window_index (w i : nat) (l : list Q) (x : Q) :
  (w <= i + 1)%nat -> In x (window w i l) ->
  exists j, (i + 1 - w <= j <= i)%nat /\ nth_error l j = Some x.
Proof.
  intros Hw Hin. unfold window in Hin. apply In_nth_error in Hin.
  destruct Hin as [k Hk]. rewrite nth_error_firstn in Hk.
  destruct (Nat.ltb_spec k w) as [Hlt|]; [|discriminate Hk].
  rewrite nth_error_skipn in Hk. exists (i + 1 - w + k)%nat. split; [lia|exact Hk].
Qed.

Lemma diff_nth (prices : list Q) (j : nat) :
  (j < length prices)%nat ->
  nth_error (diff prices) j
  = Some (if (j <? 1)%nat then None
          else fsub (nth_error prices j) (nth_error prices (j - 1))).
Proof.
  intros Hj. unfold diff. rewrite nth_error_map, nth_error_seq.
  destruct (Nat.ltb_spec j (length prices)); [reflexivity|lia].
Qed.

Lemma sum_of_zeros (l : list Q) : Forall (fun x => x == 0) l -> sum l == 0.
Proof.
  induction 1 as [|x l Hx _ IH]; [reflexivity|].
  cbn [sum fold_right]. fold (sum l). rewrite Hx, IH. reflexivity.
Qed.

Lemma losses_of_rising_window (prices : list Q) (period i : nat) :
  (period <= i + 1)%nat -> (i < length prices)%nat ->
  never_falls prices period i ->
  Forall (fun x => x == 0) (window period i (losses prices)).
Proof.
  intros Hw Hi Hrise. apply Forall_forall. intros x Hx.
  apply window_index in Hx; [|exact Hw]. destruct Hx as (j & Hj & Hx).
  unfold losses in Hx. rewrite nth_error_map, diff_nth in Hx by lia.
  injection Hx as <-.
  destruct (Nat.ltb_spec j 1) as [_|Hj1]; [reflexivity|].
  destruct (nth_error prices j) as [b|] eqn:Hb; [|reflexivity].
  destruct (nth_error prices (j - 1)) as [a|] eqn:Ha; [|reflexivity].
  pose proof (Hrise j a b Hj Hj1 Ha Hb) as Hab. cbn [fsub flt].
  destruct (Qltb_spec (b - a) 0) as [Hneg|_]; [lra|reflexivity].
Qed.

Lemma calculate_rsi_entry (prices : list Q) (period i : nat) :
  (1 <= period)%nat -> (period <= i + 1)%nat -> (i < length prices)%nat ->
  let avg_gain := trailing_mean period (gains prices) i 0 in
  let avg_loss := trailing_mean period (losses prices) i 0 in
  let divisor := if Qeq_bool avg_loss 0 then 1 else avg_loss in
  nth_error (calculate_rsi prices period) i
  = Some (nan_to 50 (fsub (Some 100)
                       (fdiv (Some 100)
                          (fadd (Some 1) (fdiv (Some avg_gain) (Some divisor)))))).
Proof.
  intros Hp Hw Hi. cbv zeta. unfold calculate_rsi.
  destruct (Nat.ltb_spec (length prices) period); [lia|]. cbv zeta.
  unfold fillna_const. rewrite !nth_error_map.
  fold (gains prices). fold (losses prices).
  assert (Hlen : length (diff prices) = length prices).
  { unfold diff. now rewrite length_map, length_seq. }
  assert (Hg : nth_error (rolling_mean period (gains prices)) i
               = Some (Some (trailing_mean period (gains prices) i 0))).
  { unfold rolling_mean. rewrite rolling_nth by (unfold gains; rewrite length_map; lia).
    unfold trailing_mean. destruct (Nat.ltb_spec (i + 1) period); [lia|].
    rewrite window_sum_mean; [reflexivity|lia|lia|unfold gains; rewrite length_map; lia]. }
  assert (Hl : nth_error (rolling_mean period (losses prices)) i
               = Some (Some (trailing_mean period (losses prices) i 0))).
  { unfold rolling_mean. rewrite rolling_nth by (unfold losses; rewrite length_map; lia).
    unfold trailing_mean. destruct (Nat.ltb_spec (i + 1) period); [lia|].
    rewrite window_sum_mean; [reflexivity|lia|lia|unfold losses; rewrite length_map; lia]. }
  rewrite (@combine_nth_error float Q _ _ i
             (Some (trailing_mean period (gains prices) i 0))
             (if Qeq_bool (trailing_mean period (losses prices) i 0) 0 then 1
              else trailing_mean period (losses prices) i 0)).
  - reflexivity.
  - exact Hg.
  - now rewrite (map_nth_error _ i _ Hl).
Qed.

(** X22.  On a row with a full window in which no price is below the one
    before, the average loss is 0, the denominator is replaced by 1, and the
    RSI is [100 g / (1 + g)] for the average gain [g]: below 100 always, and
    at most 75 while the average gain is at most 3. *)
Theorem rsi_without_a_falling_price (prices : list Q) (period i : nat) :
  (1 <= period)%nat -> (period <= i + 1)%nat -> (i < length prices)%nat ->
  never_falls prices period i ->
  let avg_gain := trailing_mean period (gains prices) i 0 in
  exists rsi,
    nth_error (calculate_rsi prices period) i = Some rsi /\
    0 <= avg_gain /\
    rsi == 100 * avg_gain / (1 + avg_gain) /\
    rsi < 100 /\
    (avg_gain <= 3 -> rsi <= 75).
Proof.
  intros Hp Hw Hi Hrise avg_gain.
  pose proof (calculate_rsi_entry prices period i Hp Hw Hi) as Hentry.
  cbv zeta in Hentry. fold avg_gain in Hentry.
  assert (Hloss : trailing_mean period (losses prices) i 0 == 0).
  { unfold trailing_mean. destruct (Nat.ltb_spec (i + 1) period); [lia|].
    rewrite (sum_of_zeros _ (losses_of_rising_window prices period i Hw Hi Hrise)).
    unfold Qdiv. apply Qmult_0_l. }
  destruct (Qeqb_spec (trailing_mean period (losses prices) i 0) 0) as [_|Hnz];
    [|contradiction].
  assert (Hgain : 0 <= avg_gain).
  { unfold avg_gain, trailing_mean. destruct (Nat.ltb_spec (i + 1) period); [lia|].
    assert (Hlen : (i < length (gains prices))%nat).
    { unfold gains, diff. now rewrite !length_map, length_seq. }
    apply (mean_non_negative (window period i (gains prices))).
    - apply Forall_forall. intros x Hx. apply window_In in Hx.
      unfold gains in Hx. apply in_map_iff in Hx. destruct Hx as (d & <- & _).
      apply gain_non_negative.
    - now apply window_sum_mean. }
  cbn [fdiv] in Hentry.
  destruct (Qeqb_spec 1 0) as [H10|_]; [discriminate H10|].
  cbn [fadd fdiv] in Hentry.
  destruct (Qeqb_spec (1 + avg_gain / 1) 0) as [Hz|Hnz].
  { exfalso. assert (avg_gain / 1 == avg_gain) by (field). lra. }
  cbn [fsub nan_to] in Hentry.
  exists (100 - 100 / (1 + avg_gain / 1)).
  assert (Hvalue : 100 - 100 / (1 + avg_gain / 1) == 100 * avg_gain / (1 + avg_gain)).
  { field. lra. }
  split; [exact Hentry|]. split; [exact Hgain|]. split; [exact Hvalue|].
  rewrite Hvalue. split.
  - apply Qlt_shift_div_r; lra.
  - intros H3. apply Qle_shift_div_r; lra.
Qed.

Lemma flat_bars_never_fall : never_falls (map close flat_bars) 14 20.
Proof.
  intros j a b Hj _ Ha Hb.
  assert (Hall : forall k x, nth_error (map close flat_bars) k = Some x -> x = 100).
  { intros k x Hx. apply nth_error_In in Hx. unfold flat_bars in Hx.
    rewrite map_map in Hx. apply in_map_iff in Hx. destruct Hx as (t & <- & _).
    reflexivity. }
  rewrite (Hall _ _ Ha), (Hall _ _ Hb). apply Qle_refl.
Qed.

Lemma rsi_without_a_falling_price_witness :
  exists rsi,
    nth_error (calculate_rsi (map close flat_bars) 14) 20 = Some rsi /\
    rsi < 100.
Proof.
  assert (Hp : (1 <= 14)%nat) by (apply Nat.leb_le; reflexivity).
  assert (Hw : (14 <= 20 + 1)%nat) by (apply Nat.leb_le; reflexivity).
  assert (Hi : (20 < length (map close flat_bars))%nat) by (apply Nat.ltb_lt; reflexivity).
  destruct (rsi_without_a_falling_price (map close flat_bars) 14 20 Hp Hw Hi
              flat_bars_never_fall) as (rsi & Hentry & _ & _ & Hbelow & _).
  exists rsi. split; [exact Hentry|exact Hbelow].
Defined.

(** ** MACD *)

Lemma same_values_refl (l : list Q) : same_values l l.
Proof. induction l; constructor; [reflexivity|assumption]. Qed.

Lemma same_values_trans (l1 l2 l3 : list Q) :
  same_values l1 l2 -> same_values l2 l3 -> same_values l1 l3.
Proof.
  intros H. revert l3. induction H as [|a b l l' Hab _ IH]; intros l3 H3.
  - inversion H3. constructor.
  - inversion H3 as [|b' c l2' l3' Hbc Hrest]; subst.
    constructor; [now rewrite Hab|now apply IH].
Qed.

Lemma same_values_firstn (n : nat) (l l' : list Q) :
  same_values l l' -> same_values (firstn n l) (firstn n l').
Proof.
  intros H. revert n. induction H as [|a b l l' Hab _ IH]; intros [|n]; cbn [firstn];
    constructor; [exact Hab|apply IH].
Qed.

Lemma same_values_rev (l l' : list Q) :
  same_values l l' -> same_values (rev l) (rev l').
Proof.
  induction 1 as [|a b l l' Hab _ IH]; [constructor|]. cbn [rev].
  apply Forall2_app; [exact IH|]. constructor; [exact Hab|constructor].
Qed.

(** Two series built row by row from the same rows. *)
Lemma same_values_rows (f g : nat -> Q) (rows : list nat) :
  (forall t, In t rows -> f t == g t) -> same_values (map f rows) (map g rows).
Proof.
  induction rows as [|t rows IH]; intros H; [constructor|].
  cbn [map]. constructor; [apply H; now left|].
  apply IH. intros u Hu. apply H. now right.
Qed.

Lemma ewm_weighted_sum_same (decay : Q) (l l' : list Q) :
  same_values l l' -> ewm_weighted_sum decay l == ewm_weighted_sum decay l'.
Proof.
  induction 1 as [|a b l l' Hab _ IH]; [reflexivity|].
  cbn [ewm_weighted_sum]. now rewrite Hab, IH.
Qed.

Lemma ewm_weighted_sum_raised (decay c : Q) (l : list Q) :
  ewm_weighted_sum decay (map (fun x => x + c) l)
  == ewm_weighted_sum decay l + c * ewm_weight_sum decay (length l).
Proof.
  induction l as [|x l IH]; cbn [map ewm_weighted_sum ewm_weight_sum length]; [ring|].
  rewrite IH. ring.
Qed.

Lemma ewm_weight_sum_positive (decay : Q) (n : nat) :
  0 <= decay -> (1 <= n)%nat -> 1 <= ewm_weight_sum decay n.
Proof.
  intros Hd Hn.
  assert (Hnn : forall m, 0 <= ewm_weight_sum decay m).
  { induction m as [|m IH]; cbn [ewm_weight_sum]; [lra|nra]. }
  destruct n as [|n]; [lia|]. cbn [ewm_weight_sum]. specialize (Hnn n). nra.
Qed.

Lemma span_decay (span : nat) :
  (1 <= span)%nat -> 0 <= 1 - 2 / (inject_Z (Z.of_nat span) + 1).
Proof.
  intros Hs.
  assert (H1 : 1 <= inject_Z (Z.of_nat span)).
  { change 1 with (inject_Z 1). rewrite <- Zle_Qle. lia. }
  assert (H2 : 2 / (inject_Z (Z.of_nat span) + 1) <= 1).
  { apply Qle_shift_div_r; lra. }
  lra.
Qed.

Lemma ewm_mean_same (span : nat) (l l' : list Q) :
  same_values l l' -> same_values (ewm_mean span l) (ewm_mean span l').
Proof.
  intros H. unfold ewm_mean. cbv zeta. rewrite <- (Forall2_length H).
  apply same_values_rows. intros t _.
  assert (Hrows : same_values (rev (firstn (t + 1) l)) (rev (firstn (t + 1) l'))).
  { now apply same_values_rev, same_values_firstn. }
  rewrite (ewm_weighted_sum_same _ _ _ Hrows), (Forall2_length Hrows). reflexivity.
Qed.

Lemma ewm_mean_raised (span : nat) (c : Q) (l : list Q) :
  (1 <= span)%nat ->
  same_values (ewm_mean span (raised c l)) (raised c (ewm_mean span l)).
Proof.
  intros Hs. unfold ewm_mean, raised. cbv zeta. rewrite map_map, length_map.
  apply same_values_rows. intros t Ht. apply in_seq in Ht.
  rewrite firstn_map, <- map_rev, length_map, ewm_weighted_sum_raised.
  set (newest_first := rev (firstn (t + 1) l)).
  assert (Hlen : (1 <= length newest_first)%nat).
  { unfold newest_first. rewrite length_rev, length_firstn. lia. }
  pose proof (ewm_weight_sum_positive _ _ (span_decay span Hs) Hlen) as Hw.
  field. lra.
Qed.

Lemma zip_minus_same (a a' b b' : list Q) :
  same_values a a' -> same_values b b' ->
  same_values (zip_with Qminus a b) (zip_with Qminus a' b').
Proof.
  intros Ha. revert b b'. induction Ha as [|x x' a a' Hx _ IH]; intros b b' Hb.
  - constructor.
  - destruct Hb as [|y y' b b' Hy Hb]; [constructor|].
    unfold zip_with. cbn [combine map fst snd].
    constructor; [now rewrite Hx, Hy|]. now apply IH.
Qed.

Lemma zip_minus_raised (c : Q) (a b : list Q) :
  same_values (zip_with Qminus (raised c a) (raised c b)) (zip_with Qminus a b).
Proof.
  revert b. induction a as [|x a IH]; intros [|y b]; try constructor.
  - cbn [fst snd]. ring.
  - apply IH.
Qed.

Lemma calculate_macd_same (prices prices' : list Q) (fast slow signal : nat) :
  same_values prices prices' ->
  same_values (fst (calculate_macd prices fast slow signal))
              (fst (calculate_macd prices' fast slow signal)) /\
  same_values (snd (calculate_macd prices fast slow signal))
              (snd (calculate_macd prices' fast slow signal)).
Proof.
  intros H. unfold calculate_macd. rewrite <- (Forall2_length H).
  destruct (length prices <? slow)%nat; [split; apply same_values_refl|].
  destruct (_ || _); [split; apply same_values_refl|]. cbv zeta. cbn [fst snd].
  assert (Hmacd : same_values
                    (zip_with Qminus (ewm_mean fast prices) (ewm_mean slow prices))
                    (zip_with Qminus (ewm_mean fast prices') (ewm_mean slow prices'))).
  { apply zip_minus_same; now apply ewm_mean_same. }
  split; [exact Hmacd|now apply ewm_mean_same].
Qed.

Lemma ewm_weighted_sum_zero (decay : Q) (l : list Q) :
  Forall (fun x => x == 0) l -> ewm_weighted_sum decay l == 0.
Proof.
  induction 1 as [|x l Hx _ IH]; [reflexivity|].
  cbn [ewm_weighted_sum]. rewrite Hx, IH. ring.
Qed.

Lemma Forall_firstn {A : Type} (P : A -> Prop) (n : nat) (l : list A) :
  Forall P l -> Forall P (firstn n l).
Proof.
  intros H. apply Forall_forall. intros x Hx. rewrite Forall_forall in H.
  apply H. now apply In_firstn in Hx.
Qed.

Lemma ewm_mean_zero (span : nat) (l : list Q) :
  Forall (fun x => x == 0) l -> Forall (fun x => x == 0) (ewm_mean span l).
Proof.
  intros H. unfold ewm_mean. cbv zeta. apply Forall_map, Forall_forall. intros t _.
  rewrite ewm_weighted_sum_zero.
  - unfold Qdiv. apply Qmult_0_l.
  - apply Forall_rev. now apply Forall_firstn.
Qed.

Lemma zip_minus_zero (a b : list Q) :
  Forall (fun x => x == 0) a -> Forall (fun x => x == 0) b ->
  Forall (fun x => x == 0) (zip_with Qminus a b).
Proof.
  intros Ha. revert b. induction Ha as [|x a Hx _ IH]; intros b Hb; [constructor|].
  destruct Hb as [|y b Hy Hb]; [constructor|].
  unfold zip_with. cbn [combine map fst snd]. constructor; [rewrite Hx, Hy; ring|].
  now apply IH.
Qed.

Lemma same_values_zero (l l' : list Q) :
  same_values l l' -> Forall (fun x => x == 0) l' -> Forall (fun x => x == 0) l.
Proof.
  induction 1 as [|a b l l' Hab _ IH]; intros H; [constructor|].
  inversion H as [|? ? Hb Hrest]; subst. constructor; [now rewrite Hab|now apply IH].
Qed.

Lemma calculate_macd_zero (prices : list Q) (fast slow signal : nat) :
  Forall (fun x => x == 0) prices ->
  Forall (fun x => x == 0) (fst (calculate_macd prices fast slow signal)) /\
  Forall (fun x => x == 0) (snd (calculate_macd prices fast slow signal)).
Proof.
  intros H. unfold calculate_macd.
  assert (Hzeros : Forall (fun x => x == 0) (repeat 0 (length prices))).
  { apply Forall_forall. intros x Hx. apply repeat_spec in Hx. now subst x. }
  destruct (length prices <? slow)%nat; [now split|].
  destruct (_ || _); [now split|]. cbv zeta. cbn [fst snd].
  assert (Hmacd : Forall (fun x => x == 0)
                    (zip_with Qminus (ewm_mean fast prices) (ewm_mean slow prices))).
  { apply zip_minus_zero; now apply ewm_mean_zero. }
  split; [exact Hmacd|now apply ewm_mean_zero].
Qed.

(** X23.  [calculate_macd] depends on price differences only: adding a
    constant to every price changes no value of the MACD line or of its
    signal line, and on a constant series both are 0 on every row. *)
Theorem macd_ignores_the_price_level (prices : list Q) (c : Q) (fast slow signal : nat) :
  same_values (fst (calculate_macd (raised c prices) fast slow signal))
              (fst (calculate_macd prices fast slow signal)) /\
  same_values (snd (calculate_macd (raised c prices) fast slow signal))
              (snd (calculate_macd prices fast slow signal)) /\
  (forall n : nat,
     Forall (fun m => m == 0) (fst (calculate_macd (repeat c n) fast slow signal)) /\
     Forall (fun m => m == 0) (snd (calculate_macd (repeat c n) fast slow signal))).
Proof.
  assert (Hshift : forall l,
    same_values (fst (calculate_macd (raised c l) fast slow signal))
                (fst (calculate_macd l fast slow signal)) /\
    same_values (snd (calculate_macd (raised c l) fast slow signal))
                (snd (calculate_macd l fast slow signal))).
  2: { destruct (Hshift prices) as [H1 H2]. split; [exact H1|]. split; [exact H2|].
       intros n.
       assert (Hflat : same_values (repeat c n) (raised c (repeat 0 n))).
       { unfold raised. induction n as [|n IH]; cbn [repeat map]; constructor;
           [ring|exact IH]. }
       destruct (calculate_macd_same _ _ fast slow signal Hflat) as [Hf Hs].
       destruct (Hshift (repeat 0 n)) as [Hf' Hs'].
       assert (Hzero : Forall (fun x => x == 0) (repeat 0 n)).
       { apply Forall_forall. intros x Hx. apply repeat_spec in Hx. now subst x. }
       destruct (calculate_macd_zero (repeat 0 n) fast slow signal Hzero) as [Hz Hz'].
       split.
       - apply (same_values_zero _ _ Hf). now apply (same_values_zero _ _ Hf').
       - apply (same_values_zero _ _ Hs). now apply (same_values_zero _ _ Hs'). }
  clear prices. intros prices.
  assert (Hlen : length (raised c prices) = length prices).
  { unfold raised. apply length_map. }
  unfold calculate_macd. rewrite Hlen.
  destruct (length prices <? slow)%nat; [split; apply same_values_refl|].
  destruct ((fast <? 1)%nat || (slow <? 1)%nat || (signal <? 1)%nat) eqn:Hspan;
    [split; apply same_values_refl|].
  apply orb_false_iff in Hspan. destruct Hspan as [Hspan Hsignal].
  apply orb_false_iff in Hspan. destruct Hspan as [Hfast Hslow].
  apply Nat.ltb_ge in Hfast, Hslow, Hsignal.
  cbv zeta. cbn [fst snd].
  assert (Hmacd : same_values
                    (zip_with Qminus (ewm_mean fast (raised c prices))
                                     (ewm_mean slow (raised c prices)))
                    (zip_with Qminus (ewm_mean fast prices) (ewm_mean slow prices))).
  { apply same_values_trans
      with (l2 := zip_with Qminus (raised c (ewm_mean fast prices))
                                  (raised c (ewm_mean slow prices))).
    - apply zip_minus_same; now apply ewm_mean_raised.
    - apply zip_minus_raised. }
  split; [exact Hmacd|now apply ewm_mean_same].
Qed.

(** ** Reporting: the best performing coins *)

Lemma sum_app (l l' : list Q) : sum (l ++ l') == sum l + sum l'.
Proof.
  unfold sum. induction l as [|x l IH]; cbn [app fold_right]; [ring|].
  rewrite IH. ring.
Qed.

Lemma trades_of_snoc (coin : string) (l : list Trade) (t : Trade) :
  trades_of coin (l ++ [t])
  = trades_of coin l ++ (if String.eqb (trade_symbol t) coin then [t] else []).
Proof. unfold trades_of. rewrite filter_app. reflexivity. Qed.

Lemma record_trade_keys (sym : string) (profit : Q) (d : PerformanceDict) :
  (In sym (map fst d) /\ map fst (record_trade sym profit d) = map fst d) \/
  (~ In sym (map fst d) /\ map fst (record_trade sym profit d) = map fst d ++ [sym]).
Proof.
  induction d as [|[coin data] rest IH]; cbn [record_trade map fst].
  - right. split; [intros []|reflexivity].
  - destruct (String.eqb_spec coin sym) as [->|Hne]; cbn [map fst].
    + left. split; [now left|reflexivity].
    + destruct IH as [[Hin Hk]|[Hnot Hk]].
      * left. split; [now right|now rewrite Hk].
      * right. split; [intros [H|H]; [contradiction|contradiction]|now rewrite Hk].
Qed.

Lemma record_trade_entries (sym : string) (profit : Q) (d : PerformanceDict)
  (coin : string) (data : Performance) :
  NoDup (map fst d) ->
  In (coin, data) (record_trade sym profit d) ->
  (coin <> sym /\ In (coin, data) d) \/
  (coin = sym /\
   ((exists old, In (sym, old) d /\
                 total_profit data = total_profit old + profit /\
                 trade_count data = (trade_count old + 1)%Z) \/
    (~ In sym (map fst d) /\
     total_profit data = 0 + profit /\ trade_count data = (0 + 1)%Z))).
Proof.
  induction d as [|[k v] rest IH]; intros Hnodup Hin; cbn [record_trade] in Hin.
  - destruct Hin as [Heq|[]]. injection Heq as <- <-.
    right. split; [reflexivity|]. right. cbn. split; [intros []|split; reflexivity].
  - cbn [map fst] in Hnodup. apply NoDup_cons_iff in Hnodup.
    destruct Hnodup as [Hfresh Hnodup].
    destruct (String.eqb_spec k sym) as [->|Hne].
    + destruct Hin as [Heq|Hin].
      * injection Heq as <- <-. right. split; [reflexivity|]. left.
        exists v. split; [now left|split; reflexivity].
      * left. split; [|now right].
        intros ->. apply Hfresh. apply in_map_iff. now exists (sym, data).
    + destruct Hin as [Heq|Hin].
      * injection Heq as <- <-. left. split; [exact Hne|now left].
      * destruct (IH Hnodup Hin) as [[H1 H2]|[-> [(old & Ho & Hp)|(Hnot & Hp)]]].
        -- left. split; [exact H1|now right].
        -- right. split; [reflexivity|]. left. exists old. split; [now right|exact Hp].
        -- right. split; [reflexivity|]. right. split; [|exact Hp].
           cbn [map fst]. intros [H|H]; [congruence|contradiction].
Qed.

Lemma tallies_step (l : list Trade) (d : PerformanceDict) (t : Trade) :
  (forall coin, In coin (map fst d) <-> trades_of coin l <> []) ->
  tallies l d ->
  tallies (l ++ [t]) (record_trade (trade_symbol t) (profit_of_trade t) d) /\
  (forall coin,
     In coin (map fst (record_trade (trade_symbol t) (profit_of_trade t) d))
     <-> trades_of coin (l ++ [t]) <> []).
Proof.
  intros Hkeys [Hnodup Hd].
  assert (Hkeys' : forall coin,
             In coin (map fst (record_trade (trade_symbol t) (profit_of_trade t) d))
             <-> trades_of coin (l ++ [t]) <> []).
  { intros coin. rewrite trades_of_snoc.
    destruct (record_trade_keys (trade_symbol t) (profit_of_trade t) d)
      as [[Hin ->]|[Hnot ->]].
    - rewrite Hkeys. split.
      + intros H G. apply app_eq_nil in G. now destruct G.
      + intros H. destruct (String.eqb_spec (trade_symbol t) coin) as [<-|Hne].
        * now apply Hkeys.
        * now rewrite app_nil_r in H.
    - rewrite in_app_iff, Hkeys. split.
      + intros [H|[<-|[]]] G; apply app_eq_nil in G; destruct G as [G1 G2].
        * contradiction.
        * rewrite String.eqb_refl in G2. discriminate G2.
      + intros H. destruct (String.eqb_spec (trade_symbol t) coin) as [<-|Hne].
        * right. now left.
        * left. now rewrite app_nil_r in H. }
  split; [|exact Hkeys']. split.
  - destruct (record_trade_keys (trade_symbol t) (profit_of_trade t) d)
      as [[Hin ->]|[Hnot ->]]; [exact Hnodup|].
    apply NoDup_app; [exact Hnodup|repeat constructor; intros []|].
    intros a Ha [<-|[]]. contradiction.
  - intros coin data Hin.
    assert (Hlisted : trades_of coin (l ++ [t]) <> []).
    { apply Hkeys'. apply in_map_iff. now exists (coin, data). }
    split; [|split; [|exact Hlisted]]; rewrite trades_of_snoc.
    + destruct (record_trade_entries _ _ _ _ _ Hnodup Hin)
        as [[Hne Hold]|[-> [(old & Ho & Hp & _)|(Hnot & Hp & _)]]].
      * destruct (String.eqb_spec (trade_symbol t) coin) as [Heq|_]; [congruence|].
        rewrite app_nil_r. now apply Hd.
      * rewrite String.eqb_refl, map_app, sum_app, Hp.
        destruct (Hd _ _ Ho) as [Hsum _]. rewrite Hsum. cbn [map sum fold_right]. ring.
      * rewrite String.eqb_refl, map_app, sum_app, Hp.
        assert (Hnone : trades_of (trade_symbol t) l = []).
        { destruct (trades_of (trade_symbol t) l) eqn:E; [reflexivity|].
          exfalso. apply Hnot. apply Hkeys. rewrite E. discriminate. }
        rewrite Hnone. cbn [map sum fold_right]. ring.
    + destruct (record_trade_entries _ _ _ _ _ Hnodup Hin)
        as [[Hne Hold]|[-> [(old & Ho & _ & Hc)|(Hnot & _ & Hc)]]].
      * destruct (String.eqb_spec (trade_symbol t) coin) as [Heq|_]; [congruence|].
        rewrite app_nil_r. now apply Hd.
      * rewrite String.eqb_refl, length_app, Hc.
        destruct (Hd _ _ Ho) as (_ & Hcount & _). rewrite Hcount. cbn [length]. lia.
      * rewrite String.eqb_refl, length_app, Hc.
        assert (Hnone : trades_of (trade_symbol t) l = []).
        { destruct (trades_of (trade_symbol t) l) eqn:E; [reflexivity|].
          exfalso. apply Hnot. apply Hkeys. rewrite E. discriminate. }
        rewrite Hnone. cbn [length]. lia.
Qed.

Lemma coin_performance_tallies (l : list Trade) :
  tallies l (coin_performance l) /\
  (forall coin, In coin (map fst (coin_performance l)) <-> trades_of coin l <> []).
Proof.
  unfold coin_performance.
  assert (Hgen : forall done todo d,
             tallies done d ->
             (forall coin, In coin (map fst d) <-> trades_of coin done <> []) ->
             let d' := fold_left (fun d t => record_trade (trade_symbol t)
                                               (profit_of_trade t) d) todo d in
             tallies (done ++ todo) d' /\
             (forall coin, In coin (map fst d') <-> trades_of coin (done ++ todo) <> [])).
  { intros done todo. revert done. induction todo as [|t todo IH]; intros done d Ht Hk.
    - cbn. now rewrite app_nil_r.
    - cbn [fold_left]. destruct (tallies_step done d t Hk Ht) as [Ht' Hk'].
      specialize (IH (done ++ [t]) _ Ht' Hk'). cbv zeta in IH.
      now rewrite <- app_assoc in IH. }
  apply (Hgen [] l []).
  - split; [constructor|intros coin data []].
  - intros coin. cbn. split; [intros []|intros H; now apply H].
Qed.

Lemma NoDup_firstn_map {A B : Type} (f : A -> B) (n : nat) (l : list A) :
  NoDup (map f l) -> NoDup (map f (firstn n l)).
Proof.
  intros H. rewrite <- (firstn_skipn n l), map_app in H.
  now apply NoDup_app_remove_r in H.
Qed.

Lemma last_trades_length (n : nat) (l : list Trade) : (length (last_trades n l) <= n)%nat.
Proof. unfold last_trades. rewrite length_skipn. lia. Qed.

Lemma last_trades_short (n : nat) (l : list Trade) :
  (length l <= n)%nat -> last_trades n l = l.
Proof.
  intros H. unfold last_trades. replace (length l - n)%nat with 0%nat by lia. reflexivity.
Qed.

(** X24.  [get_best_performing_coins] reads the last 50 records of the
    log and returns at most 5 coins, each once, by descending total profit.
    The entry of a coin holds the sum of the [profit_loss] of its records
    among those 50 (a record without one counts as 0) and their number, at
    least 1.  A coin with a record among them that is not listed has a total
    no greater than that of any listed coin. *)
Theorem best_performing_coins_report (self : Bot) :
  let recent := last_trades 50 (trades self) in
  let report := get_best_performing_coins self in
  (length recent <= 50)%nat /\
  (length report <= 5)%nat /\
  NoDup (map fst report) /\
  StronglySorted (descending (fun item => total_profit (snd item))) report /\
  (forall coin data,
     In (coin, data) report ->
     total_profit data == sum (map profit_of_trade (trades_of coin recent)) /\
     trade_count data = Z.of_nat (length (trades_of coin recent)) /\
     (1 <= trade_count data <= 50)%Z) /\
  (forall coin,
     trades_of coin recent <> [] ->
     In coin (map fst report) \/
     forall listed data,
       In (listed, data) report ->
       sum (map profit_of_trade (trades_of coin recent)) <= total_profit data).
Proof.
  intros recent report.
  destruct (coin_performance_tallies recent) as [[Hnodup Hd] Hkeys].
  set (key := fun item : string * Performance => total_profit (snd item)).
  set (sorted := sort_descending key (coin_performance recent)).
  assert (Hperm : Permutation (coin_performance recent) sorted)
    by apply sort_descending_perm.
  assert (Hsorted : StronglySorted (descending key) sorted)
    by apply sort_descending_sorted.
  assert (Hreport : report = firstn 5 sorted) by reflexivity.
  assert (Hrecent : (length recent <= 50)%nat) by apply last_trades_length.
  assert (Hin : forall item, In item report -> In item (coin_performance recent)).
  { intros item H. rewrite Hreport in H.
    apply (Permutation_in _ (Permutation_sym Hperm)).
    rewrite <- (firstn_skipn 5 sorted). apply in_or_app. now left. }
  split; [exact Hrecent|].
  split; [rewrite Hreport, length_firstn; lia|].
  split.
  { rewrite Hreport. apply NoDup_firstn_map.
    apply (Permutation_NoDup (Permutation_map fst Hperm) Hnodup). }
  split; [rewrite Hreport; now apply sorted_firstn|].
  split.
  - intros coin data H. destruct (Hd _ _ (Hin _ H)) as (Hsum & Hcount & Hsome).
    split; [exact Hsum|]. split; [exact Hcount|]. rewrite Hcount.
    assert (Hle : (length (trades_of coin recent) <= length recent)%nat)
      by apply filter_length_le.
    destruct (trades_of coin recent); [congruence|]. cbn [length] in *. lia.
  - intros coin Hsome. apply Hkeys in Hsome. apply in_map_iff in Hsome.
    destruct Hsome as ([coin' mine] & Hfst & Hmine). cbn [fst] in Hfst. subst coin'.
    destruct (Hd _ _ Hmine) as (Hsum & _).
    apply (Permutation_in _ Hperm) in Hmine.
    rewrite <- (firstn_skipn 5 sorted) in Hmine. apply in_app_or in Hmine.
    destruct Hmine as [Hkept|Hdropped].
    + left. rewrite Hreport. apply in_map_iff. now exists (coin, mine).
    + right. intros listed data Hlisted. rewrite Hreport in Hlisted.
      rewrite <- Hsum.
      apply (sorted_split key 5 sorted (listed, data) (coin, mine) Hsorted Hlisted Hdropped).
Qed.

(** ** The books and the trade log *)

Lemma count_of_snoc (f : Trade -> bool) (l : list Trade) (t : Trade) :
  count_of f (l ++ [t]) = (count_of f l + (if f t then 1 else 0))%Z.
Proof.
  unfold count_of. rewrite filter_app, length_app. cbn [filter].
  destruct (f t); cbn [length]; lia.
Qed.

Lemma ledger_set_position (self : Bot) (p q : Position) :
  position self = Some p -> ledger self -> ledger (set_position self (Some q)).
Proof.
  intros Hp (Ht & Hw & Ho). unfold ledger. cbn [set_position trades total_trades
    winning_trades position]. rewrite Hp in Ho. now repeat split.
Qed.

Lemma ledger_settle (self : Bot) (p q : Position) (current_price : Q)
  (reason : option string) (sym : string) :
  position self = Some p ->
  ledger self -> ledger (set_position (settle self q current_price reason sym) None).
Proof.
  intros Hp (Ht & Hw & Ho). rewrite Hp in Ho. unfold ledger, settle. cbv zeta.
  cbn [set_position position trades total_trades winning_trades].
  rewrite !count_of_snoc.
  set (opens := count_of is_open (trades self)) in *.
  set (closes := count_of is_close (trades self)) in *.
  set (wins := count_of is_win (trades self)) in *.
  unfold is_open, is_close, is_win, profit_of_trade.
  cbn [trade_type trade_profit_loss].
  split; [|split].
  - cbn. lia.
  - cbn. rewrite Hw. destruct (Qgtb _ 0); lia.
  - cbn. lia.
Qed.

Lemma ledger_force_close_position (self : Bot) (current_price : Q) (reason sym : string) :
  ledger self -> ledger (force_close_position self current_price reason sym).
Proof.
  intros H. unfold force_close_position.
  destruct (position self) as [p|] eqn:Hp; [|exact H].
  destruct (String.eqb _ _); [|exact H].
  now apply (ledger_settle self p).
Qed.

Lemma ledger_manage_open_position (self : Bot) (current_price : Q) (sym : string) :
  ledger self -> ledger (manage_open_position self current_price sym).
Proof.
  intros H. unfold manage_open_position.
  destruct (position self) as [p|] eqn:Hp; [|exact H].
  destruct (String.eqb _ _); [|exact H]. cbv zeta.
  pose proof (ledger_set_position self p (trailing_stop p current_price) Hp H) as Hheld.
  destruct (Qle_bool _ _); [|destruct (Qgeb _ _)];
    try apply ledger_force_close_position; exact Hheld.
Qed.

Lemma ledger_open_position (get_ohlcv_data : Exchange) (self : Bot) (signal_strength : Z)
  (current_price : Q) (sym : string) :
  position self = None ->
  ledger self -> ledger (open_position get_ohlcv_data self signal_strength current_price sym).
Proof.
  intros Hflat (Ht & Hw & Ho). rewrite Hflat in Ho. unfold open_position. cbv zeta.
  set (position_size := calculate_position_size _ _ _ _ _).
  clearbody position_size.
  destruct (Qgtb position_size 0).
  2: { unfold ledger. rewrite Hflat. now repeat split. }
  unfold ledger. cbn [position trades total_trades winning_trades].
  rewrite !count_of_snoc.
  set (opens := count_of is_open (trades self)) in *.
  set (closes := count_of is_close (trades self)) in *.
  set (wins := count_of is_win (trades self)) in *.
  unfold is_open, is_close, is_win, profit_of_trade.
  cbn [trade_type trade_profit_loss].
  split; [|split]; cbn; lia.
Qed.

Lemma run_call_ledger (get_ohlcv_data : Exchange) (self : Bot) (c : Call) :
  well_formed self -> ledger self -> ledger (run_call get_ohlcv_data self c).
Proof.
  intros Hwf H. destruct c as [signal strength price sym|price sym|price reason sym];
    cbn [run_call].
  - destruct (position self) as [p|] eqn:Hp.
    + rewrite (execute_trade_held get_ohlcv_data self signal strength price sym p Hp).
      destruct (String.eqb (symbol p) sym); [|exact H].
      destruct (Action_eqb signal SELL); [|now apply ledger_manage_open_position].
      unfold close_position. cbv zeta.
      destruct (Hwf p Hp) as (_ & Hs & He).
      destruct (Qeqb_spec (entry_price p * size p) 0) as [Hz|_].
      { exfalso. apply He. nra. }
      now apply (ledger_settle self p).
    + rewrite (execute_trade_flat get_ohlcv_data self signal strength price sym Hp).
      destruct (Action_eqb signal BUY); [|exact H].
      now apply ledger_open_position.
  - now apply ledger_manage_open_position.
  - now apply ledger_force_close_position.
Qed.

(** A call appends at most one record to the log. *)
Lemma run_call_log (get_ohlcv_data : Exchange) (self : Bot) (c : Call) :
  exists new, trades (run_call get_ohlcv_data self c) = trades self ++ new /\
              (length new <= 1)%nat.
Proof.
  assert (Hsame : forall s, exists new, trades s = trades s ++ new /\ (length new <= 1)%nat).
  { intros s. exists []. rewrite app_nil_r. split; [reflexivity|cbn; lia]. }
  assert (Hclose : forall x r y,
             exists new, trades (force_close_position self x r y) = trades self ++ new /\
                         (length new <= 1)%nat).
  { intros x r y. unfold force_close_position.
    destruct (position self) as [p|]; [|apply Hsame].
    destruct (String.eqb _ _); [|apply Hsame].
    eexists. split; [reflexivity|cbn; lia]. }
  assert (Hmanage : forall x y,
             exists new, trades (manage_open_position self x y) = trades self ++ new /\
                         (length new <= 1)%nat).
  { intros x y. unfold manage_open_position.
    destruct (position self) as [p|]; [|apply Hsame].
    destruct (String.eqb _ _) eqn:Hty; [|apply Hsame]. cbv zeta.
    unfold force_close_position. cbn [position set_position].
    rewrite (trailing_stop_type p x), Hty.
    destruct (Qle_bool _ _); [|destruct (Qgeb _ _)];
      try (eexists; split; [reflexivity|cbn; lia]).
    exists []. rewrite app_nil_r. split; [reflexivity|cbn; lia]. }
  destruct c as [signal strength price sym|price sym|price reason sym]; cbn [run_call].
  - unfold execute_trade. cbv zeta.
    destruct (_ && _).
    + unfold open_position. cbv zeta.
      destruct (Qgtb _ _); [|apply Hsame].
      eexists. split; [reflexivity|cbn; lia].
    + destruct (_ && _).
      * destruct (position self) as [p|]; [|apply Hsame].
        unfold close_position. cbv zeta.
        destruct (Qeq_bool _ _); eexists; (split; [reflexivity|cbn; lia]).
      * destruct (position_and _ _); [apply Hmanage|apply Hsame].
  - apply Hmanage.
  - apply Hclose.
Qed.

(** X25.  Over any run of calls, from a state whose position the bot opened,
    the counters and the position keep agreeing with the trade log:
    [total_trades] is the number of SELL records, [winning_trades] the number
    of records with a positive [profit_loss], and a position is held exactly
    when the log has one BUY record more than SELL records.
    [initial_balance] never changes, and the log only grows, by at most one
    record per call. *)
Theorem books_agree_with_the_log (get_ohlcv_data : Exchange) (self : Bot)
  (calls : list Call) :
  well_formed self ->
  ledger self ->
  ledger (run_calls get_ohlcv_data self calls) /\
  well_formed (run_calls get_ohlcv_data self calls) /\
  initial_balance (run_calls get_ohlcv_data self calls) = initial_balance self /\
  exists new,
    trades (run_calls get_ohlcv_data self calls) = trades self ++ new /\
    (length new <= length calls)%nat.
Proof.
  revert self. induction calls as [|c calls IH]; intros self Hwf H.
  - split; [exact H|]. split; [exact Hwf|]. split; [reflexivity|].
    exists []. rewrite app_nil_r. split; [reflexivity|cbn; lia].
  - unfold run_calls. cbn [fold_left].
    fold (run_calls get_ohlcv_data (run_call get_ohlcv_data self c) calls).
    destruct (IH _ (run_call_well_formed get_ohlcv_data self c Hwf)
                (run_call_ledger get_ohlcv_data self c Hwf H))
      as (Hl & Hw & Hi & later & Hlog & Hlen).
    destruct (run_call_log get_ohlcv_data self c) as (first & Hfirst & Hone).
    split; [exact Hl|]. split; [exact Hw|].
    split; [now rewrite Hi, run_call_initial_balance|].
    exists (first ++ later). rewrite Hlog, Hfirst, <- app_assoc.
    split; [reflexivity|]. rewrite length_app. cbn [length]. lia.
Qed.

Lemma new_bot_ledger (initial_balance risk_per_trade max_drawdown : Q) :
  ledger (new_bot initial_balance risk_per_trade max_drawdown).
Proof. repeat split. Qed.

Lemma new_bot_well_formed (initial_balance risk_per_trade max_drawdown : Q) :
  well_formed (new_bot initial_balance risk_per_trade max_drawdown).
Proof. intros p Hp. discriminate Hp. Qed.

Lemma books_agree_with_the_log_witness :
  ledger (new_bot 1000 0.025 0.12) /\
  ledger (run_calls flat_exchange (new_bot 1000 0.025 0.12)
            [Execute BUY 16 100 "BTC/USDT"; Manage 101 "BTC/USDT";
             ForceClose 110 "Drawdown" "BTC/USDT"]).
Proof.
  split; [apply new_bot_ledger|].
  destruct (books_agree_with_the_log flat_exchange (new_bot 1000 0.025 0.12)
              [Execute BUY 16 100 "BTC/USDT"; Manage 101 "BTC/USDT";
               ForceClose 110 "Drawdown" "BTC/USDT"]
              (new_bot_well_formed 1000 0.025 0.12)
              (new_bot_ledger 1000 0.025 0.12)) as (H & _).
  exact H.
Defined.

(** ** Position Manager: a position held through a run of price checks *)

Lemma manage_open_position_inside (self : Bot) (current_price : Q) (sym : string)
  (p p' : Position) :
  position self = Some p ->
  type p = "BUY"%string ->
  position (manage_open_position self current_price sym) = Some p' ->
  p' = trailing_stop p current_price /\
  stop_loss p' < current_price /\ current_price < take_profit p'.
Proof.
  intros Hp Ht Hp'.
  rewrite (manage_open_position_buy self current_price sym p Hp Ht) in Hp'.
  cbv zeta in Hp'.
  destruct (Qleb_spec current_price (stop_loss (trailing_stop p current_price)))
    as [Hstop|Hstop]; [discriminate Hp'|].
  destruct (Qgeb_spec current_price (take_profit (trailing_stop p current_price)))
    as [Htp|Htp]; [discriminate Hp'|].
  cbn in Hp'. injection Hp' as <-.
  split; [reflexivity|]. split; now apply Qnot_le_lt.
Qed.

Lemma below_or_reached (c : Q) (l : list Q) :
  Forall (fun x => x < c) l \/ Exists (fun x => c <= x) l.
Proof.
  induction l as [|x l [IH|IH]].
  - left. constructor.
  - destruct (Qlt_le_dec x c) as [H|H].
    + left. now constructor.
    + right. now constructor.
  - right. now constructor 2.
Qed.

Lemma Qmax_twice (a b : Q) : Qmax (Qmax a b) b == Qmax a b.
Proof.
  destruct (Q.max_spec a b) as [[H1 H2]|[H1 H2]];
    destruct (Q.max_spec (Qmax a b) b) as [[H3 H4]|[H3 H4]]; lra.
Qed.

(** X26.  A BUY position that is still open after a run of price checks
    was never closed on the way: every price of the run was strictly between
    the initial stop and the take-profit, the balance, the log and the
    counters are untouched, and entry price, size and take-profit are as they
    were.  Its stop is [max(stop_loss, entry_price * 1.01)] if some price of
    the run reached [entry_price * 1.03], and the position is unchanged if
    none did. *)
Theorem position_held_through_a_run (prices : list Q) (self : Bot) (sym : string)
  (p p' : Position) :
  position self = Some p ->
  type p = "BUY"%string ->
  position (manage_all self prices sym) = Some p' ->
  manage_all self prices sym = set_position self (Some p') /\
  entry_price p' = entry_price p /\
  size p' = size p /\
  take_profit p' = take_profit p /\
  Forall (fun x => stop_loss p < x /\ x < take_profit p) prices /\
  (Exists (fun x => entry_price p * 1.03 <= x) prices ->
   stop_loss p' == Qmax (stop_loss p) (entry_price p * 1.01)) /\
  (Forall (fun x => x < entry_price p * 1.03) prices -> p' = p).
Proof.
  revert self p. induction prices as [|x prices IH]; intros self p Hp Ht Hend.
  - cbn in Hend. assert (p' = p) by congruence. subst p'.
    split; [cbn; rewrite <- Hp; symmetry; apply set_position_same|].
    repeat (split; [reflexivity|]).
    split; [constructor|]. split; [intros H; inversion H|reflexivity].
  - unfold manage_all in Hend |- *. cbn [fold_left] in Hend |- *.
    fold (manage_all (manage_open_position self x sym) prices sym) in Hend |- *.
    destruct (position (manage_open_position self x sym)) as [q|] eqn:Hq.
    2: { rewrite (manage_all_flat prices _ sym Hq) in Hend. congruence. }
    destruct (manage_open_position_inside self x sym p q Hp Ht Hq) as (Hqp & Hlow & Hhigh).
    destruct (manage_open_position_held self x sym p q Hp Hq) as [_ Hstate].
    destruct (trailing_stop_frame p x) as (He & Hs & Htp & Hty & _).
    destruct (trailing_stop_stop_loss p x) as (Hup & Hreached & Hbelow).
    rewrite <- Hqp in He, Hs, Htp, Hty, Hup, Hreached, Hbelow.
    assert (Htq : type q = "BUY"%string) by congruence.
    destruct (IH _ q Hq Htq Hend) as (Hall & He' & Hs' & Htp' & Hband & Hsome & Hnone).
    split; [rewrite Hall, Hstate; reflexivity|].
    split; [congruence|]. split; [congruence|]. split; [congruence|].
    split; [|split].
    + constructor.
      * split; [eapply Qle_lt_trans; eassumption|now rewrite <- Htp].
      * eapply Forall_impl; [|exact Hband]. cbn. intros y [Hy1 Hy2].
        split; [eapply Qle_lt_trans; eassumption|now rewrite <- Htp].
    + intros Hex. rewrite He in Hsome.
      destruct (Qlt_le_dec x (entry_price p * 1.03)) as [Hlt|Hge].
      * rewrite (Hbelow Hlt) in *. apply Hsome.
        inversion Hex as [? ? Hx|? ? Hx]; subst; [|exact Hx].
        exfalso. apply (Qlt_irrefl x). eapply Qlt_le_trans; eassumption.
      * specialize (Hreached Hge).
        destruct (below_or_reached (entry_price p * 1.03) prices) as [Hrest|Hrest].
        -- rewrite He in Hnone. rewrite (Hnone Hrest). exact Hreached.
        -- rewrite (Hsome Hrest).
           destruct (Q.max_spec (stop_loss q) (entry_price p * 1.01)) as [[H1 H2]|[H1 H2]];
             destruct (Q.max_spec (stop_loss p) (entry_price p * 1.01)) as [[H3 H4]|[H3 H4]];
             lra.
    + intros Hbelow_all. inversion Hbelow_all as [|? ? Hx Hrest]; subst.
      rewrite He in Hnone. rewrite (Hnone Hrest). now apply Hbelow.
Qed.

Lemma position_held_through_a_run_witness :
  position holding_bot = Some btc_position /\
  position (manage_all holding_bot [101; 104; 102] "BTC/USDT")
  = Some (set_stop_loss btc_position (100 * 1.01)) /\
  stop_loss (set_stop_loss btc_position (100 * 1.01))
  == Qmax (stop_loss btc_position) (entry_price btc_position * 1.01).
Proof.
  assert (Hend : position (manage_all holding_bot [101; 104; 102] "BTC/USDT")
                 = Some (set_stop_loss btc_position (100 * 1.01)))
    by (vm_compute; reflexivity).
  split; [reflexivity|]. split; [exact Hend|].
  destruct (position_held_through_a_run [101; 104; 102] holding_bot "BTC/USDT"
              btc_position (set_stop_loss btc_position (100 * 1.01)) eq_refl eq_refl Hend)
    as (_ & _ & _ & _ & _ & Hstop & _).
  apply Hstop. constructor 2. constructor. vm_compute. discriminate.
Defined.
